(** * Archon knowledge graph: a shallow embedding of the ingestion pipeline

    The development follows the layout of
    [python/src/server/services/knowledge_graph]:

    - [PyStr], [PyPath], [Fnmatch], [Regex]: the fragments of Python's [str],
      [pathlib], [fnmatch] and [re] that the code relies on;
    - [Models]: the records and enumerations of [models.py];
    - [Py]: the state-and-exception monad in which effectful code is written
      ([uuid4], cancellation probes, the store, the progress channel);
    - [FileFilter], [TreeSitterParser], [GraphBuilder],
      [KnowledgeGraphService]: one module per class, one definition per
      method, with the names of the source.

    Text is modelled as [string], one [ascii] per character: the functions
    below agree with Python on ASCII text.  Paths are POSIX paths.  UUIDs are
    drawn from a counter, so that two calls of [uuid4] never collide. *)

From Stdlib Require Import ZArith QArith Ascii String List Lia Bool Arith.
From stdpp Require Import base tactics option strings list gmap sets pretty.

Local Open Scope string_scope.
Local Open Scope nat_scope.

(* ===================================================================== *)
(** * Python strings *)
(* ===================================================================== *)

Module PyStr.

Definition nl : string := String "010" "".
Definition tab : string := String "009" "".
Definition dquote : string := String "034" "".
Definition squote : string := String "039" "".

(** [c.isspace()] on ASCII. *)
Definition is_space (c : ascii) : bool :=
  let n := nat_of_ascii c in
  ((9 <=? n) && (n <=? 13)) || ((28 <=? n) && (n <=? 32)).

Definition is_upper (c : ascii) : bool :=
  let n := nat_of_ascii c in (65 <=? n) && (n <=? 90).

Definition lower_char (c : ascii) : ascii :=
  if is_upper c then ascii_of_nat (nat_of_ascii c + 32) else c.

(** [s.lower()] *)
Fixpoint lower (s : string) : string :=
  match s with
  | EmptyString => EmptyString
  | String c r => String (lower_char c) (lower r)
  end.

(** [s == t] *)
Definition eqb (s t : string) : bool := String.eqb s t.

Definition nonempty (s : string) : bool :=
  match s with EmptyString => false | _ => true end.

(** [s.startswith(p)] *)
Definition startswith (p s : string) : bool := String.prefix p s.

(** [sub in s] *)
Fixpoint contains (sub s : string) : bool :=
  String.prefix sub s ||
  match s with
  | EmptyString => false
  | String _ r => contains sub r
  end.

(** [s[n:]] *)
Fixpoint drop (n : nat) (s : string) : string :=
  match n, s with
  | S k, String _ r => drop k r
  | _, _ => s
  end.

(** [s[:n]] *)
Fixpoint take (n : nat) (s : string) : string :=
  match n, s with
  | S k, String c r => String c (take k r)
  | _, _ => EmptyString
  end.

(** [s.endswith(p)] *)
Definition endswith (p s : string) : bool :=
  (String.length p <=? String.length s) &&
  eqb (drop (String.length s - String.length p) s) p.

(** [s.lstrip()] *)
Fixpoint lstrip (s : string) : string :=
  match s with
  | EmptyString => EmptyString
  | String c r => if is_space c then lstrip r else s
  end.

(** [s.rstrip()] *)
Fixpoint rstrip (s : string) : string :=
  match s with
  | EmptyString => EmptyString
  | String c r =>
      let r' := rstrip r in
      if is_space c && negb (nonempty r') then EmptyString else String c r'
  end.

(** [s.strip()] *)
Definition strip (s : string) : string := rstrip (lstrip s).

Definition snoc (s : string) (c : ascii) : string := s +:+ String c "".

(** [s.split()]: maximal runs of non-blank characters. *)
Fixpoint split_ws_aux (cur : option string) (s : string) : list string :=
  match s with
  | EmptyString => match cur with None => [] | Some w => [w] end
  | String c r =>
      if is_space c then
        match cur with
        | None => split_ws_aux None r
        | Some w => w :: split_ws_aux None r
        end
      else
        split_ws_aux (Some (snoc (default "" cur) c)) r
  end.

Definition split_ws (s : string) : list string := split_ws_aux None s.

(** [s.split(sep)] for a non-empty separator; [skip] counts the characters
    of a separator that are still to be consumed. *)
Fixpoint split_aux (sep : string) (cur : string) (skip : nat) (s : string)
  : list string :=
  match s with
  | EmptyString => [cur]
  | String c r =>
      match skip with
      | S k => split_aux sep cur k r
      | O =>
          if String.prefix sep s
          then cur :: split_aux sep "" (String.length sep - 1) r
          else split_aux sep (snoc cur c) 0 r
      end
  end.

Definition split (sep s : string) : list string := split_aux sep "" 0 s.

(** [s.count(sub)] for a non-empty [sub]: occurrences that do not overlap. *)
Fixpoint count_aux (sub : string) (skip : nat) (s : string) : nat :=
  match s with
  | EmptyString => 0
  | String c r =>
      match skip with
      | S k => count_aux sub k r
      | O =>
          if String.prefix sub s
          then S (count_aux sub (String.length sub - 1) r)
          else count_aux sub 0 r
      end
  end.

Definition count (sub s : string) : nat := count_aux sub 0 s.

(** [s.replace(old, new)] for a non-empty [old]. *)
Fixpoint replace_aux (old new : string) (skip : nat) (s : string) : string :=
  match s with
  | EmptyString => EmptyString
  | String c r =>
      match skip with
      | S k => replace_aux old new k r
      | O =>
          if String.prefix old s
          then new +:+ replace_aux old new (String.length old - 1) r
          else String c (replace_aux old new 0 r)
      end
  end.

Definition replace (old new s : string) : string := replace_aux old new 0 s.

(** [sep.join(l)] *)
Fixpoint join (sep : string) (l : list string) : string :=
  match l with
  | [] => ""
  | [x] => x
  | x :: r => x +:+ sep +:+ join sep r
  end.

(** [len(s.splitlines())]: line boundaries are LF, CR, CRLF, VT, FF, FS,
    GS and RS; a final boundary opens no further line. *)
Definition is_linebreak (c : ascii) : bool :=
  let n := nat_of_ascii c in
  ((10 <=? n) && (n <=? 13)) || ((28 <=? n) && (n <=? 30)).

Fixpoint count_lines_aux (in_line : bool) (s : string) : nat :=
  match s with
  | EmptyString => if in_line then 1 else 0
  | String c r =>
      if is_linebreak c then
        match c, r with
        | "013"%char, String "010"%char r' => S (count_lines_aux false r')
        | _, _ => S (count_lines_aux false r)
        end
      else count_lines_aux true r
  end.

Definition count_lines (s : string) : nat := count_lines_aux false s.

(** [s.rfind(".")]: the index of the last dot, if any. *)
Fixpoint rfind_dot_aux (i : nat) (last : option nat) (s : string) : option nat :=
  match s with
  | EmptyString => last
  | String c r =>
      rfind_dot_aux (S i) (if Ascii.eqb c "."%char then Some i else last) r
  end.

Definition rfind_dot (s : string) : option nat := rfind_dot_aux 0 None s.

(** [s[0].isupper()], where indexing the empty string raises. *)
Definition first_char (s : string) : option ascii :=
  match s with EmptyString => None | String c _ => Some c end.

(** [x in l] for a list or set of strings. *)
Definition mem (x : string) (l : list string) : bool := existsb (eqb x) l.

(** [l.count(x)] *)
Definition count_occ (x : string) (l : list string) : nat :=
  List.length (List.filter (eqb x) l).

End PyStr.

(* ===================================================================== *)
(** * [pathlib.Path] on POSIX paths *)
(* ===================================================================== *)

Module PyPath.
Import PyStr.

(** The components of a path: empty components and ["."] are dropped. *)
Definition components (p : string) : list string :=
  List.filter (fun c => nonempty c && negb (eqb c ".")) (split "/" p).

(** Exactly two leading slashes are kept as a root of their own. *)
Definition root (p : string) : string :=
  if startswith "//" p && negb (startswith "///" p) then "//"
  else if startswith "/" p then "/"
  else "".

(** [Path(p).parts] *)
Definition parts (p : string) : list string :=
  (if nonempty (root p) then [root p] else []) ++ components p.

(** [Path(p).name] *)
Definition name (p : string) : string := List.last (components p) "".

(** [Path(p).suffix]: from the last dot of the name, unless that dot is
    the first or the last character. *)
Definition suffix (p : string) : string :=
  let n := name p in
  match rfind_dot n with
  | Some i => if (0 <? i) && (i <? String.length n - 1) then drop i n else ""
  | None => ""
  end.

(** [str(Path(p))] *)
Definition to_str (p : string) : string :=
  match parts p with
  | [] => "."
  | _ => root p +:+ join "/" (components p)
  end.

End PyPath.

(* ===================================================================== *)
(** * [fnmatch.fnmatch] *)
(* ===================================================================== *)

Module Fnmatch.

(** Shell-style matching with [*] (any run of characters) and [?] (one
    character); every other character stands for itself.  Bracket
    expressions are not modelled: no pattern of the file filter has one. *)
Fixpoint fnmatch_pat (pat : string) : string -> bool :=
  match pat with
  | EmptyString => fun s => negb (PyStr.nonempty s)
  | String "*"%char p =>
      fix star (s : string) : bool :=
        fnmatch_pat p s ||
        match s with
        | EmptyString => false
        | String _ r => star r
        end
  | String "?"%char p =>
      fun s => match s with
               | EmptyString => false
               | String _ r => fnmatch_pat p r
               end
  | String c p =>
      fun s => match s with
               | EmptyString => false
               | String d r => Ascii.eqb c d && fnmatch_pat p r
               end
  end.

Definition fnmatch (name pat : string) : bool := fnmatch_pat pat name.

Definition has_wildcard (pat : string) : bool :=
  PyStr.contains "*" pat || PyStr.contains "?" pat.

Definition has_bracket (pat : string) : bool := PyStr.contains "[" pat.

End Fnmatch.

(* ===================================================================== *)
(** * models.py *)
(* ===================================================================== *)

Module Models.

Inductive ParsingStatus := PENDING | PROCESSING | COMPLETED | FAILED | DISABLED.

Inductive NodeType :=
| FILE | CLASS | FUNCTION | METHOD | VARIABLE | IMPORT
| INTERFACE | ENUM | MODULE | NAMESPACE.

Inductive RelationshipType :=
| CALLS | INHERITS | IMPORTS | USES | DEFINES | CONTAINS
| DEPENDS_ON | IMPLEMENTS | EXTENDS.

#[global] Instance NodeType_eq_dec : EqDecision NodeType.
Proof. solve_decision. Defined.
#[global] Instance RelationshipType_eq_dec : EqDecision RelationshipType.
Proof. solve_decision. Defined.
#[global] Instance ParsingStatus_eq_dec : EqDecision ParsingStatus.
Proof. solve_decision. Defined.

Definition node_type_value (t : NodeType) : string :=
  match t with
  | FILE => "file" | CLASS => "class" | FUNCTION => "function"
  | METHOD => "method" | VARIABLE => "variable" | IMPORT => "import"
  | INTERFACE => "interface" | ENUM => "enum" | MODULE => "module"
  | NAMESPACE => "namespace"
  end.

Definition relationship_type_value (t : RelationshipType) : string :=
  match t with
  | CALLS => "calls" | INHERITS => "inherits" | IMPORTS => "imports"
  | USES => "uses" | DEFINES => "defines" | CONTAINS => "contains"
  | DEPENDS_ON => "depends_on" | IMPLEMENTS => "implements"
  | EXTENDS => "extends"
  end.

Definition parsing_status_value (s : ParsingStatus) : string :=
  match s with
  | PENDING => "pending" | PROCESSING => "processing"
  | COMPLETED => "completed" | FAILED => "failed" | DISABLED => "disabled"
  end.

(** A UUID. *)
Definition UUID := nat.

(** The values stored in [Dict[str, Any]] fields. *)
Inductive jval :=
| JNone | JBool (b : bool) | JInt (z : Z) | JStr (s : string).

Definition jdict := list (string * jval).

Record KGNode := mkKGNode {
  node_id : option UUID;
  kg_repository_id : UUID;
  node_type : NodeType;
  node_name : string;
  fully_qualified_name : option string;
  file_path : string;
  line_start : option Z;
  line_end : option Z;
  column_start : option Z;
  column_end : option Z;
  language : string;
  properties : jdict;
  source_code : option string;
  docstring : option string;
  complexity_score : option Z;
  is_public : bool;
  is_exported : bool;
}.

Record KGRelationship := mkKGRelationship {
  rel_id : option UUID;
  source_node_id : UUID;
  target_node_id : UUID;
  relationship_type : RelationshipType;
  confidence_score : Q;
  call_count : option Z;
  is_direct : bool;
  context_info : jdict;
}.

Record FileParseResult := mkFileParseResult {
  fpr_file_path : string;
  fpr_language : string;
  fpr_success : bool;
  nodes_extracted : nat;
  relationships_extracted : nat;
  parse_time_ms : Z;
  fpr_error : option string;
}.

Record LanguageConfig := mkLanguageConfig {
  lc_language : string;
  file_extensions : list string;
  tree_sitter_grammar : string;
  supported_node_types : list NodeType;
  complexity_enabled : bool;
}.

(** The constructor calls of the source leave most optional fields at their
    defaults; [new_node] and [new_relationship] take the fields that some
    call sets. *)
Definition new_node (id repo : UUID) (ty : NodeType) (name : string)
    (fqn path : string) (ls : option Z) (lang : string) (props : jdict)
    (src doc : option string) (cx : option Z) (pub : bool) : KGNode :=
  {| node_id := Some id; kg_repository_id := repo; node_type := ty;
     node_name := name; fully_qualified_name := Some fqn; file_path := path;
     line_start := ls; line_end := None; column_start := None;
     column_end := None; language := lang; properties := props;
     source_code := src; docstring := doc; complexity_score := cx;
     is_public := pub; is_exported := false |}.

Definition new_relationship (id src tgt : UUID) (ty : RelationshipType)
    (conf : Q) (ctx : jdict) : KGRelationship :=
  {| rel_id := Some id; source_node_id := src; target_node_id := tgt;
     relationship_type := ty; confidence_score := conf; call_count := None;
     is_direct := true; context_info := ctx |}.

(** Python truthiness of an [Optional[int]]: [None] and [0] are false. *)
Definition truthy (o : option Z) : bool :=
  match o with
  | Some z => negb (z =? 0)%Z
  | None => false
  end.

(** [o or 0] *)
Definition or0 (o : option Z) : Z := default 0%Z o.

(** [node.id], read where the source compares or copies identifiers; the
    nodes the code builds always carry one. *)
Definition nid (n : KGNode) : UUID := default 0 (node_id n).

Inductive SourceType := CRAWLED_CONTENT | PROJECT_REPOSITORY | UPLOADED_FILE.

(** Rows of [archon_kg_sources]; timestamps are left out. *)
Record KGSource := mkKGSource {
  src_id : UUID;
  source_type : SourceType;
  archon_source_id : option string;
  archon_project_id : option UUID;
  src_name : string;
  src_repository_url : option string;
  src_branch_name : string;
  src_local_path : option string;
  parsing_status : ParsingStatus;
  parsing_error : option string;
  total_nodes_created : Z;
  total_relationships_created : Z;
}.

(** Rows of [archon_kg_repositories]. *)
Record KGRepository := mkKGRepository {
  repo_id : UUID;
  kg_source_id : UUID;
  repo_name : string;
  repo_repository_url : option string;
  repo_branch_name : string;
  primary_language : option string;
  all_languages : list string;
  total_files : nat;
  parsed_files : Z;
  parsing_duration_seconds : option Z;
}.

Record ParseRequest := mkParseRequest {
  req_source_type : SourceType;
  req_name : string;
  repository_url : option string;
  local_path : option string;
  branch_name : string;
  req_archon_source_id : option string;
  req_archon_project_id : option UUID;
  languages : option (list string);
  max_file_size_kb : Z;
  parse_timeout_seconds : Z;
  enable_cross_file_refs : bool;
}.

(** The request with [enable_cross_file_refs] set to [b]. *)
Definition with_enable_cross_file_refs (b : bool) (r : ParseRequest) : ParseRequest :=
  {| req_source_type := req_source_type r; req_name := req_name r;
     repository_url := repository_url r; local_path := local_path r;
     branch_name := branch_name r;
     req_archon_source_id := req_archon_source_id r;
     req_archon_project_id := req_archon_project_id r;
     languages := languages r; max_file_size_kb := max_file_size_kb r;
     parse_timeout_seconds := parse_timeout_seconds r;
     enable_cross_file_refs := b |}.

(** The statistics of a successful [ParseResult]; rates and durations are
    left out. *)
Record ParseStatistics := mkParseStatistics {
  st_total_files : nat;
  st_parsed_files : Z;
  st_failed_files : nat;
  st_total_nodes : nat;
  st_total_relationships : nat;
  st_languages_detected : list string;
  st_streaming_storage : bool;
}.

Record ParseResult := mkParseResult {
  pr_success : bool;
  pr_kg_source_id : option UUID;
  pr_kg_repository_id : option UUID;
  pr_message : string;
  pr_statistics : option ParseStatistics;
  pr_error : option string;
}.

(** An entry of the running [failed_files] list. *)
Record FileError := mkFileError {
  fe_file_path : string;
  fe_error : option string;
}.

Record ParsingProgress := mkParsingProgress {
  pp_kg_source_id : string;
  pp_status : ParsingStatus;
  pp_total_files : nat;
  pp_processed_files : nat;
  pp_current_file : option string;
  pp_nodes_created : nat;
  pp_relationships_created : nat;
  pp_errors : list FileError;
}.

Record GraphQuery := mkGraphQuery {
  repository_id : UUID;
  start_node_id : option UUID;
  end_node_id : option UUID;
  relationship_types : list RelationshipType;
  max_depth : Z;
  node_types : option (list NodeType);
  language_filter : option string;
  include_properties : bool;
}.

End Models.

(* ===================================================================== *)
(** * The monad of effectful code *)
(* ===================================================================== *)

Module Py.
Import Models.

(** Exceptions.  [asyncio.CancelledError] derives from [BaseException]:
    an [except Exception] clause does not catch it. *)
Inductive exn :=
| Exception (cls msg : string)
| CancelledError (msg : string).

Inductive result (A : Type) :=
| Ok (a : A)
| Raise (e : exn).
Arguments Ok {A} a.
Arguments Raise {A} e.

(** What a run leaves behind: the progress events handed to the callback,
    and a mark where a cancellation was raised. *)
Inductive event :=
| EProgress (p : ParsingProgress)
| ECancelled.

(** The world: the UUID supply, the number of cancellation points passed,
    the events so far (latest first) and the tables of the store. *)
Record world := mkWorld {
  next_uuid : nat;
  points : nat;
  events : list event;
  kg_sources : list KGSource;
  kg_repositories : list KGRepository;
  kg_nodes : list KGNode;
  kg_relationships : list KGRelationship;
}.

Definition M (A : Type) : Type := world -> result A * world.

Definition ret {A} (a : A) : M A := fun w => (Ok a, w).

Definition bind {A B} (m : M A) (k : A -> M B) : M B :=
  fun w =>
    match m w with
    | (Ok a, w') => k a w'
    | (Raise e, w') => (Raise e, w')
    end.

Definition raise {A} (e : exn) : M A := fun w => (Raise e, w).

(** [try: m  except Exception as e: h(e)] *)
Definition try_except {A} (m : M A) (h : string -> string -> M A) : M A :=
  fun w =>
    match m w with
    | (Raise (Exception cls msg), w') => h cls msg w'
    | r => r
    end.

(** [try: m  except asyncio.CancelledError: hc  except Exception as e: h(e)] *)
Definition try_except_cancelled {A} (m : M A) (hc : M A)
    (h : string -> string -> M A) : M A :=
  fun w =>
    match m w with
    | (Raise (CancelledError _), w') => hc w'
    | (Raise (Exception cls msg), w') => h cls msg w'
    | r => r
    end.

Definition get : M world := fun w => (Ok w, w).
Definition put (w : world) : M unit := fun _ => (Ok tt, w).
Definition modify (f : world -> world) : M unit := fun w => (Ok tt, f w).

Definition set_next_uuid (n : nat) (w : world) : world :=
  mkWorld n (points w) (events w) (kg_sources w) (kg_repositories w)
          (kg_nodes w) (kg_relationships w).
Definition set_points (n : nat) (w : world) : world :=
  mkWorld (next_uuid w) n (events w) (kg_sources w) (kg_repositories w)
          (kg_nodes w) (kg_relationships w).
Definition set_events (l : list event) (w : world) : world :=
  mkWorld (next_uuid w) (points w) l (kg_sources w) (kg_repositories w)
          (kg_nodes w) (kg_relationships w).
Definition set_kg_sources (l : list KGSource) (w : world) : world :=
  mkWorld (next_uuid w) (points w) (events w) l (kg_repositories w)
          (kg_nodes w) (kg_relationships w).
Definition set_kg_repositories (l : list KGRepository) (w : world) : world :=
  mkWorld (next_uuid w) (points w) (events w) (kg_sources w) l
          (kg_nodes w) (kg_relationships w).
Definition set_kg_nodes (l : list KGNode) (w : world) : world :=
  mkWorld (next_uuid w) (points w) (events w) (kg_sources w)
          (kg_repositories w) l (kg_relationships w).
Definition set_kg_relationships (l : list KGRelationship) (w : world) : world :=
  mkWorld (next_uuid w) (points w) (events w) (kg_sources w)
          (kg_repositories w) (kg_nodes w) l.

(** [uuid4()] *)
Definition uuid4 : M UUID :=
  fun w => (Ok (next_uuid w), set_next_uuid (S (next_uuid w)) w).

(** A point at which a cancellation can be observed: [cancelled n] tells
    whether it is at the [n]-th such point of the run. *)
Definition cancellation_point (cancelled : nat -> bool) (msg : string) : M unit :=
  fun w =>
    let w' := set_points (S (points w)) w in
    if cancelled (points w)
    then (Raise (CancelledError msg), set_events (ECancelled :: events w') w')
    else (Ok tt, w').

(** [if callback: callback()] *)
Definition call_opt (callback : option (M unit)) : M unit :=
  match callback with
  | Some f => f
  | None => ret tt
  end.

(** [for x in l: body(x)] *)
Fixpoint for_each {A} (l : list A) (body : A -> M unit) : M unit :=
  match l with
  | [] => ret tt
  | x :: r => bind (body x) (fun _ => for_each r body)
  end.

(** A loop that threads an accumulator. *)
Fixpoint fold_m {A B} (body : B -> A -> M B) (l : list A) (acc : B) : M B :=
  match l with
  | [] => ret acc
  | x :: r => bind (body acc x) (fun acc' => fold_m body r acc')
  end.

(** [l[i]]: an [IndexError] when out of range. *)
Definition index {A} (l : list A) (i : nat) : M A :=
  match nth_error l i with
  | Some x => ret x
  | None => raise (Exception "IndexError" "list index out of range")
  end.

(** The world in which a run starts. *)
Definition world0 : world := mkWorld 0 0 [] [] [] [] [].

(** What a run of [m] does to the world: [I] relates the worlds before and
    after a run that returns or raises an [Exception], [C] those of a run
    that raises [CancelledError]. *)
Definition respects {A} (I C : world -> world -> Prop) (m : M A) : Prop :=
  forall w,
    match m w with
    | (Ok _, w') => I w w'
    | (Raise (Exception _ _), w') => I w w'
    | (Raise (CancelledError _), w') => C w w'
    end.

Declare Scope py_scope.
Delimit Scope py_scope with py.
Notation "x <- m ;; k" := (bind m (fun x => k))
  (at level 100, m at next level, right associativity) : py_scope.
Notation "m ;; k" := (bind m (fun _ => k))
  (at level 100, right associativity) : py_scope.

End Py.

(* ===================================================================== *)
(** * file_filter.py *)
(* ===================================================================== *)

Module FileFilter.
Import PyStr.

Record t := mk {
  excluded_extensions : gset string;
  excluded_patterns : list string;
  excluded_directories : gset string;
  max_file_size_kb : Z;
}.

Definition _get_default_excluded_extensions : gset string :=
  list_to_set [
    ".yaml"; ".yml"; ".json"; ".toml"; ".ini"; ".cfg"; ".conf";
    ".md"; ".txt"; ".rst"; ".adoc"; ".tex";
    ".lock"; ".frozen"; ".pipfile"; ".poetry.lock"; "package-lock.json";
    "yarn.lock"; "composer.lock"; "Gemfile.lock"; "Cargo.lock";
    ".png"; ".jpg"; ".jpeg"; ".gif"; ".bmp"; ".svg"; ".ico";
    ".pdf"; ".doc"; ".docx"; ".xls"; ".xlsx"; ".ppt"; ".pptx";
    ".zip"; ".tar"; ".gz"; ".bz2"; ".rar"; ".7z";
    ".exe"; ".bin"; ".so"; ".dll"; ".dylib";
    ".swp"; ".swo"; ".tmp"; ".bak"; ".backup"; ".orig";
    ".ds_store"; "thumbs.db"; "desktop.ini";
    ".log"; ".logs";
    ".db"; ".sqlite"; ".sqlite3";
    ".pem"; ".key"; ".crt"; ".cer"; ".p12"; ".pfx";
    ".env"; ".env.local"; ".env.production"; ".env.development";
    ".min.js"; ".min.css"; ".bundle.js"; ".bundle.css" ].

Definition _get_default_excluded_patterns : list string := [
    "package-lock.json"; "yarn.lock"; "composer.lock"; "Gemfile.lock";
    "Pipfile.lock"; "poetry.lock"; "Cargo.lock"; "go.sum";
    "requirements*.txt"; "setup.py"; "setup.cfg"; "pyproject.toml";
    "Makefile"; "makefile"; "CMakeLists.txt"; "Dockerfile*";
    "docker-compose*.yml"; "docker-compose*.yaml";
    ".gitignore"; ".gitattributes"; ".gitmodules";
    ".eslintrc*"; ".prettierrc*"; ".editorconfig"; ".babelrc*";
    "tsconfig*.json"; "webpack*.js"; "rollup*.js"; "vite*.js";
    ".travis.yml"; ".circleci*"; "appveyor.yml"; "azure-pipelines.yml";
    ".github/workflows/*"; ".gitlab-ci.yml"; "Jenkinsfile";
    ".vscode/*"; ".idea/*"; "*.sublime-*"; ".vs/*";
    "LICENSE*"; "COPYING*"; "COPYRIGHT*"; "NOTICE*";
    "DISCLAIMER*"; "TERMS*"; "PRIVACY*";
    "README*"; "CHANGELOG*"; "HISTORY*"; "AUTHORS*"; "CONTRIBUTORS*";
    "INSTALL*"; "USAGE*"; "TUTORIAL*"; "GUIDE*"; "FAQ*";
    "*.generated.*"; "*.gen.*"; "*_pb2.py"; "*_pb2_grpc.py";
    "*.fixture.*"; "*.mock.*"; "test_data/*"; "fixtures/*";
    "*.min.*"; "*.bundle.*"; "*.chunk.*" ].

Definition _get_default_excluded_directories : gset string :=
  list_to_set [
    "node_modules"; "__pycache__"; ".pytest_cache"; ".tox"; "venv"; ".venv";
    "env"; ".env"; "virtualenv"; "site-packages"; "vendor"; "third_party";
    "build"; "dist"; "out"; "output"; "target"; "bin"; "obj";
    ".next"; ".nuxt"; "public"; "static"; "assets";
    ".vscode"; ".idea"; ".vs"; ".sublime-text"; ".atom";
    ".git"; ".svn"; ".hg"; ".bzr";
    ".DS_Store"; "Thumbs.db";
    ".cache"; "cache"; ".tmp"; "tmp"; "temp";
    "_build"; "docs/_build"; "site"; "_site";
    "test_data"; "testdata"; "fixtures"; "samples";
    "generated"; "gen"; "auto"; "autogen" ].

(** [FileFilter()] *)
Definition init : t :=
  {| excluded_extensions := _get_default_excluded_extensions;
     excluded_patterns := _get_default_excluded_patterns;
     excluded_directories := _get_default_excluded_directories;
     max_file_size_kb := 500 |}.

Definition part_excluded (self : t) (part : string) : bool :=
  bool_decide (lower part ∈ excluded_directories self) ||
  (startswith "." part && bool_decide (drop 1 part ∈ excluded_directories self)).

Definition _is_in_excluded_directory (self : t) (path : string) : bool :=
  existsb (part_excluded self) (PyPath.parts path).

Definition pattern_matches (filename_lower pattern : string) : bool :=
  if Fnmatch.has_wildcard pattern then
    Fnmatch.fnmatch filename_lower (lower pattern)
  else
    eqb filename_lower (lower pattern) ||
    (endswith "*" pattern &&
     startswith (lower (take (String.length pattern - 1) pattern)) filename_lower).

Definition _matches_excluded_pattern (self : t) (filename : string) : bool :=
  existsb (pattern_matches (lower filename)) (excluded_patterns self).

Definition should_parse_file (self : t) (file_path : string)
    (file_size_bytes : option Z) : bool :=
  if match file_size_bytes with
     | Some sz => (max_file_size_kb self * 1024 <? sz)%Z
     | None => false
     end
  then false
  else if _is_in_excluded_directory self file_path then false
  else if bool_decide (lower (PyPath.suffix file_path) ∈ excluded_extensions self)
  then false
  else if _matches_excluded_pattern self (PyPath.name file_path) then false
  else if _matches_excluded_pattern self (PyPath.to_str file_path) then false
  else true.

Definition set_max_file_size (self : t) (max_size_kb : Z) : t :=
  {| excluded_extensions := excluded_extensions self;
     excluded_patterns := excluded_patterns self;
     excluded_directories := excluded_directories self;
     max_file_size_kb := max_size_kb |}.




(** The table of [get_language_specific_inclusions]. *)
Definition language_extensions : gmap string (gset string) :=
  list_to_map [
    ("python", list_to_set [".py"; ".pyx"; ".pyi"; ".pyw"]);
    ("javascript", list_to_set [".js"; ".jsx"; ".mjs"; ".cjs"]);
    ("typescript", list_to_set [".ts"; ".tsx"; ".d.ts"]);
    ("java", list_to_set [".java"; ".groovy"; ".scala"; ".kt"; ".kts"]);
    ("csharp", list_to_set [".cs"; ".vb"; ".fs"; ".fsx"]);
    ("cpp", list_to_set [".cpp"; ".cxx"; ".cc"; ".c"; ".h"; ".hpp"; ".hxx"]);
    ("c", list_to_set [".c"; ".h"]);
    ("go", list_to_set [".go"]);
    ("rust", list_to_set [".rs"]);
    ("php", list_to_set [".php"; ".phtml"; ".php3"; ".php4"; ".php5"; ".phps"]);
    ("ruby", list_to_set [".rb"; ".rbw"; ".rake"; ".gemspec"]);
    ("swift", list_to_set [".swift"]);
    ("kotlin", list_to_set [".kt"; ".kts"]);
    ("dart", list_to_set [".dart"]);
    ("r", list_to_set [".r"; ".R"; ".rmd"; ".Rmd"]);
    ("matlab", list_to_set [".m"; ".mlx"]);
    ("shell", list_to_set [".sh"; ".bash"; ".zsh"; ".fish"; ".csh"; ".tcsh"]);
    ("powershell", list_to_set [".ps1"; ".psm1"; ".psd1"]);
    ("sql", list_to_set [".sql"; ".ddl"; ".dml"]);
    ("html", list_to_set [".html"; ".htm"; ".xhtml"]);
    ("css", list_to_set [".css"; ".scss"; ".sass"; ".less"]);
    ("xml", list_to_set [".xml"; ".xsd"; ".xsl"; ".xslt"]) ].

Definition get_language_specific_inclusions (self : t) (language : string)
  : gset string :=
  default ∅ (language_extensions !! lower language).

(** [if target_languages:] *)
Definition given (target_languages : option (list string)) : bool :=
  match target_languages with
  | Some (_ :: _) => true
  | _ => false
  end.

Definition allowed_extensions (self : t) (target_languages : option (list string))
  : gset string :=
  if given target_languages then
    fold_left (fun allowed lang => allowed ∪ get_language_specific_inclusions self lang)
              (default [] target_languages) ∅
  else ∅.

(** [filter_files]: the pair [(included, excluded)]. *)
Definition filter_files (self : t) (file_paths : list string)
    (target_languages : option (list string)) : list string * list string :=
  let allowed := allowed_extensions self target_languages in
  fold_left
    (fun (acc : list string * list string) file_path =>
       if should_parse_file self file_path None then
         if given target_languages then
           let ext := lower (PyPath.suffix file_path) in
           if bool_decide (ext ∈ allowed)
           then ((acc.1 ++ [file_path])%list, acc.2)
           else (acc.1, (acc.2 ++ [file_path])%list)
         else ((acc.1 ++ [file_path])%list, acc.2)
       else (acc.1, (acc.2 ++ [file_path])%list))
    file_paths ([], []).

(** [get_filtering_statistics]: the counts only; the two percentages are
    floating-point roundings and are left out. *)
Record filtering_statistics := mkStats {
  total_files_found : nat;
  files_included_for_parsing : nat;
  files_excluded_from_parsing : Z;
  stat_max_file_size_kb : Z;
  excluded_extensions_count : nat;
  excluded_patterns_count : nat;
  excluded_directories_count : nat;
}.

Definition get_filtering_statistics (self : t) (total_files included_files : nat)
  : filtering_statistics :=
  {| total_files_found := total_files;
     files_included_for_parsing := included_files;
     files_excluded_from_parsing := Z.of_nat total_files - Z.of_nat included_files;
     stat_max_file_size_kb := max_file_size_kb self;
     excluded_extensions_count := size (excluded_extensions self);
     excluded_patterns_count := List.length (excluded_patterns self);
     excluded_directories_count := size (excluded_directories self) |}.

End FileFilter.

(* ===================================================================== *)
(** * parser.py *)
(* ===================================================================== *)

Module TreeSitterParser.
Import PyStr Models.

Record t := mk {
  language_configs : list (string * LanguageConfig);
  file_filter : FileFilter.t;
}.

Definition cfg (lang : string) (exts : list string) (grammar : string)
    (types : list NodeType) (cx : bool) : string * LanguageConfig :=
  (lang, mkLanguageConfig lang exts grammar types cx).

(** The registry, in the insertion order of the dictionary. *)
Definition _initialize_language_configs : list (string * LanguageConfig) := [
  cfg "python" [".py"; ".pyi"] "python"
      [FILE; CLASS; FUNCTION; METHOD; VARIABLE; IMPORT] true;
  cfg "javascript" [".js"; ".jsx"; ".mjs"] "javascript"
      [FILE; CLASS; FUNCTION; METHOD; VARIABLE; IMPORT] true;
  cfg "typescript" [".ts"; ".tsx"] "typescript"
      [FILE; CLASS; FUNCTION; METHOD; VARIABLE; IMPORT; INTERFACE] true;
  cfg "java" [".java"] "java"
      [FILE; CLASS; METHOD; VARIABLE; IMPORT; INTERFACE] true;
  cfg "c" [".c"; ".h"] "c" [FILE; FUNCTION; VARIABLE] true;
  cfg "cpp" [".cpp"; ".cxx"; ".cc"; ".hpp"; ".hxx"] "cpp"
      [FILE; CLASS; FUNCTION; METHOD; VARIABLE; NAMESPACE] true;
  cfg "csharp" [".cs"] "c_sharp"
      [FILE; CLASS; METHOD; VARIABLE; IMPORT; INTERFACE; NAMESPACE] true;
  cfg "go" [".go"] "go" [FILE; FUNCTION; METHOD; VARIABLE; IMPORT] true;
  cfg "rust" [".rs"] "rust"
      [FILE; FUNCTION; METHOD; VARIABLE; ENUM; MODULE] true;
  cfg "php" [".php"] "php" [FILE; CLASS; FUNCTION; METHOD; VARIABLE] true;
  cfg "ruby" [".rb"] "ruby" [FILE; CLASS; METHOD; VARIABLE; MODULE] true;
  cfg "swift" [".swift"] "swift"
      [FILE; CLASS; FUNCTION; METHOD; VARIABLE; IMPORT] true;
  cfg "kotlin" [".kt"; ".kts"] "kotlin"
      [FILE; CLASS; FUNCTION; METHOD; VARIABLE; IMPORT] true;
  cfg "scala" [".scala"] "scala"
      [FILE; CLASS; FUNCTION; METHOD; VARIABLE; IMPORT] true;
  cfg "haskell" [".hs"] "haskell"
      [FILE; FUNCTION; VARIABLE; MODULE; IMPORT] true;
  cfg "lua" [".lua"] "lua" [FILE; FUNCTION; VARIABLE] true;
  cfg "perl" [".pl"; ".pm"] "perl" [FILE; FUNCTION; VARIABLE] true;
  cfg "r" [".r"; ".R"] "r" [FILE; FUNCTION; VARIABLE] true;
  cfg "bash" [".sh"; ".bash"] "bash" [FILE; FUNCTION; VARIABLE] false;
  cfg "yaml" [".yml"; ".yaml"] "yaml" [FILE] false;
  cfg "json" [".json"] "json" [FILE] false ].

(** [TreeSitterParser()] *)
Definition init : t :=
  {| language_configs := _initialize_language_configs;
     file_filter := FileFilter.init |}.

(** [dict.get(key)] on a dictionary kept in insertion order. *)
Fixpoint dict_get {A} (k : string) (d : list (string * A)) : option A :=
  match d with
  | [] => None
  | (k', v) :: r => if eqb k k' then Some v else dict_get k r
  end.

Definition detect_language (self : t) (file_path : string) : option string :=
  let file_ext := lower (PyPath.suffix file_path) in
  fst <$> List.find (fun kv => mem file_ext (file_extensions (snd kv)))
                    (language_configs self).

Definition get_language_config (self : t) (language : string)
  : option LanguageConfig := dict_get language (language_configs self).

(** [list(self.language_configs.keys())] *)
Definition get_supported_languages (self : t) : list string :=
  List.map fst (language_configs self).

Definition common_code_extensions : gset string :=
  list_to_set [
    ".py"; ".js"; ".ts"; ".jsx"; ".tsx"; ".java"; ".cpp"; ".c"; ".h"; ".hpp";
    ".cs"; ".php"; ".rb"; ".go"; ".rs"; ".swift"; ".kt"; ".scala"; ".sh"; ".pl" ].

Definition problematic_dirs : list string :=
  ["__pycache__"; ".git"; "node_modules"; ".pytest_cache"; "dist"; "build"].

Definition high_priority_dirs : gset string :=
  list_to_set ["src"; "lib"; "app"; "core"; "main"].

Definition test_dir_names : gset string :=
  list_to_set ["tests"; "testing"; "examples"; "example"; "demo"; "demos"].

Definition is_test_file (filename : string) (path_parts : list string) : bool :=
  contains "test" filename ||
  startswith "test_" filename ||
  endswith "_test.py" filename ||
  contains "conftest" filename ||
  existsb (fun part => contains "test" (lower part)) path_parts ||
  existsb (fun part => bool_decide (lower part ∈ test_dir_names)) path_parts.

(** The branch taken for Python files. *)
Definition should_parse_python (file_path : string)
    (file_size_bytes : option Z) : bool :=
  if truthy file_size_bytes && (500 * 1024 <? or0 file_size_bytes)%Z
  then false
  else
    let path_str := lower (PyPath.to_str file_path) in
    let path_parts := PyPath.parts file_path in
    if existsb (fun prob_dir =>
                  contains ("/" +:+ prob_dir +:+ "/") path_str ||
                  endswith ("/" +:+ prob_dir) path_str) problematic_dirs
    then false
    else
      let filename := lower (PyPath.name file_path) in
      let has_high_priority_dir :=
        existsb (fun part => bool_decide (lower part ∈ high_priority_dirs))
                path_parts in
      let is_root_level := List.length path_parts <=? 2 in
      let is_test := is_test_file filename path_parts in
      if has_high_priority_dir && negb is_test then true
      else if is_root_level && negb is_test && negb (startswith "_" filename)
      then true
      else if negb is_test then true
      else false.

Definition should_parse_file (self : t) (file_path : string)
    (file_size_bytes : option Z) : bool :=
  let file_ext := lower (PyPath.suffix file_path) in
  match detect_language self file_path with
  | None =>
      if bool_decide (file_ext ∈ common_code_extensions)
      then FileFilter.should_parse_file (file_filter self) file_path file_size_bytes
      else false
  | Some language =>
      if eqb language "python"
      then should_parse_python file_path file_size_bytes
      else FileFilter.should_parse_file (file_filter self) file_path file_size_bytes
  end.

Definition get_filtering_statistics (self : t) (total_files included_files : nat)
  : FileFilter.filtering_statistics :=
  FileFilter.get_filtering_statistics (file_filter self) total_files included_files.

(** ** Complexity *)

Definition complexity_keywords : list (string * list string) := [
  ("python", ["if"; "elif"; "else"; "for"; "while"; "try"; "except"; "with"]);
  ("javascript", ["if"; "else"; "for"; "while"; "switch"; "case"; "try"; "catch"]);
  ("typescript", ["if"; "else"; "for"; "while"; "switch"; "case"; "try"; "catch"]);
  ("java", ["if"; "else"; "for"; "while"; "switch"; "case"; "try"; "catch"]);
  ("csharp", ["if"; "else"; "for"; "while"; "switch"; "case"; "try"; "catch"]);
  ("go", ["if"; "else"; "for"; "switch"; "case"; "select"]);
  ("rust", ["if"; "else"; "for"; "while"; "loop"; "match"]) ].

(** The configuration used when the language is not in the registry: the
    model's default for [complexity_enabled] is [True]. *)
Definition default_config : LanguageConfig := mkLanguageConfig "" [] "" [] true.

Definition language_complexity_enabled (self : t) (language : string) : bool :=
  complexity_enabled (default default_config (get_language_config self language)).

Definition keywords_of (language : string) : list string :=
  default [] (dict_get language complexity_keywords).

Definition calculate_complexity_score (self : t) (content language : string) : Z :=
  if negb (language_complexity_enabled self language) then 1%Z
  else
    let keywords := keywords_of language in
    match keywords with
    | [] => 1%Z
    | _ =>
        let words := split_ws (lower content) in
        let complexity :=
          fold_left (fun acc keyword => (acc + Z.of_nat (count_occ keyword words))%Z)
                    keywords 1%Z in
        Z.min (Z.max (complexity / 5 + 1) 1) 10
    end.



(** ** The three per-language parsers *)

Import Py.
Local Open Scope py_scope.

Definition parsed : Type := list KGNode * list KGRelationship.

Definition triple_dquote : string := dquote +:+ dquote +:+ dquote.
Definition triple_squote : string := squote +:+ squote +:+ squote.

Definition indent_of (line : string) : nat :=
  String.length line - String.length (lstrip line).

(** The lines of a docstring that does not close on its first line. *)
Fixpoint multiline_doc (quote_type : string) (tl : list string) : list string :=
  match tl with
  | [] => []
  | l :: r =>
      let doc_line := strip l in
      if contains quote_type doc_line
      then [replace quote_type "" doc_line]
      else doc_line :: multiline_doc quote_type r
  end.

(** The docstring search over the lines after a header; [fuel] bounds the
    look-ahead ([j < i + 10]). *)
Fixpoint find_docstring (fuel : nat) (tl : list string) : option string :=
  match fuel, tl with
  | S f, l :: r =>
      let next_line := strip l in
      if startswith triple_dquote next_line || startswith triple_squote next_line
      then
        let quote_type :=
          if startswith triple_dquote next_line then triple_dquote
          else triple_squote in
        if 2 <=? count quote_type next_line
        then Some (strip (replace quote_type "" next_line))
        else Some (strip (join nl (replace quote_type "" next_line
                                     :: multiline_doc quote_type r)))
      else if nonempty next_line && negb (startswith "#" next_line) then None
      else find_docstring f r
  | _, _ => None
  end.

(** The body of a class or function by indentation: [n] is
    [len(source_lines)] so far, [limit] the ceiling. *)
Fixpoint body_lines (indent_level limit n : nat) (tl : list string) : list string :=
  match tl with
  | [] => []
  | current_line :: r =>
      if nonempty (strip current_line) && (indent_of current_line <=? indent_level)
      then []
      else if limit <? S n then [current_line; "    # ... (truncated)"]
      else current_line :: body_lines indent_level limit (S n) r
  end.

(** The body of a function by brace balance. *)
Fixpoint brace_body (brace_count : Z) (n : nat) (tl : list string) : list string :=
  match tl with
  | [] => []
  | current_line :: r =>
      if (0 <? brace_count)%Z then
        let bc := (brace_count + Z.of_nat (count "{" current_line)
                   - Z.of_nat (count "}" current_line))%Z in
        if 100 <? S n then [current_line; "    // ... (truncated)"]
        else current_line :: brace_body bc (S n) r
      else []
  end.

Definition brace_delta (line : string) : Z :=
  (Z.of_nat (count "{" line) - Z.of_nat (count "}" line))%Z.

Definition file_excerpt (limit : nat) (content : string) : string :=
  if limit <? String.length content then take limit content else content.

Definition fqn_of (file_path name : string) : string :=
  file_path +:+ "::" +:+ name.

(** The edge from the File Node that the parsers emit with each node. *)
Definition file_edge (rid : UUID) (file_node node : KGNode)
    (ty : RelationshipType) : KGRelationship :=
  new_relationship rid (nid file_node) (nid node) ty 1 [].

Section oo.
Context (self : t) (file_path language : string) (repository_id : UUID)
        (cancellation_check : option (M unit)) (file_node : KGNode).

(** One iteration of the [while i < len(lines)] loop: [tl] holds the
    lines after line [i]. *)
Definition oo_step (i : nat) (original_line : string) (tl : list string)
    (acc : parsed) : M parsed :=
  let line := strip original_line in
  (if i mod 100 =? 0 then call_opt cancellation_check else ret tt) ;;
  if startswith "class " line && contains ":" line then
    w1 <- index (split_ws line) 1 ;;
    w2 <- index (split "(" w1) 0 ;;
    class_name <- index (split ":" w2) 0 ;;
    let docstring := find_docstring 9 tl in
    let source_lines := original_line :: body_lines (indent_of original_line) 100 1 tl in
    let source_code := join nl source_lines in
    let complexity_score := calculate_complexity_score self source_code language in
    id <- uuid4 ;;
    let class_node :=
      new_node id repository_id CLASS class_name (fqn_of file_path class_name)
               file_path (Some (Z.of_nat (i + 1))) language
               [("visibility", JStr "public")]
               (Some source_code) docstring (Some complexity_score) true in
    rid <- uuid4 ;;
    ret ((acc.1 ++ [class_node])%list, (acc.2 ++ [file_edge rid file_node class_node CONTAINS])%list)
  else if startswith "def " line || startswith "function " line then
    func_name <-
      (if eqb language "python" then
         w1 <- index (split_ws line) 1 ;; index (split "(" w1) 0
       else if 1 <? List.length (split_ws line) then
         w1 <- index (split_ws line) 1 ;; index (split "(" w1) 0
       else ret "anonymous") ;;
    let docstring := find_docstring 9 tl in
    let source_lines := original_line :: body_lines (indent_of original_line) 50 1 tl in
    let source_code := join nl source_lines in
    let complexity_score := calculate_complexity_score self source_code language in
    id <- uuid4 ;;
    let func_node :=
      new_node id repository_id FUNCTION func_name (fqn_of file_path func_name)
               file_path (Some (Z.of_nat (i + 1))) language
               [("parameters",
                 JInt (if contains "(" line
                       then Z.of_nat (count "," line + 1) else 0));
                ("is_method",
                 JBool (contains "    def " original_line ||
                        contains (tab +:+ "def ") original_line))]
               (Some source_code) docstring (Some complexity_score)
               (negb (startswith "_" func_name)) in
    rid <- uuid4 ;;
    ret ((acc.1 ++ [func_node])%list, (acc.2 ++ [file_edge rid file_node func_node CONTAINS])%list)
  else if startswith "import " line || startswith "from " line then
    import_name <-
      (if 1 <? List.length (split_ws line) then index (split_ws line) 1
       else ret "unknown") ;;
    id <- uuid4 ;;
    let import_node :=
      new_node id repository_id IMPORT import_name (fqn_of file_path import_name)
               file_path (Some (Z.of_nat (i + 1))) language
               [("import_type", JStr "module")]
               (Some original_line) None None true in
    rid <- uuid4 ;;
    ret ((acc.1 ++ [import_node])%list, (acc.2 ++ [file_edge rid file_node import_node IMPORTS])%list)
  else ret acc.

Fixpoint oo_loop (i : nat) (rest : list string) (acc : parsed) : M parsed :=
  match rest with
  | [] => ret acc
  | original_line :: tl =>
      acc' <- oo_step i original_line tl acc ;;
      oo_loop (S i) tl acc'
  end.
End oo.

Definition _parse_object_oriented_file (self : t) (content file_path language : string)
    (repository_id : UUID) (cancellation_check : option (M unit)) : M parsed :=
  call_opt cancellation_check ;;
  id <- uuid4 ;;
  let file_node :=
    new_node id repository_id FILE (PyPath.name file_path) file_path file_path
             None language [("lines", JInt (Z.of_nat (count_lines content)))]
             (Some (file_excerpt 2000 content)) None None true in
  oo_loop self file_path language repository_id cancellation_check file_node
          0 (split nl content) ([file_node], []).

(** ** Procedural languages *)

Definition c_prefixes : list string :=
  ["int "; "void "; "char "; "float "; "double "; "static "].

(** [s[0]]: an [IndexError] on the empty string. *)
Definition str_index0 (s : string) : M ascii :=
  match first_char s with
  | Some c => ret c
  | None => raise (Exception "IndexError" "string index out of range")
  end.

Section procedural.
Context (self : t) (file_path language : string) (repository_id : UUID)
        (cancellation_check : option (M unit)) (file_node : KGNode).

(** The node and edge of a function found at line [i]; [props] and
    [is_pub] are computed after the identifier has been drawn, as the
    keyword arguments of the constructor are. *)
Definition emit_function (i : nat) (line original_line : string)
    (tl : list string) (func_name : string)
    (props : M (jdict * bool)) (acc : parsed) : M parsed :=
  let source_lines := original_line :: brace_body (brace_delta line) 1 tl in
  let source_code := join nl source_lines in
  let complexity_score := calculate_complexity_score self source_code language in
  id <- uuid4 ;;
  pp <- props ;;
  let func_node :=
    new_node id repository_id FUNCTION func_name (fqn_of file_path func_name)
             file_path (Some (Z.of_nat (i + 1))) language pp.1
             (Some source_code) None (Some complexity_score) pp.2 in
  rid <- uuid4 ;;
  ret ((acc.1 ++ [func_node])%list,
       (acc.2 ++ [file_edge rid file_node func_node CONTAINS])%list).

Definition visibility (pub : bool) : jval :=
  JStr (if pub then "public" else "private").

Definition proc_step (i : nat) (original_line : string) (tl : list string)
    (acc : parsed) : M parsed :=
  let line := strip original_line in
  (if i mod 100 =? 0 then call_opt cancellation_check else ret tt) ;;
  if eqb language "c" && existsb (fun p => startswith p line) c_prefixes then
    let parts := split_ws line in
    p0 <- index parts 0 ;;
    found <-
      (if eqb p0 "static" && (2 <? List.length parts) then
         p1 <- index parts 1 ;;
         p2 <- index parts 2 ;;
         if contains "(" p2
         then f <- index (split "(" p2) 0 ;; ret (Some f, Some p1)
         else ret (None, Some p1)
       else if (1 <? List.length parts) && contains "(" (nth 1 parts "") then
         p1 <- index parts 1 ;;
         f <- index (split "(" p1) 0 ;; ret (Some f, Some p0)
       else ret (None, None)) ;;
    match found.1 with
    | Some func_name =>
        if nonempty func_name then
          emit_function i line original_line tl func_name
            (ret ([("return_type", from_option JStr JNone found.2);
                   ("is_static", JBool (contains "static" line))],
                  negb (startswith "static" line))) acc
        else ret acc
    | None => ret acc
    end
  else if eqb language "go" && startswith "func " line then
    let parts := split_ws line in
    if 1 <? List.length parts then
      p1 <- index parts 1 ;;
      func_name <- index (split "(" p1) 0 ;;
      emit_function i line original_line tl func_name
        (c <- str_index0 func_name ;;
         ret ([("visibility", visibility (is_upper c))], is_upper c)) acc
    else ret acc
  else if eqb language "rust" then
    if startswith "fn " line || startswith "pub fn " line then
      let parts := split_ws line in
      let is_pub := startswith "pub fn " line in
      found <-
        (if is_pub && (2 <? List.length parts) then
           p2 <- index parts 2 ;; f <- index (split "(" p2) 0 ;; ret (Some f)
         else if negb is_pub && (1 <? List.length parts) then
           p1 <- index parts 1 ;; f <- index (split "(" p1) 0 ;; ret (Some f)
         else ret None) ;;
      match found with
      | Some func_name =>
          if nonempty func_name then
            emit_function i line original_line tl func_name
              (ret ([("visibility", visibility is_pub)], is_pub)) acc
          else ret acc
      | None => ret acc
      end
    else ret acc
  else if (eqb language "c" && startswith "#include" line) ||
          (eqb language "go" && startswith "import" line) ||
          (eqb language "rust" && startswith "use " line) then
    raw <- (if 1 <? List.length (split_ws line) then index (split_ws line) 1
            else ret "unknown") ;;
    let import_name :=
      if eqb language "c"
      then replace dquote "" (replace ">" "" (replace "<" "" raw))
      else if eqb language "rust" then replace ";" "" raw
      else raw in
    id <- uuid4 ;;
    let import_node :=
      new_node id repository_id IMPORT import_name (fqn_of file_path import_name)
               file_path (Some (Z.of_nat (i + 1))) language
               [("import_type",
                 JStr (if eqb language "c" && contains "<" original_line
                       then "system" else "local"))]
               (Some original_line) None None true in
    rid <- uuid4 ;;
    ret ((acc.1 ++ [import_node])%list,
         (acc.2 ++ [file_edge rid file_node import_node IMPORTS])%list)
  else ret acc.

Fixpoint proc_loop (i : nat) (rest : list string) (acc : parsed) : M parsed :=
  match rest with
  | [] => ret acc
  | original_line :: tl =>
      acc' <- proc_step i original_line tl acc ;;
      proc_loop (S i) tl acc'
  end.
End procedural.

Definition _parse_procedural_file (self : t) (content file_path language : string)
    (repository_id : UUID) (cancellation_check : option (M unit)) : M parsed :=
  call_opt cancellation_check ;;
  id <- uuid4 ;;
  let file_node :=
    new_node id repository_id FILE (PyPath.name file_path) file_path file_path
             None language [("lines", JInt (Z.of_nat (count_lines content)))]
             (Some (file_excerpt 2000 content)) None None true in
  proc_loop self file_path language repository_id cancellation_check file_node
            0 (split nl content) ([file_node], []).

(** ** Configuration files and other languages *)

Definition config_suffixes : list string :=
  [".json"; ".yaml"; ".yml"; ".toml"; ".ini"; ".cfg"].

Section basic.
Context (file_path language : string) (repository_id : UUID)
        (cancellation_check : option (M unit)) (file_node : KGNode).

Definition emit_variable (i : nat) (name original_line : string)
    (props : jdict) (acc : parsed) : M parsed :=
  id <- uuid4 ;;
  let config_node :=
    new_node id repository_id VARIABLE name (fqn_of file_path name)
             file_path (Some (Z.of_nat (i + 1))) language props
             (Some (strip original_line)) None None true in
  rid <- uuid4 ;;
  ret ((acc.1 ++ [config_node])%list,
       (acc.2 ++ [file_edge rid file_node config_node CONTAINS])%list).

Definition basic_step (i : nat) (original_line : string) (acc : parsed)
  : M parsed :=
  let line := strip original_line in
  (if i mod 50 =? 0 then call_opt cancellation_check else ret tt) ;;
  if mem language ["json"; "yaml"; "yml"; "toml"] then
    if contains ":" line && negb (startswith "#" line)
       && negb (startswith "//" line) then
      k0 <- index (split ":" line) 0 ;;
      let key := replace squote "" (replace dquote "" (strip k0)) in
      if nonempty key && negb (startswith " " line)
         && negb (startswith tab line)
      then emit_variable i key original_line
             [("config_type", JStr "key"); ("section", JStr "root")] acc
      else ret acc
    else ret acc
  else if eqb language "ini" then
    if startswith "[" line && endswith "]" line then
      let section_name := take (String.length line - 2) (drop 1 line) in
      emit_variable i section_name original_line
        [("config_type", JStr "section")] acc
    else ret acc
  else ret acc.

Fixpoint basic_loop (i : nat) (rest : list string) (acc : parsed) : M parsed :=
  match rest with
  | [] => ret acc
  | original_line :: tl =>
      acc' <- basic_step i original_line acc ;;
      basic_loop (S i) tl acc'
  end.
End basic.

Definition _parse_basic_file (content file_path language : string)
    (repository_id : UUID) (cancellation_check : option (M unit)) : M parsed :=
  call_opt cancellation_check ;;
  id <- uuid4 ;;
  let file_node :=
    {| node_id := Some id; kg_repository_id := repository_id;
       node_type := FILE; node_name := PyPath.name file_path;
       fully_qualified_name := Some file_path; file_path := file_path;
       line_start := None; line_end := None; column_start := None;
       column_end := None; language := language;
       properties :=
         [("lines", JInt (Z.of_nat (count_lines content)));
          ("size_bytes", JInt (Z.of_nat (String.length content)));
          ("file_type",
           JStr (if existsb (fun sfx => endswith sfx file_path) config_suffixes
                 then "configuration" else "other"))];
       source_code := Some (file_excerpt 1000 content);
       docstring := None; complexity_score := Some 1%Z;
       is_public := true; is_exported := false |} in
  basic_loop file_path language repository_id cancellation_check file_node
             0 (split nl content) ([file_node], []).

(** ** [parse_file] *)

(** The language-specific step inside the [try] block. *)
Definition parse_by_language (self : t) (language file_content file_path : string)
    (repository_id : UUID) (cancellation_check : option (M unit)) : M parsed :=
  if mem language ["python"; "javascript"; "typescript"; "java"; "csharp"] then
    _parse_object_oriented_file self file_content file_path language
                                repository_id cancellation_check
  else if mem language ["c"; "go"; "rust"] then
    _parse_procedural_file self file_content file_path language
                           repository_id cancellation_check
  else
    _parse_basic_file file_content file_path language repository_id
                      cancellation_check.

Definition failed_result (file_path language error : string) : FileParseResult :=
  {| fpr_file_path := file_path; fpr_language := language;
     fpr_success := false; nodes_extracted := 0;
     relationships_extracted := 0; parse_time_ms := 0;
     fpr_error := Some error |}.

Definition parse_output : Type :=
  list KGNode * list KGRelationship * FileParseResult.

Definition notify (progress_callback : option (string -> Z -> M unit))
    (message : string) (percent : Z) : M unit :=
  match progress_callback with
  | Some cb => cb message percent
  | None => ret tt
  end.

(** The [try] block of [parse_file] once the language is known. *)
Definition parse_body (self : t) (language file_path file_content : string)
    (repository_id : UUID)
    (progress_callback : option (string -> Z -> M unit))
    (cancellation_check : option (M unit)) : M parse_output :=
  notify progress_callback ("Parsing " +:+ PyPath.name file_path +:+ "...") 10%Z ;;
  pr <- parse_by_language self language file_content file_path
                          repository_id cancellation_check ;;
  notify progress_callback ("Completed parsing " +:+ PyPath.name file_path) 100%Z ;;
  ret (pr.1, pr.2,
       {| fpr_file_path := file_path; fpr_language := language;
          fpr_success := true; nodes_extracted := List.length pr.1;
          relationships_extracted := List.length pr.2;
          parse_time_ms := 0; fpr_error := None |}).

(** [parse_file].  The clock is not modelled: [parse_time_ms] is 0.  The
    handler reads the local [language]; an exception of the first probe
    reaches it before [language] is bound, and the handler itself then
    raises. *)
Definition parse_file (self : t) (file_path file_content : string)
    (repository_id : UUID)
    (progress_callback : option (string -> Z -> M unit))
    (cancellation_check : option (M unit)) : M parse_output :=
  try_except (call_opt cancellation_check)
    (fun _ _ =>
       raise (Exception "UnboundLocalError"
         "cannot access local variable 'language' where it is not associated with a value")) ;;
  match detect_language self file_path with
  | None =>
      ret ([], [], failed_result file_path "unknown" "Unsupported file type")
  | Some language =>
      try_except
        (parse_body self language file_path file_content repository_id
                    progress_callback cancellation_check)
        (fun _ msg => ret ([], [], failed_result file_path language msg))
  end.

(** ** [parse_repository] *)

(** A regular file found under the repository root: its path, its size
    ([None] when [stat] fails) and what reading it gives (the text, or the
    message of the exception). *)
Record repo_file := mkRepoFile {
  rf_path : string;
  rf_size : option Z;
  rf_read : string + string;
}.

Record repo_statistics := mkRepoStatistics {
  total_files_found : nat;
  files_filtered_out : nat;
  files_to_parse : nat;
  parsed_files : nat;
  skipped_files : nat;
  error_files : nat;
  languages_detected : list string;
  total_nodes : nat;
  total_relationships : nat;
  parse_errors : list (string * string);
  filtering_statistics : option FileFilter.filtering_statistics;
}.

Definition statistics0 : repo_statistics :=
  mkRepoStatistics 0 0 0 0 0 0 [] 0 0 [] None.

(** Phase 2: the files that pass [should_parse_file] and, when
    [file_filters] is a non-empty list, hold one of its patterns. *)
Definition selected (self : t) (file_filters : option (list string))
    (f : repo_file) : bool :=
  should_parse_file self (rf_path f) (rf_size f) &&
  match file_filters with
  | Some (p :: ps) => existsb (fun pattern => contains pattern (rf_path f)) (p :: ps)
  | _ => true
  end.

(** Reading an attribute of the tuple that [parse_file] returns. *)
Definition tuple_getattr {A} (attr : string) : M A :=
  raise (Exception "AttributeError"
           ("'tuple' object has no attribute '" +:+ attr +:+ "'")).

Definition add_error (st : repo_statistics) (file error : string) : list (string * string) :=
  (parse_errors st ++ [(file, error)])%list.

(** The body of the inner [try] of phase 3. *)
Definition parse_one (self : t) (repository_id : UUID)
    (cancellation_check : option (M unit)) (f : repo_file)
    (st : repo_statistics) : M repo_statistics :=
  content <- match rf_read f with
             | inl c => ret c
             | inr msg => raise (Exception "OSError" msg)
             end ;;
  result <- parse_file self (rf_path f) content repository_id None
                       cancellation_check ;;
  success <- tuple_getattr "success" ;;
  if success : bool then
    language <- tuple_getattr "language" ;;
    n <- tuple_getattr "nodes_extracted" ;;
    r <- tuple_getattr "relationships_extracted" ;;
    ret (mkRepoStatistics (total_files_found st) (files_filtered_out st)
           (files_to_parse st) (parsed_files st + 1) (skipped_files st)
           (error_files st)
           (if mem language (languages_detected st) then languages_detected st
            else (languages_detected st ++ [language])%list)
           (total_nodes st + n) (total_relationships st + r)
           (parse_errors st) (filtering_statistics st))
  else
    error <- tuple_getattr "error" ;;
    ret (mkRepoStatistics (total_files_found st) (files_filtered_out st)
           (files_to_parse st) (parsed_files st) (skipped_files st)
           (error_files st + 1) (languages_detected st)
           (total_nodes st) (total_relationships st)
           (match error with
            | Some e => add_error st (rf_path f) e
            | None => parse_errors st
            end)
           (filtering_statistics st)).

Definition skip_file (st : repo_statistics) (f : repo_file) (msg : string)
  : repo_statistics :=
  mkRepoStatistics (total_files_found st) (files_filtered_out st)
    (files_to_parse st) (parsed_files st) (S (skipped_files st))
    (error_files st) (languages_detected st) (total_nodes st)
    (total_relationships st) (add_error st (rf_path f) msg)
    (filtering_statistics st).

Definition repository_failed (st : repo_statistics) (msg : string)
  : repo_statistics :=
  mkRepoStatistics (total_files_found st) (files_filtered_out st)
    (files_to_parse st) (parsed_files st) (skipped_files st)
    (error_files st) (languages_detected st) (total_nodes st)
    (total_relationships st)
    (parse_errors st ++ [("repository_root", "Repository parsing failed: " +:+ msg)])%list
    (filtering_statistics st).

Definition repository_output : Type :=
  list KGNode * list KGRelationship * repo_statistics.

(** Phase 3.  The probe at the head of an iteration stands outside the
    inner [try]: an [Exception] it raises reaches the handler of the whole
    function, which returns at once. *)
Fixpoint parse_files (self : t) (repository_id : UUID)
    (cancellation_check : option (M unit)) (files : list repo_file)
    (st : repo_statistics) : M repository_output :=
  match files with
  | [] => ret ([], [], st)
  | f :: rest =>
      fun w =>
        match call_opt cancellation_check w with
        | (Raise (Exception _ msg), w') => (Ok ([], [], repository_failed st msg), w')
        | (Raise e, w') => (Raise e, w')
        | (Ok _, w') =>
            (st' <- try_except (parse_one self repository_id cancellation_check f st)
                               (fun _ msg => ret (skip_file st f msg)) ;;
             parse_files self repository_id cancellation_check rest st') w'
        end
  end.

(** [parse_repository], called without a progress callback (its default):
    [all_files] is what walking [repository_path] finds. *)
Definition parse_repository (self : t) (all_files : list repo_file)
    (repository_id : UUID) (file_filters : option (list string))
    (cancellation_check : option (M unit)) : M repository_output :=
  let to_parse := List.filter (selected self file_filters) all_files in
  let st :=
    mkRepoStatistics (List.length all_files)
      (List.length all_files - List.length to_parse) (List.length to_parse)
      0 0 0 [] 0 0 []
      (Some (get_filtering_statistics self (List.length all_files)
                                      (List.length to_parse))) in
  parse_files self repository_id cancellation_check to_parse st.

End TreeSitterParser.

(* ===================================================================== *)
(** * Regular expressions: the fragment of [re] used by the graph builder *)
(* ===================================================================== *)

Module Regex.
Import PyStr.

Inductive cls :=
| CWord                     (* \w *)
| CSpace                    (* \s *)
| CAny                      (* .  : any character but a newline *)
| CLit (c : ascii)
| CIn (l : list ascii)      (* [...] *)
| CNotIn (l : list ascii).  (* [^...] *)

Inductive regex :=
| Eps
| Chr (c : cls)
| Seq (a b : regex)
| Star (r : regex)          (* greedy *)
| Plus (r : regex)          (* greedy *)
| Group (n : nat) (r : regex)   (* the n-th capturing group *)
| NGroup (r : regex).           (* (?:...) *)

Definition is_word (c : ascii) : bool :=
  let n := nat_of_ascii c in
  ((48 <=? n) && (n <=? 57)) || ((65 <=? n) && (n <=? 90)) ||
  ((97 <=? n) && (n <=? 122)) || (n =? 95).

Definition cls_matches (c : cls) (a : ascii) : bool :=
  match c with
  | CWord => is_word a
  | CSpace => is_space a
  | CAny => negb (Ascii.eqb a "010"%char)
  | CLit b => Ascii.eqb a b
  | CIn l => existsb (Ascii.eqb a) l
  | CNotIn l => negb (existsb (Ascii.eqb a) l)
  end.

(** The groups set so far, latest first, with the text each one holds. *)
Definition caps : Type := list (nat * string).

Definition cont : Type := nat -> string -> caps -> option (nat * caps).

(** A backtracking matcher in continuation-passing style: [pos] is the
    offset of [rest] in [text].  A starred expression tries one more
    iteration before it gives back; an iteration that consumes nothing is
    not repeated. *)
Fixpoint rmatch (text : string) (r : regex) (k : cont) (pos : nat)
    (rest : string) (cs : caps) {struct r} : option (nat * caps) :=
  let star (r' : regex) :=
    fix loop (fuel pos : nat) (rest : string) (cs : caps) {struct fuel}
      : option (nat * caps) :=
      match fuel with
      | O => k pos rest cs
      | S f =>
          match rmatch text r'
                  (fun pos' rest' cs' =>
                     if pos <? pos' then loop f pos' rest' cs' else None)
                  pos rest cs with
          | Some x => Some x
          | None => k pos rest cs
          end
      end in
  match r with
  | Eps => k pos rest cs
  | Chr c =>
      match rest with
      | String a rest' => if cls_matches c a then k (S pos) rest' cs else None
      | EmptyString => None
      end
  | Seq a b => rmatch text a (rmatch text b k) pos rest cs
  | Star r' => star r' (S (String.length rest)) pos rest cs
  | Plus r' =>
      rmatch text r'
        (fun pos' rest' cs' => star r' (S (String.length rest')) pos' rest' cs')
        pos rest cs
  | Group n r' =>
      rmatch text r'
        (fun pos' rest' cs' =>
           k pos' rest' ((n, String.substring pos (pos' - pos) text) :: cs'))
        pos rest cs
  | NGroup r' => rmatch text r' k pos rest cs
  end.

Record rmatch_obj := mkMatch {
  m_start : nat;
  m_end : nat;
  m_caps : caps;
}.

(** [match.group(n)] for a group that took part in the match. *)
Definition group (m : rmatch_obj) (n : nat) : option string :=
  snd <$> List.find (fun c => fst c =? n) (m_caps m).

Definition match_at (text : string) (r : regex) (pos : nat) (rest : string)
  : option rmatch_obj :=
  match rmatch text r (fun e _ cs => Some (e, cs)) pos rest [] with
  | Some (e, cs) => Some (mkMatch pos e cs)
  | None => None
  end.

(** [re.finditer]: matches from left to right that do not overlap; [skip]
    counts the characters still covered by the last match. *)
Fixpoint finditer_aux (text : string) (r : regex) (skip pos : nat)
    (rest : string) : list rmatch_obj :=
  match rest with
  | EmptyString =>
      match skip, match_at text r pos rest with
      | O, Some m => [m]
      | _, _ => []
      end
  | String _ rest' =>
      match skip with
      | S k => finditer_aux text r k (S pos) rest'
      | O =>
          match match_at text r pos rest with
          | Some m => m :: finditer_aux text r (m_end m - pos - 1) (S pos) rest'
          | None => finditer_aux text r 0 (S pos) rest'
          end
      end
  end.

Definition finditer (r : regex) (text : string) : list rmatch_obj :=
  finditer_aux text r 0 0 text.

(** The literal [s], character by character. *)
Fixpoint lit (s : string) : regex :=
  match s with
  | EmptyString => Eps
  | String c EmptyString => Chr (CLit c)
  | String c r => Seq (Chr (CLit c)) (lit r)
  end.

Fixpoint seq (l : list regex) : regex :=
  match l with
  | [] => Eps
  | [r] => r
  | r :: l' => Seq r (seq l')
  end.

(** The pattern text of an expression, as [re] reads it. *)
Definition special (c : ascii) : bool :=
  existsb (Ascii.eqb c) (list_ascii_of_string ".()[]*+?\|^$").

Definition show_char (c : ascii) : string :=
  if special c then String "\" (String c "") else String c "".

Definition show_in_class (c : ascii) : string :=
  if Ascii.eqb c "034"%char then String "\" (String c "") else String c "".

Definition show_cls (c : cls) : string :=
  match c with
  | CWord => "\w"
  | CSpace => "\s"
  | CAny => "."
  | CLit a => show_char a
  | CIn l => "[" +:+ String.concat "" (List.map show_in_class l) +:+ "]"
  | CNotIn l => "[^" +:+ String.concat "" (List.map show_in_class l) +:+ "]"
  end.

Fixpoint show (r : regex) : string :=
  match r with
  | Eps => ""
  | Chr c => show_cls c
  | Seq a b => show a +:+ show b
  | Star r' => show r' +:+ "*"
  | Plus r' => show r' +:+ "+"
  | Group _ r' => "(" +:+ show r' +:+ ")"
  | NGroup r' => "(?:" +:+ show r' +:+ ")"
  end.

Definition w_plus : regex := Plus (Chr CWord).
Definition s_star : regex := Star (Chr CSpace).
Definition s_plus : regex := Plus (Chr CSpace).

End Regex.

(* ===================================================================== *)
(** * graph_builder.py *)
(* ===================================================================== *)

Module GraphBuilder.
Import PyStr Models Py Regex.
Local Open Scope py_scope.

(** ** Relationship patterns *)

Record pattern_groups := mkPatterns {
  calls : option (list regex);
  inherits : option (list regex);
  implements : option (list regex);
  imports : option (list regex);
  uses : option (list regex);
}.

Definition g1 (r : regex) : regex := Group 1 r.
Definition quote_cls : regex := Chr (CIn ["039"%char; "034"%char]).
Definition not_quote_plus : regex := Plus (Chr (CNotIn ["039"%char; "034"%char])).
Definition quote_cls' : regex := Chr (CIn ["034"%char; "039"%char]).
Definition not_quote_plus' : regex := Plus (Chr (CNotIn ["034"%char; "039"%char])).
Definition not_semi_plus : regex := Plus (Chr (CNotIn [";"%char])).
Definition dotted : regex := Seq w_plus (Star (NGroup (Seq (lit ".") w_plus))).

Definition call_name : regex := seq [g1 w_plus; s_star; lit "("].
Definition call_method : regex := seq [lit "."; g1 w_plus; s_star; lit "("].
Definition call_qualified (sep : string) : regex :=
  seq [g1 w_plus; lit sep; Group 2 w_plus; s_star; lit "("].
Definition common_calls : list regex :=
  [call_name; call_method; call_qualified "."].

Definition class_extends : regex :=
  seq [lit "class"; s_plus; w_plus; s_plus; lit "extends"; s_plus; g1 w_plus].
Definition class_implements : regex :=
  seq [lit "class"; s_plus; w_plus; s_plus; lit "implements"; s_plus; g1 w_plus].
Definition assign_use : regex := seq [g1 w_plus; s_star; lit "="].
Definition index_use : regex := seq [g1 w_plus; s_star; lit "["].
Definition attr_use : regex := seq [g1 w_plus; s_star; lit "."].
Definition typed_assign_use : regex :=
  seq [g1 w_plus; s_plus; w_plus; s_star; lit "="].
Definition import_from : regex :=
  seq [lit "import"; s_plus; Star (Chr CAny); lit "from"; s_plus;
       quote_cls; g1 not_quote_plus; quote_cls].

Definition python_patterns : pattern_groups :=
  {| calls := Some common_calls;
     inherits := Some [
       seq [lit "class"; s_plus; w_plus; s_star; lit "("; s_star; g1 w_plus];
       seq [lit "class"; s_plus; w_plus; s_star; lit "("; s_star; g1 dotted] ];
     implements := None;
     imports := Some [
       seq [lit "from"; s_plus; g1 dotted; s_plus; lit "import"];
       seq [lit "import"; s_plus; g1 dotted] ];
     uses := Some [assign_use; index_use; attr_use] |}.

Definition javascript_patterns : pattern_groups :=
  {| calls := Some common_calls;
     inherits := Some [class_extends];
     implements := None;
     imports := Some [
       import_from;
       seq [lit "require"; s_star; lit "("; s_star;
            quote_cls; g1 not_quote_plus; quote_cls] ];
     uses := Some [assign_use; index_use; attr_use] |}.

Definition typescript_patterns : pattern_groups :=
  {| calls := Some common_calls;
     inherits := Some [
       class_extends;
       seq [lit "interface"; s_plus; w_plus; s_plus; lit "extends"; s_plus;
            g1 w_plus] ];
     implements := Some [class_implements];
     imports := Some [
       import_from;
       seq [lit "import"; s_plus; quote_cls; g1 not_quote_plus; quote_cls] ];
     uses := Some [seq [g1 w_plus; s_star; lit ":"];
                   assign_use; index_use; attr_use] |}.

Definition java_patterns : pattern_groups :=
  {| calls := Some common_calls;
     inherits := Some [class_extends];
     implements := Some [class_implements];
     imports := Some [seq [lit "import"; s_plus; g1 not_semi_plus; lit ";"]];
     uses := Some [typed_assign_use; index_use; attr_use] |}.

Definition go_patterns : pattern_groups :=
  {| calls := Some common_calls;
     inherits := None;
     implements := None;
     imports := Some [
       seq [lit "import"; s_plus; quote_cls'; g1 not_quote_plus'; quote_cls'];
       seq [lit "import"; s_plus; w_plus; s_plus;
            quote_cls'; g1 not_quote_plus'; quote_cls'] ];
     uses := Some [
       seq [g1 w_plus; s_star; lit ":="];
       seq [lit "var"; s_plus; w_plus; s_plus; g1 w_plus];
       index_use; attr_use ] |}.

Definition rust_patterns : pattern_groups :=
  {| calls := Some [call_name; call_method; call_qualified "::"];
     inherits := None;
     implements := None;
     imports := None;
     uses := Some [
       seq [lit "use"; s_plus; g1 not_semi_plus; lit ";"];
       seq [g1 w_plus; s_star; lit "::"];
       seq [lit "let"; s_plus; w_plus; lit ":"; s_star; g1 w_plus];
       index_use; attr_use ] |}.

Definition csharp_patterns : pattern_groups :=
  {| calls := Some common_calls;
     inherits := Some [
       seq [lit "class"; s_plus; w_plus; s_star; lit ":"; s_star; g1 w_plus] ];
     implements := Some [
       seq [lit "class"; s_plus; w_plus; s_star; lit ":"; s_star; w_plus;
            lit ","; s_star; g1 w_plus] ];
     imports := Some [seq [lit "using"; s_plus; g1 not_semi_plus; lit ";"]];
     uses := Some [typed_assign_use; index_use; attr_use] |}.

Definition no_patterns : pattern_groups := mkPatterns None None None None None.

Definition _initialize_relationship_patterns : list (string * pattern_groups) := [
  ("python", python_patterns);
  ("javascript", javascript_patterns);
  ("typescript", typescript_patterns);
  ("java", java_patterns);
  ("go", go_patterns);
  ("rust", rust_patterns);
  ("csharp", csharp_patterns) ].

(** ** Lookups *)

(** A dictionary in insertion order: a later value for a key replaces the
    earlier one in place. *)
Fixpoint dict_set {A} (k : string) (v : A) (d : list (string * A))
  : list (string * A) :=
  match d with
  | [] => [(k, v)]
  | (k', v') :: r => if eqb k k' then (k, v) :: r else (k', v') :: dict_set k v r
  end.

Definition dict_get {A} := @TreeSitterParser.dict_get A.

(** [defaultdict(list)], filled by [d[node.file_path].append(node)]. *)
Definition group_by_file (nodes : list KGNode) : list (string * list KGNode) :=
  fold_left
    (fun d node =>
       dict_set (file_path node)
                (default [] (dict_get (file_path node) d) ++ [node])%list d)
    nodes [].

(** [{node.name: node for node in nodes}] *)
Definition index_by_name (nodes : list KGNode) : gmap string KGNode :=
  fold_left (fun m node => <[node_name node := node]> m) nodes ∅.

(** [max(l, key)] and [min(l, key)]: the first element that reaches the
    extremum. *)
Fixpoint max_by {A} (key : A -> Z) (best : A) (l : list A) : A :=
  match l with
  | [] => best
  | x :: r => max_by key (if (key best <? key x)%Z then x else best) r
  end.

Fixpoint min_by {A} (key : A -> Z) (best : A) (l : list A) : A :=
  match l with
  | [] => best
  | x :: r => min_by key (if (key x <? key best)%Z then x else best) r
  end.

Definition at_line (line_num : Z) (node : KGNode) : bool :=
  if truthy (line_start node) && truthy (line_end node)
     && (or0 (line_start node) <=? line_num)%Z
     && (line_num <=? or0 (line_end node))%Z
  then true
  else truthy (line_start node) && (or0 (line_start node) <=? line_num)%Z.

Definition _find_node_at_line (nodes : list KGNode) (line_num : Z)
  : option KGNode :=
  match List.filter (at_line line_num) nodes with
  | [] => None
  | c :: cs => Some (max_by (fun x => or0 (line_start x)) c cs)
  end.

Definition encloses (node candidate : KGNode) : bool :=
  negb (bool_decide (node_id candidate = node_id node))
  && truthy (line_start candidate) && truthy (line_end candidate)
  && (or0 (line_start candidate) <? or0 (line_start node))%Z
  && ((if truthy (line_end node) then or0 (line_end node)
       else or0 (line_start node)) <? or0 (line_end candidate))%Z.

Definition span (x : KGNode) : Z := (or0 (line_end x) - or0 (line_start x))%Z.

Definition _find_parent_node (node : KGNode) (all_nodes : list KGNode)
  : option KGNode :=
  if negb (truthy (line_start node)) then None
  else
    match List.filter (encloses node) all_nodes with
    | [] => None
    | c :: cs => Some (min_by span c cs)
    end.

(** [content[:start].count("\n") + 1] *)
Definition line_of (content : string) (start : nat) : Z :=
  Z.of_nat (count nl (take start content) + 1).

(** ** Intra-file relationships *)

Definition intra_context (line_num : Z) (pattern : regex) : jdict :=
  [("line", JInt line_num); ("pattern", JStr (show pattern))].

Section intra.
Context (file_nodes : list KGNode) (content : string)
        (cancellation_check : option (M unit))
        (nodes_by_name : gmap string KGNode).

Definition matched_text (m : rmatch_obj) : string :=
  String.substring (m_start m) (m_end m - m_start m) content.

(** One match of a pattern: [emit] decides from the node at the line and
    the node of the captured name whether an edge is due. *)
Definition on_match (ty : RelationshipType) (conf : Q)
    (due : KGNode -> KGNode -> bool) (pattern : regex)
    (rels : list KGRelationship) (m : rmatch_obj)
  : M (list KGRelationship) :=
  call_opt cancellation_check ;;
  let name := default (matched_text m) (group m 1) in
  let line_num := line_of content (m_start m) in
  match _find_node_at_line file_nodes line_num, nodes_by_name !! name with
  | Some subject, Some target =>
      if due subject target then
        id <- uuid4 ;;
        ret (rels ++ [new_relationship id (nid subject) (nid target) ty conf
                        (intra_context line_num pattern)])%list
      else ret rels
  | _, _ => ret rels
  end.

Definition scan (ty : RelationshipType) (conf : Q)
    (due : KGNode -> KGNode -> bool) (patterns : option (list regex))
    (rels : list KGRelationship) : M (list KGRelationship) :=
  fold_m (fun rels pattern =>
            fold_m (on_match ty conf due pattern) (finditer pattern content) rels)
         (default [] patterns) rels.
End intra.

Definition _build_intra_file_relationships (file_nodes : list KGNode)
    (content language : string) (cancellation_check : option (M unit))
  : M (list KGRelationship) :=
  let patterns :=
    default no_patterns (dict_get language _initialize_relationship_patterns) in
  let nodes_by_name := index_by_name file_nodes in
  let scan' := scan file_nodes content cancellation_check nodes_by_name in
  r1 <- scan' CALLS (8 # 10)%Q
          (fun caller callee => negb (bool_decide (node_id caller = node_id callee)))
          (calls patterns) [] ;;
  r2 <- scan' INHERITS (9 # 10)%Q
          (fun child _ => bool_decide (node_type child = CLASS))
          (inherits patterns) r1 ;;
  scan' IMPLEMENTS (9 # 10)%Q (fun _ _ => true) (implements patterns) r2.

(** ** Cross-file relationships *)

Definition import_target (import_name : string) (node : KGNode) : bool :=
  (bool_decide (node_type node = FILE) || bool_decide (node_type node = MODULE))
  && (eqb (node_name node) import_name || contains import_name (file_path node)).

Definition link_import (all_nodes : list KGNode)
    (cancellation_check : option (M unit))
    (rels : list KGRelationship) (import_node : KGNode)
  : M (list KGRelationship) :=
  call_opt cancellation_check ;;
  match List.find (import_target (node_name import_node)) all_nodes with
  | Some node =>
      id <- uuid4 ;;
      ret (rels ++ [new_relationship id (nid import_node) (nid node) IMPORTS
                      (7 # 10)%Q [("cross_file", JBool true)]])%list
  | None => ret rels
  end.

(** The first line (counted from [line_num]) that holds [name] and at
    which a node of the file is found, with that node. *)
Fixpoint first_reference (file_nodes : list KGNode) (name : string)
    (line_num : Z) (lines : list string) : option (Z * KGNode) :=
  match lines with
  | [] => None
  | line :: r =>
      if contains name line then
        match _find_node_at_line file_nodes line_num with
        | Some referencer => Some (line_num, referencer)
        | None => first_reference file_nodes name (line_num + 1)%Z r
        end
      else first_reference file_nodes name (line_num + 1)%Z r
  end.

Definition link_reference (file_path content : string) (file_nodes : list KGNode)
    (rels : list KGRelationship) (node : KGNode) : M (list KGRelationship) :=
  if negb (eqb (Models.file_path node) file_path)
     && contains (node_name node) content then
    match first_reference file_nodes (node_name node) 1 (split nl content) with
    | Some (line_num, referencer) =>
        id <- uuid4 ;;
        ret (rels ++ [new_relationship id (nid referencer) (nid node) USES
                        (6 # 10)%Q
                        [("cross_file", JBool true); ("line", JInt line_num);
                         ("reference_type", JStr "name_match")]])%list
    | None => ret rels
    end
  else ret rels.

Definition _build_cross_file_relationships (all_nodes : list KGNode)
    (file_contents : list (string * string))
    (cancellation_check : option (M unit)) : M (list KGRelationship) :=
  let import_nodes :=
    List.filter (fun node => bool_decide (node_type node = IMPORT)) all_nodes in
  r1 <- fold_m (link_import all_nodes cancellation_check) import_nodes [] ;;
  fold_m (fun rels (fc : string * string) =>
            call_opt cancellation_check ;;
            let file_nodes :=
              List.filter (fun node => eqb (Models.file_path node) fc.1) all_nodes in
            match file_nodes with
            | [] => ret rels
            | _ => fold_m (link_reference fc.1 fc.2 file_nodes) all_nodes rels
            end)
         file_contents r1.

(** ** Containment *)

(** [list.sort(key=...)]: a stable sort. *)
Fixpoint insert_by {A} (key : A -> Z) (x : A) (l : list A) : list A :=
  match l with
  | [] => [x]
  | y :: r => if (key x <? key y)%Z then x :: l else y :: insert_by key x r
  end.

Definition sort_by {A} (key : A -> Z) (l : list A) : list A :=
  fold_left (fun sorted x => insert_by key x sorted) l [].

Definition is_file (node : KGNode) : bool := bool_decide (node_type node = FILE).

Definition contain_node (file_node : KGNode) (non_file_nodes : list KGNode)
    (rels : list KGRelationship) (node : KGNode) : M (list KGRelationship) :=
  id <- uuid4 ;;
  match _find_parent_node node non_file_nodes with
  | Some parent_node =>
      ret (rels ++ [new_relationship id (nid parent_node) (nid node) CONTAINS 1
                      [("containment_type", JStr "hierarchical")]])%list
  | None =>
      ret (rels ++ [new_relationship id (nid file_node) (nid node) CONTAINS 1
                      [("containment_type", JStr "file_level")]])%list
  end.

Definition contain_file (cancellation_check : option (M unit))
    (rels : list KGRelationship) (group : string * list KGNode)
  : M (list KGRelationship) :=
  call_opt cancellation_check ;;
  match List.find is_file group.2 with
  | None => ret rels
  | Some file_node =>
      let non_file_nodes :=
        sort_by (fun x => or0 (line_start x))
                (List.filter (fun node => negb (is_file node)) group.2) in
      fold_m (contain_node file_node non_file_nodes) non_file_nodes rels
  end.

Definition _build_containment_relationships (nodes : list KGNode)
    (cancellation_check : option (M unit)) : M (list KGRelationship) :=
  fold_m (contain_file cancellation_check) (group_by_file nodes) [].

(** ** [build_relationships], called without a progress callback *)

Definition first_language (file_nodes : list KGNode) : option string :=
  language <$> List.find (fun node => negb (is_file node)) file_nodes.

Definition intra_file (file_contents : list (string * string))
    (cancellation_check : option (M unit))
    (rels : list KGRelationship) (group : string * list KGNode)
  : M (list KGRelationship) :=
  call_opt cancellation_check ;;
  let content := default "" (dict_get group.1 file_contents) in
  if negb (nonempty content) then ret rels
  else
    match first_language group.2 with
    | Some language =>
        if nonempty language then
          file_relationships <-
            _build_intra_file_relationships group.2 content language
                                            cancellation_check ;;
          ret (rels ++ file_relationships)%list
        else ret rels
    | None => ret rels
    end.

Definition build_relationships (nodes : list KGNode)
    (file_contents : list (string * string))
    (cancellation_check : option (M unit)) : M (list KGRelationship) :=
  relationships <- fold_m (intra_file file_contents cancellation_check)
                          (group_by_file nodes) [] ;;
  cross_file_relationships <-
    _build_cross_file_relationships nodes file_contents cancellation_check ;;
  containment_relationships <-
    _build_containment_relationships nodes cancellation_check ;;
  ret (relationships ++ cross_file_relationships ++ containment_relationships)%list.

(** ** Dependency analysis: cycle detection *)

(** The dependency graph, a [Dict[str, Set[str]]]: the keys in insertion
    order, and each set of successors in the order in which the loop over
    it visits them. *)
Definition graph : Type := list (string * list string).

(** [graph.get(node, set())] *)
Definition successors (g : graph) (node : string) : list string :=
  default [] (dict_get node g).

Record dfs_state := mkDfs {
  visited : gset string;
  rec_stack : gset string;
  cycles : list (list string);
}.

Inductive dfs_result :=
| Done (st : dfs_state)
| ValueError          (* [path.index(node)] on a node that is not in [path] *)
| OutOfFuel.

(** [path.index(node)] *)
Fixpoint path_index (node : string) (path : list string) : option nat :=
  match path with
  | [] => None
  | x :: r => if eqb x node then Some 0 else S <$> path_index node r
  end.

(** [for neighbor in neighbors: call(neighbor)] *)
Fixpoint for_neighbors (call : string -> dfs_state -> dfs_result)
    (neighbors : list string) (st : dfs_state) : dfs_result :=
  match neighbors with
  | [] => Done st
  | neighbor :: rest =>
      match call neighbor st with
      | Done st' => for_neighbors call rest st'
      | r => r
      end
  end.

(** The nested function [dfs]; [fuel] bounds the depth of the recursion. *)
Fixpoint dfs (fuel : nat) (g : graph) (node : string) (path : list string)
    (st : dfs_state) {struct fuel} : dfs_result :=
  match fuel with
  | O => OutOfFuel
  | S fuel' =>
      if bool_decide (node ∈ rec_stack st) then
        match path_index node path with
        | Some cycle_start =>
            Done (mkDfs (visited st) (rec_stack st)
                        (cycles st ++ [List.skipn cycle_start path ++ [node]])%list)
        | None => ValueError
        end
      else if bool_decide (node ∈ visited st) then Done st
      else
        let path' := (path ++ [node])%list in
        match for_neighbors (fun neighbor st => dfs fuel' g neighbor path' st)
                (successors g node)
                (mkDfs ({[node]} ∪ visited st) ({[node]} ∪ rec_stack st)
                       (cycles st)) with
        | Done st' => Done (mkDfs (visited st') (rec_stack st' ∖ {[node]}) (cycles st'))
        | r => r
        end
  end.

(** [for node in graph: if node not in visited: dfs(node, [])] *)
Fixpoint dfs_roots (fuel : nat) (g : graph) (roots : list string)
    (st : dfs_state) : dfs_result :=
  match roots with
  | [] => Done st
  | node :: rest =>
      if bool_decide (node ∈ visited st) then dfs_roots fuel g rest st
      else
        match dfs fuel g node [] st with
        | Done st' => dfs_roots fuel g rest st'
        | r => r
        end
  end.

(** Every node of the graph, with repetitions. *)
Definition vertices (g : graph) : list string :=
  (List.map fst g ++ List.concat (List.map snd g))%list.

Definition detect_cycles_fuel (fuel : nat) (g : graph) : dfs_result :=
  dfs_roots fuel g (List.map fst g) (mkDfs ∅ ∅ []).

(** [_detect_cycles]: the recursion is never deeper than the number of
    nodes plus one. *)
Definition _detect_cycles (g : graph) : option (list (list string)) :=
  match detect_cycles_fuel (S (List.length (vertices g))) g with
  | Done st => Some (cycles st)
  | _ => None
  end.

(** The graph that [analyze_dependencies] builds: [dep_graph[src].add(tgt)]
    for the edges of kind [depends_on], [imports] or [uses]. *)
Definition is_dependency (rel : KGRelationship) : bool :=
  match relationship_type rel with
  | DEPENDS_ON | IMPORTS | USES => true
  | _ => false
  end.

Definition set_add (x : string) (l : list string) : list string :=
  if mem x l then l else (l ++ [x])%list.

Definition dep_graph (relationships : list KGRelationship) : graph :=
  fold_left
    (fun d rel =>
       if is_dependency rel then
         let src := pretty (source_node_id rel) in
         dict_set src (set_add (pretty (target_node_id rel)) (successors d src)) d
       else d)
    relationships [].

(** ** [analyze_dependencies] *)

(** [str(node.id)] *)
Definition str_id (id : option UUID) : string :=
  match id with
  | Some u => pretty u
  | None => "None"
  end.

(** An entry of [complexity_scores]. *)
Record hotspot := mkHotspot {
  hs_name : string;
  hs_file_path : string;
  hs_complexity : Z;
  hs_type : string;
}.

(** [complexity_scores]: by [str(node.id)], for the nodes whose score is
    neither [None] nor 0. *)
Definition complexity_scores (nodes : list KGNode) : list (string * hotspot) :=
  fold_left
    (fun d node =>
       if truthy (complexity_score node) then
         dict_set (str_id (node_id node))
                  {| hs_name := node_name node;
                     hs_file_path := file_path node;
                     hs_complexity := or0 (complexity_score node);
                     hs_type := node_type_value (node_type node) |} d
       else d)
    nodes [].

(** [sorted(..., key=complexity, reverse=True)[:10]], the values. *)
Definition complexity_hotspots (nodes : list KGNode) : list hotspot :=
  List.map snd
    (List.firstn 10
       (sort_by (fun item : string * hotspot => (- hs_complexity item.2)%Z)
                (complexity_scores nodes))).

(** [d[k] += 1] on a [defaultdict(int)], and [d[k] = d.get(k, 0) + 1]. *)
Definition bump (k : string) (d : list (string * nat)) : list (string * nat) :=
  dict_set k (default 0 (dict_get k d) + 1) d.

Definition is_coupling (rel : KGRelationship) : bool :=
  match relationship_type rel with
  | CALLS | USES => true
  | _ => false
  end.

Definition fan_out (relationships : list KGRelationship) : list (string * nat) :=
  fold_left
    (fun d rel => if is_coupling rel then bump (pretty (source_node_id rel)) d else d)
    relationships [].

Definition fan_in (relationships : list KGRelationship) : list (string * nat) :=
  fold_left
    (fun d rel => if is_coupling rel then bump (pretty (target_node_id rel)) d else d)
    relationships [].

Definition over_five (d : list (string * nat)) : list string :=
  List.map fst (List.filter (fun item : string * nat => 5 <? item.2) d).

Record coupling := mkCoupling {
  cm_fan_in : list (string * nat);
  cm_fan_out : list (string * nat);
  highly_coupled : list string;
}.

(** The analysis; [cohesion_metrics] stays empty.  The cycles are [None]
    only if the search runs out of fuel. *)
Record dependency_analysis := mkAnalysis {
  dependency_graph : graph;
  circular_dependencies : option (list (list string));
  analysis_hotspots : list hotspot;
  coupling_metrics : coupling;
}.

Definition analyze_dependencies (nodes : list KGNode)
    (relationships : list KGRelationship)
    (cancellation_check : option (M unit)) : M dependency_analysis :=
  call_opt cancellation_check ;;
  ret {| dependency_graph := dep_graph relationships;
         circular_dependencies := _detect_cycles (dep_graph relationships);
         analysis_hotspots := complexity_hotspots nodes;
         coupling_metrics :=
           {| cm_fan_in := fan_in relationships;
              cm_fan_out := fan_out relationships;
              highly_coupled :=
                (over_five (fan_in relationships)
                 ++ over_five (fan_out relationships))%list |} |}.

(** ** [build_graph_statistics] *)

(** Python truthiness of a JSON value. *)
Definition jtruthy (v : jval) : bool :=
  match v with
  | JNone => false
  | JBool b => b
  | JInt z => negb (z =? 0)%Z
  | JStr s => nonempty s
  end.

Record complexity_distribution := mkDistribution {
  low : nat;
  medium : nat;
  high : nat;
}.

(** One step of the loop over the nodes on the distribution. *)
Definition classify (dist : complexity_distribution) (node : KGNode)
  : complexity_distribution :=
  if truthy (complexity_score node) then
    if (or0 (complexity_score node) <=? 3)%Z
    then mkDistribution (low dist + 1) (medium dist) (high dist)
    else if (or0 (complexity_score node) <=? 6)%Z
    then mkDistribution (low dist) (medium dist + 1) (high dist)
    else mkDistribution (low dist) (medium dist) (high dist + 1)
  else dist.

(** The statistics; [average_complexity], a floating-point quotient, is
    left out. *)
Record graph_statistics := mkGraphStatistics {
  gs_total_nodes : nat;
  gs_total_relationships : nat;
  nodes_by_type : list (string * nat);
  relationships_by_type : list (string * nat);
  gs_languages : list (string * nat);
  files_analyzed : nat;
  gs_complexity_distribution : complexity_distribution;
  cross_file_relationships : nat;
}.

Definition is_cross_file (rel : KGRelationship) : bool :=
  match context_info rel with
  | [] => false
  | info => from_option jtruthy false (dict_get "cross_file" info)
  end.

Definition build_graph_statistics (nodes : list KGNode)
    (relationships : list KGRelationship) : graph_statistics :=
  {| gs_total_nodes := List.length nodes;
     gs_total_relationships := List.length relationships;
     nodes_by_type :=
       fold_left (fun d node => bump (node_type_value (node_type node)) d) nodes [];
     relationships_by_type :=
       fold_left (fun d rel => bump (relationship_type_value (relationship_type rel)) d)
                 relationships [];
     gs_languages :=
       fold_left (fun d node =>
                    if nonempty (language node) then bump (language node) d else d)
                 nodes [];
     files_analyzed :=
       size (list_to_set (List.map Models.file_path nodes) : gset string);
     gs_complexity_distribution :=
       fold_left classify nodes (mkDistribution 0 0 0);
     cross_file_relationships :=
       List.length (List.filter is_cross_file relationships) |}.

End GraphBuilder.

(* ===================================================================== *)
(** * knowledge_graph_service.py *)
(* ===================================================================== *)

Module KnowledgeGraphService.
Import PyStr Models Py.
Local Open Scope py_scope.

(** What lies outside the service: the task registry and the scheduler
    (whether a cancellation is seen at the [n]-th cancellation point, by a
    probe or at a suspension), the file system and [git clone].  The store
    is the tables of the [world]; its requests succeed. *)
Record env := mkEnv {
  cancelled : nat -> bool;
  interrupted : nat -> bool;
  path_exists : string -> bool;
  clone : string -> string -> string + string;
  walk : string -> list TreeSitterParser.repo_file;
}.

Record t := mk {
  parser : TreeSitterParser.t;
  environment : env;
}.

(** The closure [check_cancellation]: raises when the task registered
    under the source id is cancelled. *)
Definition check_cancellation (self : t) : M unit :=
  cancellation_point (cancelled (environment self)) "Parsing was cancelled".

(** The progress channel: the event is handed over, and the task is
    suspended until it has been sent. *)
Definition channel (self : t) (p : ParsingProgress) : M unit :=
  modify (fun w => set_events (EProgress p :: events w) w) ;;
  cancellation_point (interrupted (environment self)) "".

Definition progress_cb : Type := option (ParsingProgress -> M unit).

(** ** Store requests *)

Definition _create_kg_source (request : ParseRequest) : M KGSource :=
  let local_path_value :=
    match req_archon_source_id request, req_archon_project_id request,
          local_path request, repository_url request with
    | None, None, None, Some url => Some url
    | _, _, _, _ => local_path request
    end in
  id <- uuid4 ;;
  let kg_source :=
    {| src_id := id; source_type := req_source_type request;
       archon_source_id := req_archon_source_id request;
       archon_project_id := req_archon_project_id request;
       src_name := req_name request;
       src_repository_url := repository_url request;
       src_branch_name := branch_name request;
       src_local_path := local_path_value;
       parsing_status := PENDING; parsing_error := None;
       total_nodes_created := 0; total_relationships_created := 0 |} in
  modify (fun w => set_kg_sources (kg_sources w ++ [kg_source])%list w) ;;
  ret kg_source.

Definition truthy_str (o : option string) : bool :=
  match o with Some s => nonempty s | None => false end.

Definition update_source (status : ParsingStatus) (error_message : option string)
    (nodes_created rels_created : option Z) (row : KGSource) : KGSource :=
  {| src_id := src_id row; source_type := source_type row;
     archon_source_id := archon_source_id row;
     archon_project_id := archon_project_id row;
     src_name := src_name row;
     src_repository_url := src_repository_url row;
     src_branch_name := src_branch_name row;
     src_local_path := src_local_path row;
     parsing_status := status;
     parsing_error :=
       if truthy_str error_message then error_message else parsing_error row;
     total_nodes_created := default (total_nodes_created row) nodes_created;
     total_relationships_created :=
       default (total_relationships_created row) rels_created |}.

Definition _update_kg_source_status (kg_source_id : UUID)
    (status : ParsingStatus) (error_message : option string)
    (nodes_created rels_created : option Z) : M unit :=
  modify (fun w =>
    set_kg_sources
      (List.map (fun row =>
                   if src_id row =? kg_source_id
                   then update_source status error_message nodes_created
                                      rels_created row
                   else row)
                (kg_sources w)) w).

Definition dedup (l : list string) : list string :=
  fold_left (fun acc x => if mem x acc then acc else (acc ++ [x])%list) l [].

Definition detected_languages (self : t) (file_contents : list (string * string))
  : list string :=
  dedup (omap (fun fc => TreeSitterParser.detect_language (parser self) fc.1)
              file_contents).

Definition _create_kg_repository (self : t) (kg_source_id : UUID)
    (request : ParseRequest) (file_contents : list (string * string))
  : M KGRepository :=
  let all_languages := detected_languages self file_contents in
  id <- uuid4 ;;
  let kg_repository :=
    {| repo_id := id; kg_source_id := kg_source_id;
       repo_name := req_name request;
       repo_repository_url := repository_url request;
       repo_branch_name := branch_name request;
       primary_language := head all_languages;
       all_languages := all_languages;
       total_files := List.length file_contents;
       parsed_files := 0; parsing_duration_seconds := None |} in
  modify (fun w => set_kg_repositories (kg_repositories w ++ [kg_repository])%list w) ;;
  ret kg_repository.

Definition _update_repository_statistics (kg_repository_id : UUID)
    (total parsed : Z) : M unit :=
  modify (fun w =>
    set_kg_repositories
      (List.map (fun row =>
                   if repo_id row =? kg_repository_id
                   then {| repo_id := repo_id row;
                           kg_source_id := kg_source_id row;
                           repo_name := repo_name row;
                           repo_repository_url := repo_repository_url row;
                           repo_branch_name := repo_branch_name row;
                           primary_language := primary_language row;
                           all_languages := all_languages row;
                           total_files := Z.to_nat total;
                           parsed_files := parsed;
                           parsing_duration_seconds := Some 0%Z |}
                   else row)
                (kg_repositories w)) w).

(** The rows of every batch are inserted. *)
Definition _store_nodes_and_relationships (nodes : list KGNode)
    (relationships : list KGRelationship) (batch_size : nat) : M unit :=
  modify (fun w => set_kg_nodes (kg_nodes w ++ nodes)%list w) ;;
  modify (fun w => set_kg_relationships (kg_relationships w ++ relationships)%list w).

Definition _stream_store_file_data (nodes : list KGNode)
    (relationships : list KGRelationship) (file_path : string) : M bool :=
  match nodes, relationships with
  | [], [] => ret true
  | _, _ =>
      try_except (_store_nodes_and_relationships nodes relationships 25 ;; ret true)
                 (fun _ _ => ret false)
  end.

(** ** Locating and reading the repository *)

Definition _clone_repository (self : t) (repository_url branch_name : string)
    (progress_callback : progress_cb) : M string :=
  match progress_callback with
  | Some cb =>
      cb {| pp_kg_source_id := "temp"; pp_status := PROCESSING;
            pp_total_files := 0; pp_processed_files := 0;
            pp_current_file := Some ("Cloning " +:+ repository_url);
            pp_nodes_created := 0; pp_relationships_created := 0;
            pp_errors := [] |}
  | None => ret tt
  end ;;
  match clone (environment self) repository_url branch_name with
  | inl temp_dir => ret temp_dir
  | inr msg => raise (Exception "Exception" ("Failed to clone repository: " +:+ msg))
  end.

(** Both handlers of this method call a logging function that the module
    does not import. *)
Definition log_warning_unbound {A} : M A :=
  raise (Exception "NameError" "name 'safe_logfire_warning' is not defined").

Definition read_one (self : t) (language_filter : option (list string))
    (max_size_bytes : Z) (file_contents : list (string * string))
    (f : TreeSitterParser.repo_file) : M (list (string * string)) :=
  match TreeSitterParser.rf_size f with
  | None => log_warning_unbound
  | Some file_size_bytes =>
      if negb (TreeSitterParser.should_parse_file (parser self)
                 (TreeSitterParser.rf_path f) (Some file_size_bytes))
      then ret file_contents
      else if (max_size_bytes <? file_size_bytes)%Z then ret file_contents
      else
        match TreeSitterParser.detect_language (parser self)
                (TreeSitterParser.rf_path f) with
        | None => ret file_contents
        | Some language =>
            if negb (nonempty language) then ret file_contents
            else if match language_filter with
                    | Some (l :: ls) => negb (mem language (l :: ls))
                    | _ => false
                    end
            then ret file_contents
            else
              match TreeSitterParser.rf_read f with
              | inl content =>
                  ret (GraphBuilder.dict_set (TreeSitterParser.rf_path f)
                                             content file_contents)
              | inr _ => log_warning_unbound
              end
        end
  end.

Definition _read_repository_files (self : t) (repository_path : string)
    (language_filter : option (list string)) (max_file_size_kb : Z)
  : M (list (string * string)) :=
  fold_m (read_one self language_filter (max_file_size_kb * 1024)%Z)
         (walk (environment self) repository_path) [].

(** ** [parse_repository] *)

Definition cancelled_result (kg_source_id kg_repository_id : option UUID)
  : ParseResult :=
  {| pr_success := false; pr_kg_source_id := kg_source_id;
     pr_kg_repository_id := kg_repository_id;
     pr_message := "Repository parsing was cancelled";
     pr_statistics := None;
     pr_error := Some "Operation was cancelled by user" |}.

Definition failure (kg_source_id : option UUID) (message error : string)
  : ParseResult :=
  {| pr_success := false; pr_kg_source_id := kg_source_id;
     pr_kg_repository_id := None; pr_message := message;
     pr_statistics := None; pr_error := Some error |}.

(** The two handlers of the outer [try], for a part [m] of its body during
    which the locals [kg_source_id] and [kg_repository_id] hold the given
    values; [k] is the rest of the body. *)
Definition guarded {A} (kg_source_id kg_repository_id : option UUID)
    (m : M A) (k : A -> M ParseResult) : M ParseResult :=
  fun w =>
    match m w with
    | (Ok a, w') => k a w'
    | (Raise (CancelledError _), w') =>
        (match kg_source_id with
         | Some id =>
             _update_kg_source_status id FAILED
               (Some "Parsing was cancelled by user") None None
         | None => ret tt
         end ;;
         ret (cancelled_result kg_source_id kg_repository_id)) w'
    | (Raise (Exception _ msg), w') =>
        (let error_message := "Repository parsing failed: " +:+ msg in
         match kg_source_id with
         | Some id => _update_kg_source_status id FAILED (Some error_message) None None
         | None => ret tt
         end ;;
         ret {| pr_success := false; pr_kg_source_id := kg_source_id;
                pr_kg_repository_id := kg_repository_id;
                pr_message := "Repository parsing failed";
                pr_statistics := None; pr_error := Some error_message |}) w'
    end.

(** The locals of the streaming loop. *)
Record totals := mkTotals {
  processed_files : nat;
  total_nodes_created : nat;
  total_relationships_created : nat;
  failed_files : list FileError;
}.

(** [l[-n:] if l else []] *)
Definition last_n {A} (n : nat) (l : list A) : list A :=
  List.skipn (List.length l - n) l.

Definition create_progress_callback (progress_callback : progress_cb)
    (kg_source_id : UUID) (status : ParsingStatus) (total_files : nat)
    (current_file : option string) (tt : totals) : M unit :=
  match progress_callback with
  | Some cb =>
      cb {| pp_kg_source_id := pretty kg_source_id; pp_status := status;
            pp_total_files := total_files;
            pp_processed_files := processed_files tt;
            pp_current_file := current_file;
            pp_nodes_created := total_nodes_created tt;
            pp_relationships_created := total_relationships_created tt;
            pp_errors := last_n 10 (failed_files tt) |}
  | None => ret (())
  end.

Definition fail_file (tt : totals) (file_path : string) (error : option string)
  : list FileError :=
  (failed_files tt ++ [mkFileError file_path error])%list.

(** One iteration of the streaming loop.  Inside its [try], only the call
    of the parser can raise an [Exception], at a point where the locals
    still have the values of [tt]. *)
Definition stream_file (self : t) (progress_callback : progress_cb)
    (kg_source_id kg_repository_id : UUID) (total_files : nat)
    (tt : totals) (fc : string * string) : M totals :=
  try_except
    (out <- TreeSitterParser.parse_file (parser self) fc.1 fc.2 kg_repository_id
              None (Some (check_cancellation self)) ;;
     let nodes := out.1.1 in
     let relationships := out.1.2 in
     let result := out.2 in
     tt1 <-
       (if fpr_success result then
          storage_success <- _stream_store_file_data nodes relationships fc.1 ;;
          if storage_success : bool then
            ret (mkTotals (processed_files tt)
                          (total_nodes_created tt + List.length nodes)
                          (total_relationships_created tt + List.length relationships)
                          (failed_files tt))
          else
            ret (mkTotals (processed_files tt) (total_nodes_created tt)
                          (total_relationships_created tt)
                          (fail_file tt fc.1 (Some "Storage failed")))
        else
          ret (mkTotals (processed_files tt) (total_nodes_created tt)
                        (total_relationships_created tt)
                        (fail_file tt fc.1 (fpr_error result)))) ;;
     let tt2 := mkTotals (processed_files tt1 + 1) (total_nodes_created tt1)
                         (total_relationships_created tt1) (failed_files tt1) in
     (if (processed_files tt2 mod 5 =? 0) || (processed_files tt2 =? total_files)
      then create_progress_callback progress_callback kg_source_id PROCESSING
             total_files (Some fc.1) tt2
      else ret (())) ;;
     ret tt2)
    (fun _ msg =>
       ret (mkTotals (processed_files tt + 1) (total_nodes_created tt)
                     (total_relationships_created tt)
                     (fail_file tt fc.1 (Some msg)))).

(** The phase after the loop: the graph builder is given an empty node
    list. *)
Definition cross_file_phase (self : t) (file_contents : list (string * string))
    (tt : totals) : M totals :=
  try_except
    (additional_relationships <-
       GraphBuilder.build_relationships [] file_contents
                                        (Some (check_cancellation self)) ;;
     match additional_relationships with
     | [] => ret tt
     | _ =>
         _store_nodes_and_relationships [] additional_relationships 50 ;;
         ret (mkTotals (processed_files tt) (total_nodes_created tt)
                       (total_relationships_created tt
                        + List.length additional_relationships)
                       (failed_files tt))
     end)
    (fun _ _ => ret tt).

(** [parse_repository].  Durations and rates are left out, and so is the
    removal of the temporary clone in the [finally] clause. *)
Definition parse_repository (self : t) (request : ParseRequest)
    (progress_callback : progress_cb) : M ParseResult :=
  guarded None None (_create_kg_source request) (fun kg_source =>
  let kg_source_id := src_id kg_source in
  guarded (Some kg_source_id) None
    (create_progress_callback progress_callback kg_source_id PROCESSING 0 None
                              (mkTotals 0 0 0 []) ;;
     located <-
       (if truthy_str (local_path request)
        then ret (local_path request)
        else if truthy_str (repository_url request) then
          d <- _clone_repository self (default "" (repository_url request))
                                 (branch_name request) progress_callback ;;
          ret (Some d)
        else ret None) ;;
     match located with
     | None =>
         ret (inl (failure None "No repository path or URL provided"
                     "Either local_path or repository_url must be specified"))
     | Some repository_path =>
         if negb (path_exists (environment self) repository_path) then
           _update_kg_source_status kg_source_id FAILED
             (Some "Repository path not found") None None ;;
           ret (inl (failure (Some kg_source_id) "Repository path not found"
                       ("Path does not exist: " +:+ repository_path)))
         else
           file_contents <- _read_repository_files self repository_path
                              (languages request) (max_file_size_kb request) ;;
           match file_contents with
           | [] =>
               _update_kg_source_status kg_source_id FAILED
                 (Some "No parseable files found") None None ;;
               ret (inl (failure (Some kg_source_id)
                           "No parseable files found in repository"
                           "Repository contains no supported file types"))
           | _ =>
               kg_repository <- _create_kg_repository self kg_source_id request
                                                      file_contents ;;
               ret (inr (file_contents, kg_repository))
           end
     end)
    (fun located =>
       match located with
       | inl early => ret early
       | inr (file_contents, kg_repository) =>
           let kg_repository_id := repo_id kg_repository in
           let total_files := List.length file_contents in
           guarded (Some kg_source_id) (Some kg_repository_id)
             (tt <- fold_m (stream_file self progress_callback kg_source_id
                                        kg_repository_id total_files)
                           file_contents (mkTotals 0 0 0 []) ;;
              tt <- cross_file_phase self file_contents tt ;;
              let parsed :=
                (Z.of_nat (processed_files tt)
                 - Z.of_nat (List.length (failed_files tt)))%Z in
              _update_repository_statistics kg_repository_id
                (Z.of_nat total_files) parsed ;;
              _update_kg_source_status kg_source_id COMPLETED None
                (Some (Z.of_nat (total_nodes_created tt)))
                (Some (Z.of_nat (total_relationships_created tt))) ;;
              create_progress_callback progress_callback kg_source_id COMPLETED
                                       total_files None tt ;;
              ret {| pr_success := true; pr_kg_source_id := Some kg_source_id;
                     pr_kg_repository_id := Some kg_repository_id;
                     pr_message := "Successfully parsed repository with streaming storage";
                     pr_statistics :=
                       Some {| st_total_files := total_files;
                               st_parsed_files := parsed;
                               st_failed_files := List.length (failed_files tt);
                               st_total_nodes := total_nodes_created tt;
                               st_total_relationships := total_relationships_created tt;
                               st_languages_detected :=
                                 detected_languages self file_contents;
                               st_streaming_storage := true |};
                     pr_error := None |})
             ret
       end)).

(** ** [query_graph] *)

Record query_result := mkQueryResult {
  qr_nodes : list KGNode;
  qr_relationships : list KGRelationship;
  qr_total_nodes : nat;
  qr_total_relationships : nat;
}.

(** [range(0, len(l), size)] with [l[i:i + size]] *)
Fixpoint batches_aux {A} (fuel size : nat) (l : list A) : list (list A) :=
  match fuel, l with
  | S f, _ :: _ => List.firstn size l :: batches_aux f size (List.skipn size l)
  | _, _ => []
  end.

Definition batches {A} (size : nat) (l : list A) : list (list A) :=
  batches_aux (List.length l) size l.

Definition in_ids (ids : list UUID) (id : UUID) : bool :=
  existsb (Nat.eqb id) ids.

(** The nodes of the repository that pass the kind and language filters,
    at most 1,000 of them. *)
Definition select_nodes (table : list KGNode) (query : GraphQuery) : list KGNode :=
  let by_repo :=
    List.filter (fun n => Models.kg_repository_id n =? repository_id query) table in
  let by_type :=
    match node_types query with
    | Some (ty :: tys) =>
        List.filter (fun n => bool_decide (node_type n ∈ ty :: tys)) by_repo
    | _ => by_repo
    end in
  let by_language :=
    match language_filter query with
    | Some lang =>
        if nonempty lang
        then List.filter (fun n => eqb (language n) lang) by_type
        else by_type
    | None => by_type
    end in
  List.firstn 1000 by_language.

(** One batch request: the relationships that touch a node of the batch,
    of the requested kinds. *)
Definition batch_relationships (table : list KGRelationship)
    (query : GraphQuery) (batch_node_ids : list UUID) : list KGRelationship :=
  let touching :=
    List.filter (fun r => in_ids batch_node_ids (source_node_id r)
                          || in_ids batch_node_ids (target_node_id r)) table in
  match relationship_types query with
  | [] => touching
  | rel_types =>
      List.filter (fun r => bool_decide (relationship_type r ∈ rel_types)) touching
  end.

(** The loop over [seen_rel_ids]. *)
Fixpoint unique_by_id (seen : list (option UUID)) (rels : list KGRelationship)
  : list KGRelationship :=
  match rels with
  | [] => []
  | rel :: rest =>
      if bool_decide (rel_id rel ∈ seen) then unique_by_id seen rest
      else rel :: unique_by_id (rel_id rel :: seen) rest
  end.

Definition select_relationships (table : list KGRelationship)
    (query : GraphQuery) (nodes : list KGNode) : list KGRelationship :=
  match nodes with
  | [] => []
  | _ =>
      let node_ids := List.map nid nodes in
      let relationships :=
        List.concat (List.map (batch_relationships table query)
                              (batches 50 node_ids)) in
      List.filter (fun rel => in_ids node_ids (source_node_id rel)
                              && in_ids node_ids (target_node_id rel))
                  (unique_by_id [] relationships)
  end.

Definition _apply_path_filtering (nodes : list KGNode)
    (relationships : list KGRelationship) (start_node_id end_node_id : option UUID)
    (max_depth : Z) : list KGNode * list KGRelationship :=
  (nodes, relationships).

Definition query_graph (query : GraphQuery) : M query_result :=
  w <- get ;;
  let nodes := select_nodes (kg_nodes w) query in
  let relationships := select_relationships (kg_relationships w) query nodes in
  let filtered :=
    if bool_decide (is_Some (start_node_id query))
       || bool_decide (is_Some (end_node_id query))
    then _apply_path_filtering nodes relationships (start_node_id query)
                               (end_node_id query) (max_depth query)
    else (nodes, relationships) in
  ret {| qr_nodes := filtered.1; qr_relationships := filtered.2;
         qr_total_nodes := List.length filtered.1;
         qr_total_relationships := List.length filtered.2 |}.

(** ** Analyses *)

(** An entry of [node_metrics] in [_analyze_hotspots]. *)
Record node_metric := mkMetric {
  nm_name : string;
  nm_file_path : string;
  nm_node_type : string;
  incoming_refs : Z;
  outgoing_refs : Z;
  nm_complexity : Z;
}.

(** [node.complexity_score or 1] *)
Definition or1 (o : option Z) : Z := if truthy o then or0 o else 1%Z.

Definition initial_metrics (nodes : list KGNode) : list (string * node_metric) :=
  fold_left
    (fun d node =>
       GraphBuilder.dict_set (GraphBuilder.str_id (node_id node))
         {| nm_name := node_name node; nm_file_path := Models.file_path node;
            nm_node_type := node_type_value (node_type node);
            incoming_refs := 0; outgoing_refs := 0;
            nm_complexity := or1 (complexity_score node) |} d)
    nodes [].

(** [if k in d: d[k][field] += 1] *)
Definition add_outgoing (k : string) (d : list (string * node_metric))
  : list (string * node_metric) :=
  match GraphBuilder.dict_get k d with
  | Some m =>
      GraphBuilder.dict_set k
        (mkMetric (nm_name m) (nm_file_path m) (nm_node_type m)
                  (incoming_refs m) (outgoing_refs m + 1) (nm_complexity m)) d
  | None => d
  end.

Definition add_incoming (k : string) (d : list (string * node_metric))
  : list (string * node_metric) :=
  match GraphBuilder.dict_get k d with
  | Some m =>
      GraphBuilder.dict_set k
        (mkMetric (nm_name m) (nm_file_path m) (nm_node_type m)
                  (incoming_refs m + 1) (outgoing_refs m) (nm_complexity m)) d
  | None => d
  end.

Definition node_metrics (nodes : list KGNode) (relationships : list KGRelationship)
  : list (string * node_metric) :=
  fold_left
    (fun d rel =>
       add_incoming (pretty (target_node_id rel))
                    (add_outgoing (pretty (source_node_id rel)) d))
    relationships (initial_metrics nodes).

Definition hotspot_score (m : node_metric) : Z :=
  (incoming_refs m * 2 + outgoing_refs m + nm_complexity m * 3)%Z.

(** [{"hotspots": hotspots[:20]}]: the metrics with their score. *)
Definition _analyze_hotspots (nodes : list KGNode)
    (relationships : list KGRelationship) : list (node_metric * Z) :=
  let hotspots :=
    List.map (fun item : string * node_metric => (item.2, hotspot_score item.2))
      (List.filter (fun item : string * node_metric => (10 <? hotspot_score item.2)%Z)
                   (node_metrics nodes relationships)) in
  List.firstn 20
    (GraphBuilder.sort_by (fun h : node_metric * Z => (- h.2)%Z) hotspots).

(** [next((n for n in nodes if n.id == id), None)] *)
Definition node_with_id (nodes : list KGNode) (id : UUID) : option KGNode :=
  List.find (fun n => bool_decide (node_id n = Some id)) nodes.

(** The counters [internal_rels] and [external_rels] after the loop. *)
Definition count_internal (nodes : list KGNode)
    (internal_external : nat * nat) (rel : KGRelationship) : nat * nat :=
  match node_with_id nodes (source_node_id rel),
        node_with_id nodes (target_node_id rel) with
  | Some source_node, Some target_node =>
      if eqb (Models.file_path source_node) (Models.file_path target_node)
      then (internal_external.1 + 1, internal_external.2)
      else (internal_external.1, internal_external.2 + 1)
  | _, _ => internal_external
  end.

(** [_calculate_modularity_score]; the quotient is taken in the rationals,
    of which the source returns the nearest float. *)
Definition _calculate_modularity_score (nodes : list KGNode)
    (relationships : list KGRelationship) : Q :=
  match relationships with
  | [] => 1%Q
  | _ =>
      let counts := fold_left (count_internal nodes) relationships (0, 0) in
      let total_rels := counts.1 + counts.2 in
      if total_rels =? 0 then 1%Q
      else (Z.of_nat counts.1 # Pos.of_nat total_rels)%Q
  end.

End KnowledgeGraphService.

(* ===================================================================== *)
(** * Inputs used in examples *)
(* ===================================================================== *)

Module Examples.


(** The two files of the Python mini-repository. *)
Definition a_py : string :=
"class Foo:
    def bar(self): pass
".

Definition b_py : string :=
"from a import Foo
class Baz(Foo):
    pass
".


(** A file node, a class on lines 1 to 9 and a function on line 2 with no
    last line. *)
Definition spanned_nodes : list Models.KGNode :=
  [ Models.new_node 1 7 Models.FILE "m.py" "m.py" "m.py" None "python"
                    [] None None None true;
    Models.mkKGNode (Some 2) 7 Models.CLASS "K" (Some "m.py::K") "m.py"
                    (Some 1%Z) (Some 9%Z) None None "python" [] None None None
                    true false;
    Models.new_node 3 7 Models.FUNCTION "f" "m.py::f" "m.py" (Some 2%Z) "python"
                    [] None None None true ].

(** Both files are parsed, and the graph builder runs over all the nodes
    and both texts; the result is the nodes and the relationships of the
    parser followed by those of the builder. *)
Definition mini_repository (repository_id : Models.UUID)
  : Py.M (list Models.KGNode * list Models.KGRelationship) :=
  Py.bind (TreeSitterParser.parse_file TreeSitterParser.init "a.py" a_py
             repository_id None None) (fun a =>
  Py.bind (TreeSitterParser.parse_file TreeSitterParser.init "b.py" b_py
             repository_id None None) (fun b =>
  let nodes := (a.1.1 ++ b.1.1)%list in
  Py.bind (GraphBuilder.build_relationships nodes
             [("a.py", a_py); ("b.py", b_py)] None) (fun built =>
  Py.ret (nodes, (a.1.2 ++ b.1.2 ++ built)%list)))).

(** A service over a checkout that holds the two files, where the task is
    seen cancelled at the [n]-th cancellation point, and a request for that
    checkout. *)
Definition mini_files : list TreeSitterParser.repo_file :=
  [ TreeSitterParser.mkRepoFile "a.py" (Some 40%Z) (inl a_py);
    TreeSitterParser.mkRepoFile "b.py" (Some 50%Z) (inl b_py) ].

Definition service_cancelled_at (n : nat) : KnowledgeGraphService.t :=
  KnowledgeGraphService.mk TreeSitterParser.init
    {| KnowledgeGraphService.cancelled := fun k => Nat.eqb k n;
       KnowledgeGraphService.interrupted := fun _ => false;
       KnowledgeGraphService.path_exists := fun _ => true;
       KnowledgeGraphService.clone := fun _ _ => inr "no network";
       KnowledgeGraphService.walk := fun _ => mini_files |}.

Definition mini_request : Models.ParseRequest :=
  {| Models.req_source_type := Models.PROJECT_REPOSITORY;
     Models.req_name := "mini";
     Models.repository_url := None;
     Models.local_path := Some "repo";
     Models.branch_name := "main";
     Models.req_archon_source_id := None;
     Models.req_archon_project_id := None;
     Models.languages := None;
     Models.max_file_size_kb := 500;
     Models.parse_timeout_seconds := 30;
     Models.enable_cross_file_refs := true |}.

(** The job for that request, with its progress events sent over the
    channel, when the task is seen cancelled at the cancellation point 5:
    the probe in the parser's loop over the lines of b.py. *)
Definition cancelled_run : Py.result Models.ParseResult * Py.world :=
  KnowledgeGraphService.parse_repository (service_cancelled_at 5) mini_request
    (Some (KnowledgeGraphService.channel (service_cancelled_at 5))) Py.world0.

(** The progress event at the start of that job. *)
Definition first_progress : Models.ParsingProgress :=
  {| Models.pp_kg_source_id := "0"; Models.pp_status := Models.PROCESSING;
     Models.pp_total_files := 0; Models.pp_processed_files := 0;
     Models.pp_current_file := None; Models.pp_nodes_created := 0;
     Models.pp_relationships_created := 0; Models.pp_errors := [] |}.

(** The same job with no progress callback, when no cancellation is seen. *)
Definition completed_run : Py.result Models.ParseResult * Py.world :=
  KnowledgeGraphService.parse_repository (service_cancelled_at 1000) mini_request
    None Py.world0.

(** A request that names neither a path nor a URL. *)
Definition unlocated_request : Models.ParseRequest :=
  {| Models.req_source_type := Models.PROJECT_REPOSITORY;
     Models.req_name := "nowhere";
     Models.repository_url := None;
     Models.local_path := Some "";
     Models.branch_name := "main";
     Models.req_archon_source_id := None;
     Models.req_archon_project_id := None;
     Models.languages := None;
     Models.max_file_size_kb := 500;
     Models.parse_timeout_seconds := 30;
     Models.enable_cross_file_refs := true |}.

(** Two nodes that depend on each other, and a call. *)
Definition mutual_dependencies : list Models.KGRelationship :=
  [ Models.new_relationship 20 1 2 Models.USES (6 # 10) [];
    Models.new_relationship 21 2 1 Models.IMPORTS (7 # 10) [];
    Models.new_relationship 22 1 3 Models.CALLS (8 # 10) [] ].

(** A store in which every relationship has its own identifier. *)
Definition keyed_store : Py.world :=
  Py.mkWorld 100 0 [] [] []
    [ Models.new_node 10 1 Models.CLASS "Foo" "a.py::Foo" "a.py" (Some 1%Z) "python"
                      [] None None None true;
      Models.new_node 11 1 Models.FUNCTION "bar" "a.py::bar" "a.py" (Some 2%Z)
                      "python" [] None None None true ]
    [ Models.new_relationship 20 10 11 Models.CONTAINS 1 [];
      Models.new_relationship 21 11 10 Models.CALLS (8 # 10) [] ].


Definition triangle : GraphBuilder.graph :=
  [("A", ["B"]); ("B", ["C"]); ("C", ["A"])].

Definition diamond : GraphBuilder.graph :=
  [("A", ["B"; "C"]); ("B", ["D"]); ("C", ["D"])].

(** The complete graph on three nodes in every order in which its keys and
    its sets of successors can be enumerated. *)
Definition k3_orders : list GraphBuilder.graph :=
  List.flat_map (fun a =>
    List.flat_map (fun b =>
      List.flat_map (fun c =>
        [[a; b; c]; [a; c; b]; [b; a; c]; [b; c; a]; [c; a; b]; [c; b; a]])
        [("C", ["A"; "B"]); ("C", ["B"; "A"])])
      [("B", ["A"; "C"]); ("B", ["C"; "A"])])
    [("A", ["B"; "C"]); ("A", ["C"; "B"])].

(** A store with one class node and one function node of repository 1, and
    a query for that repository whose [node_types] is the empty list. *)
Definition class_row : Models.KGNode :=
  Models.new_node 10 1 Models.CLASS "Foo" "a.py::Foo" "a.py" (Some 1%Z) "python"
                  [] None None None true.

Definition function_row : Models.KGNode :=
  Models.new_node 11 1 Models.FUNCTION "bar" "a.py::bar" "a.py" (Some 2%Z) "python"
                  [] None None None true.

Definition contains_row : Models.KGRelationship :=
  Models.new_relationship 20 10 11 Models.CONTAINS 1 [].

Definition small_store : Py.world :=
  Py.mkWorld 100 0 [] [] [] [class_row; function_row] [contains_row; contains_row].

Definition query_with (types : option (list Models.NodeType)) : Models.GraphQuery :=
  {| Models.repository_id := 1; Models.start_node_id := None;
     Models.end_node_id := None; Models.relationship_types := [];
     Models.max_depth := 3; Models.node_types := types;
     Models.language_filter := None; Models.include_properties := false |}.

End Examples.

(* ===================================================================== *)
(** * The specification's own wording, for comparison with the code *)
(* ===================================================================== *)

Module Spec.
Import PyStr.

(** The number of tokens that are control keywords. *)
Definition keyword_occurrences (keywords words : list string) : nat :=
  List.length (List.filter (fun w => mem w keywords) words).

(** "Start from base 1, add the count of occurrences of language-specific
    control keywords in the lowercased whitespace-tokenised body, then map
    via min(10, max(1, count / 5 + 1))." *)
Definition complexity (language content : string) : Z :=
  let count :=
    (1 + Z.of_nat (keyword_occurrences (TreeSitterParser.keywords_of language)
                                       (split_ws (lower content))))%Z in
  Z.min 10 (Z.max 1 (count / 5 + 1)).

(** ** Nodes and relationships by kind and name *)

Definition is_node (ty : Models.NodeType) (name : string) (n : Models.KGNode)
  : bool :=
  bool_decide (Models.node_type n = ty) && eqb (Models.node_name n) name.

Definition kind_and_name (n : Models.KGNode) : Models.NodeType * string :=
  (Models.node_type n, Models.node_name n).

(** The relationships of kind [rel] from a node [sty sname] to a node
    [tty tname]. *)
Definition edges_between (nodes : list Models.KGNode)
    (edges : list Models.KGRelationship) (rel : Models.RelationshipType)
    (sty : Models.NodeType) (sname : string)
    (tty : Models.NodeType) (tname : string) : list Models.KGRelationship :=
  List.filter (fun r =>
    bool_decide (Models.relationship_type r = rel)
    && existsb (fun s => is_node sty sname s
                         && Nat.eqb (Models.source_node_id r) (Models.nid s)) nodes
    && existsb (fun t => is_node tty tname t
                         && Nat.eqb (Models.target_node_id r) (Models.nid t)) nodes)
    edges.

Definition of_kind (rel : Models.RelationshipType)
    (edges : list Models.KGRelationship) : list Models.KGRelationship :=
  List.filter (fun r => bool_decide (Models.relationship_type r = rel)) edges.


(** ** Containment *)

(** The ends and the kind of a relationship. *)
Definition shape (r : Models.KGRelationship)
  : Models.UUID * Models.UUID * Models.RelationshipType :=
  (Models.source_node_id r, Models.target_node_id r, Models.relationship_type r).


(** The nodes that have the file path of [n]. *)
Definition file_nodes (nodes : list Models.KGNode) (n : Models.KGNode)
  : list Models.KGNode :=
  List.filter (fun m => eqb (Models.file_path m) (Models.file_path n)) nodes.





(** ** File filtering *)

(** A path that [filter_files] includes: the filter accepts it without a
    size, and when target languages are given its lower-cased suffix is an
    inclusion of one of them. *)
Definition included_by (self : FileFilter.t) (target_languages : option (list string))
    (file_path : string) : bool :=
  FileFilter.should_parse_file self file_path None
  && (negb (FileFilter.given target_languages)
      || existsb (fun lang =>
                    bool_decide (lower (PyPath.suffix file_path)
                                 ∈ FileFilter.get_language_specific_inclusions self lang))
                 (default [] target_languages)).


(** ** The output of the file parser *)

(** The kind of the relationship that the parser makes to a node. *)
Definition parser_edge_kind (n : Models.KGNode) : Models.RelationshipType :=
  match Models.node_type n with
  | Models.IMPORT => Models.IMPORTS
  | _ => Models.CONTAINS
  end.

(** What every node of a parsed file carries. *)
Definition of_file (file_path language : string) (repository_id : Models.UUID)
    (n : Models.KGNode) : Prop :=
  Models.file_path n = file_path
  /\ Models.kg_repository_id n = repository_id
  /\ Models.language n = language
  /\ Models.line_end n = None.

(** A node found on a line of the file. *)
Definition on_a_line (n : Models.KGNode) : Prop :=
  Models.node_type n <> Models.FILE
  /\ exists l, Models.line_start n = Some l /\ (1 <= l)%Z.

(** The nodes and relationships that grow around a file node: the file
    node comes first, and there is one relationship, from the file node,
    to each of the other nodes, in their order. *)
Definition star_from (file_node : Models.KGNode) (file_path language : string)
    (repository_id : Models.UUID)
    (out : list Models.KGNode * list Models.KGRelationship) : Prop :=
  exists others,
    out.1 = file_node :: others
    /\ Forall (of_file file_path language repository_id) others
    /\ Forall on_a_line others
    /\ List.map shape out.2
       = List.map (fun n => (Models.nid file_node, Models.nid n, parser_edge_kind n))
                  others
    /\ Forall (fun r => Qeq (Models.confidence_score r) 1) out.2.

Definition star (file_path language : string) (repository_id : Models.UUID)
    (out : list Models.KGNode * list Models.KGRelationship) : Prop :=
  exists file_node,
    Models.node_type file_node = Models.FILE
    /\ Models.node_name file_node = PyPath.name file_path
    /\ Models.line_start file_node = None
    /\ of_file file_path language repository_id file_node
    /\ star_from file_node file_path language repository_id out.

(** ** Nodes by line *)

(** A node that starts on a line not after [line_num]; line 0 counts as no
    line. *)
Definition starts_by (line_num : Z) (n : Models.KGNode) : Prop :=
  exists s, Models.line_start n = Some s /\ s <> 0%Z /\ (s <= line_num)%Z.

(** [node.line_end or node.line_start] *)
Definition last_line (n : Models.KGNode) : Z :=
  if Models.truthy (Models.line_end n) then Models.or0 (Models.line_end n)
  else Models.or0 (Models.line_start n).

(** Another node, with a first and a last line, that starts before [node]
    and ends after it. *)
Definition strictly_encloses (node candidate : Models.KGNode) : Prop :=
  Models.node_id candidate <> Models.node_id node
  /\ Models.truthy (Models.line_start node) = true
  /\ Models.truthy (Models.line_start candidate) = true
  /\ Models.truthy (Models.line_end candidate) = true
  /\ (Models.or0 (Models.line_start candidate)
      < Models.or0 (Models.line_start node))%Z
  /\ (last_line node < Models.or0 (Models.line_end candidate))%Z.

(** ** Relationships of the graph builder *)

(** What holds of the ends [s] and [t] of a relationship of each kind that
    the graph builder makes, with the confidence it gives to the kind. *)
Definition kind_rule (r : Models.KGRelationship) (s t : Models.KGNode) : Prop :=
  match Models.relationship_type r with
  | Models.CALLS =>
      Models.confidence_score r = (8 # 10)%Q
      /\ Models.node_id s <> Models.node_id t
      /\ Models.file_path s = Models.file_path t
  | Models.INHERITS =>
      Models.confidence_score r = (9 # 10)%Q
      /\ Models.node_type s = Models.CLASS
      /\ Models.file_path s = Models.file_path t
  | Models.IMPLEMENTS =>
      Models.confidence_score r = (9 # 10)%Q
      /\ Models.file_path s = Models.file_path t
  | Models.IMPORTS =>
      Models.confidence_score r = (7 # 10)%Q
      /\ Models.node_type s = Models.IMPORT
      /\ (Models.node_type t = Models.FILE \/ Models.node_type t = Models.MODULE)
  | Models.USES =>
      Models.confidence_score r = (6 # 10)%Q
      /\ Models.file_path s <> Models.file_path t
  | Models.CONTAINS =>
      Models.confidence_score r = 1%Q
      /\ Models.node_type t <> Models.FILE
      /\ Models.file_path s = Models.file_path t
  | _ => False
  end.

(** A relationship between two of the given nodes that follows the rule of
    its kind. *)
Definition well_formed (nodes : list Models.KGNode) (r : Models.KGRelationship)
  : Prop :=
  exists s t,
    In s nodes /\ In t nodes
    /\ Models.source_node_id r = Models.nid s
    /\ Models.target_node_id r = Models.nid t
    /\ kind_rule r s t.

(** ** Dependencies *)

(** Some relationship of kind depends_on, imports or uses goes from the
    node with the identifier [u] to the node with the identifier [v]. *)
Definition depends (relationships : list Models.KGRelationship) (u v : string)
  : Prop :=
  exists rel,
    In rel relationships
    /\ GraphBuilder.is_dependency rel = true
    /\ u = pretty (Models.source_node_id rel)
    /\ v = pretty (Models.target_node_id rel).

(** ** Counts *)

(** The relationships of kind calls or uses that start, or end, at the
    node with the identifier [id]. *)
Definition coupling_out (relationships : list Models.KGRelationship) (id : string)
  : nat :=
  List.length
    (List.filter (fun rel => GraphBuilder.is_coupling rel
                             && eqb (pretty (Models.source_node_id rel)) id)
                 relationships).

Definition coupling_in (relationships : list Models.KGRelationship) (id : string)
  : nat :=
  List.length
    (List.filter (fun rel => GraphBuilder.is_coupling rel
                             && eqb (pretty (Models.target_node_id rel)) id)
                 relationships).

(** The value under a key of a dictionary of counts, 0 when the key is
    missing, and the sum of the values. *)
Definition count_of (k : string) (d : list (string * nat)) : nat :=
  default 0 (GraphBuilder.dict_get k d).

Definition total (d : list (string * nat)) : nat :=
  list_sum (List.map snd d).

(** ** Queries *)

(** A relationship of a kind that the query asks for: any kind when it
    names none. *)
Definition kind_requested (query : Models.GraphQuery) (rel : Models.KGRelationship)
  : Prop :=
  Models.relationship_types query = []
  \/ In (Models.relationship_type rel) (Models.relationship_types query).

(** The relationships that end, or start, at the node with the identifier
    [k], of any kind. *)
Definition refs_in (relationships : list Models.KGRelationship) (k : string) : nat :=
  List.length
    (List.filter (fun rel => eqb (pretty (Models.target_node_id rel)) k) relationships).

Definition refs_out (relationships : list Models.KGRelationship) (k : string) : nat :=
  List.length
    (List.filter (fun rel => eqb (pretty (Models.source_node_id rel)) k) relationships).

(** A relationship both of whose ends are found among the nodes, and one
    whose ends are found in the same file. *)
Definition joins_known (nodes : list Models.KGNode) (rel : Models.KGRelationship)
  : bool :=
  bool_decide
    (is_Some (KnowledgeGraphService.node_with_id nodes (Models.source_node_id rel))
     /\ is_Some (KnowledgeGraphService.node_with_id nodes (Models.target_node_id rel))).

Definition within_file (nodes : list Models.KGNode) (rel : Models.KGRelationship)
  : bool :=
  match KnowledgeGraphService.node_with_id nodes (Models.source_node_id rel),
        KnowledgeGraphService.node_with_id nodes (Models.target_node_id rel) with
  | Some source_node, Some target_node =>
      eqb (Models.file_path source_node) (Models.file_path target_node)
  | _, _ => false
  end.

(** ** Results of a parse job *)

(** Every file counts once, as parsed or as failed, and there is a file. *)
Definition counts_add_up (st : Models.ParseStatistics) : Prop :=
  0 < Models.st_total_files st
  /\ (0 <= Models.st_parsed_files st)%Z
  /\ (Models.st_parsed_files st + Z.of_nat (Models.st_failed_files st)
      = Z.of_nat (Models.st_total_files st))%Z.

(** A result of the job for the source [id]: a success names the source
    and a repository, and has statistics and no error; a failure has an
    error and no statistics. *)
Definition job_result (id : Models.UUID) (res : Models.ParseResult) : Prop :=
  if Models.pr_success res
  then Models.pr_kg_source_id res = Some id
       /\ is_Some (Models.pr_kg_repository_id res)
       /\ Models.pr_error res = None
       /\ exists st, Models.pr_statistics res = Some st /\ counts_add_up st
  else is_Some (Models.pr_error res) /\ Models.pr_statistics res = None.

(** ** Files of a repository *)

(** A file that passes the filters of [_read_repository_files]: its size is
    known, the parser would parse it, it is no larger than the limit, and
    its language is detected and, when languages are asked for, among
    them. *)
Definition accepted (self : KnowledgeGraphService.t)
    (language_filter : option (list string)) (max_file_size_kb : Z)
    (f : TreeSitterParser.repo_file) : bool :=
  match TreeSitterParser.rf_size f with
  | None => false
  | Some size =>
      TreeSitterParser.should_parse_file (KnowledgeGraphService.parser self)
        (TreeSitterParser.rf_path f) (Some size)
      && (size <=? max_file_size_kb * 1024)%Z
      && match TreeSitterParser.detect_language (KnowledgeGraphService.parser self)
                 (TreeSitterParser.rf_path f) with
         | Some language =>
             nonempty language
             && match language_filter with
                | Some (l :: ls) => mem language (l :: ls)
                | _ => true
                end
         | None => false
         end
  end.

(** ** Cycles of a dependency graph *)

Definition edge (g : GraphBuilder.graph) (u v : string) : Prop :=
  In v (GraphBuilder.successors g u).

(** Consecutive nodes are joined by edges. *)
Fixpoint is_walk (g : GraphBuilder.graph) (p : list string) : Prop :=
  match p with
  | u :: ((v :: _) as r) => edge g u v /\ is_walk g r
  | _ => True
  end.

(** A cycle, written with its first node repeated at the end. *)
Definition is_cycle (g : GraphBuilder.graph) (c : list string) : Prop :=
  exists x body, c = x :: (body ++ [x])%list /\ is_walk g c.

(** A cycle that passes no node twice. *)
Definition simple_cycle (g : GraphBuilder.graph) (c : list string) : Prop :=
  exists x body, c = x :: (body ++ [x])%list /\ is_walk g c /\ NoDup (x :: body).

(** A DAG: no cycle. *)
Definition acyclic (g : GraphBuilder.graph) : Prop :=
  forall c, ~ is_cycle g c.

Definition same_vertices (c1 c2 : list string) : Prop :=
  forall x, In x c1 <-> In x c2.

Definition same_vertices_b (c1 c2 : list string) : bool :=
  forallb (fun x => mem x c2) c1 && forallb (fun x => mem x c1) c2.

(** Some reported cycle has the nodes of [c]. *)
Definition covered (reported : list (list string)) (c : list string) : bool :=
  existsb (fun r => same_vertices_b r c) reported.

(** The cycles of length two of the complete graph on A, B, C. *)
Definition two_cycles : list (list string) :=
  [["A"; "B"; "A"]; ["A"; "C"; "A"]; ["B"; "C"; "B"]].

(** A cycle of length two that no reported cycle covers. *)
Definition uncovered_two_cycle (g : GraphBuilder.graph) : option (list string) :=
  match GraphBuilder._detect_cycles g with
  | Some reported => List.find (fun c => negb (covered reported c)) two_cycles
  | None => None
  end.

End Spec.

(* ===================================================================== *)
(** * Invariants used in the proofs *)
(* ===================================================================== *)

Module Invariants.
Import GraphBuilder Spec.

(** The state of the search when [dfs] is entered with [path]: the recursion
    stack holds the nodes of [path], which is a walk without repetition;
    what has been reported are simple cycles; and as long as nothing has
    been reported, no cycle passes through a node whose visit is over. *)
Record dfs_inv (g : graph) (path : list string) (st : dfs_state) : Prop := {
  inv_stack : forall x, x ∈ rec_stack st <-> In x path;
  inv_visited : rec_stack st ⊆ visited st;
  inv_nodup : NoDup path;
  inv_walk : is_walk g path;
  inv_cycles : forall c, In c (cycles st) -> simple_cycle g c;
  inv_finished :
    cycles st = [] ->
    forall c, is_cycle g c -> forall x, In x c -> x ∈ visited st -> x ∈ rec_stack st;
}.

(** ** Results *)

(** Whenever a run of [m] returns, [Q] holds for what it returns. *)
Definition returns {A} (Q : A -> Prop) (m : Py.M A) : Prop :=
  forall w, match m w with (Py.Ok a, _) => Q a | _ => True end.

(** Every run of [m] returns, and [Q] holds for what it returns. *)
Definition always_returns {A} (Q : A -> Prop) (m : Py.M A) : Prop :=
  forall w, exists a w', m w = (Py.Ok a, w') /\ Q a.

(** ** Cancellation *)

(** A stretch of a run during which no cancellation is seen: events are
    added, none of them a cancellation, and no source row disappears. *)
Definition quiet (w w' : Py.world) : Prop :=
  (exists evs, Py.events w' = (evs ++ Py.events w)%list /\ ~ In Py.ECancelled evs)
  /\ incl (List.map Models.src_id (Py.kg_sources w))
          (List.map Models.src_id (Py.kg_sources w')).

(** A stretch of a run that ends when a cancellation is seen. *)
Definition cancelled_once (w w' : Py.world) : Prop :=
  (exists evs, Py.events w' = (Py.ECancelled :: evs ++ Py.events w)%list
               /\ ~ In Py.ECancelled evs)
  /\ incl (List.map Models.src_id (Py.kg_sources w))
          (List.map Models.src_id (Py.kg_sources w')).

(** The source row [id] is there, failed, with the distinguished message. *)
Definition cancelled_row (id : Models.UUID) (w : Py.world) : Prop :=
  In id (List.map Models.src_id (Py.kg_sources w))
  /\ forall row, In row (Py.kg_sources w) -> Models.src_id row = id ->
       Models.parsing_status row = Models.FAILED
       /\ Models.parsing_error row = Some "Parsing was cancelled by user".

(** How a parse job for the source [id] that starts in [w] can end: without
    a cancellation, or with the result of the cancellation handler, the
    cancellation as the latest event, and the source row failed. *)
Definition job_outcome (id : Models.UUID) (w : Py.world)
    (out : Py.result Models.ParseResult * Py.world) : Prop :=
  quiet w out.2
  \/ (cancelled_once w out.2
      /\ (exists res, out.1 = Py.Ok res
                      /\ Models.pr_success res = false
                      /\ Models.pr_kg_source_id res = Some id
                      /\ Models.pr_error res = Some "Operation was cancelled by user")
      /\ cancelled_row id out.2).

(** What a call [dfs(node, path)] that starts in [st] leaves in [st']. *)
Record dfs_post (g : graph) (path : list string) (node : string)
    (st st' : dfs_state) : Prop := {
  post_stack : rec_stack st' = rec_stack st;
  post_visited : visited st ⊆ visited st';
  post_node : node ∈ visited st';
  post_inv : dfs_inv g path st';
  post_quiet : cycles st' = [] -> cycles st = [] /\ node ∉ rec_stack st';
}.

(** ** The source row of a job *)

(** A stretch of a run that leaves the source rows as they are. *)
Definition same_sources (w w' : Py.world) : Prop :=
  Py.kg_sources w' = Py.kg_sources w.

(** The source rows [id] of the store, against the result of the job that
    has created them.  There is such a row.  After a success the rows are
    completed, with the totals of the statistics; after a failure that
    names the source they are failed, with an error; and a failure that
    names no source has left a row pending. *)
Definition stored_outcome (id : Models.UUID) (res : Models.ParseResult)
    (w : Py.world) : Prop :=
  In id (List.map Models.src_id (Py.kg_sources w))
  /\ (Models.pr_success res = true ->
      forall row, In row (Py.kg_sources w) -> Models.src_id row = id ->
        Models.parsing_status row = Models.COMPLETED
        /\ exists st,
             Models.pr_statistics res = Some st
             /\ Models.total_nodes_created row = Z.of_nat (Models.st_total_nodes st)
             /\ Models.total_relationships_created row
                = Z.of_nat (Models.st_total_relationships st))
  /\ (Models.pr_success res = false -> Models.pr_kg_source_id res = Some id ->
      forall row, In row (Py.kg_sources w) -> Models.src_id row = id ->
        Models.parsing_status row = Models.FAILED
        /\ is_Some (Models.parsing_error row))
  /\ (Models.pr_kg_source_id res = None ->
      Models.pr_success res = false
      /\ exists row, In row (Py.kg_sources w) /\ Models.src_id row = id
                     /\ Models.parsing_status row = Models.PENDING).

(** The nodes of the graph, as a set. *)
Definition vertex_set (g : graph) : gset string := list_to_set (vertices g).

End Invariants.

(* ===================================================================== *)
(** * Properties *)
(* ===================================================================== *)

Import PyStr Models Py.

(** ** Complexity scoring *)

Lemma dict_get_In {A} (k : string) (d : list (string * A)) (v : A) :
  TreeSitterParser.dict_get k d = Some v -> In (k, v) d.
Proof.
  induction d as [|[k' v'] d IH]; simpl; [discriminate|].
  destruct (eqb k k') eqn:E.
  - intros [= ->]. apply String.eqb_eq in E. subst. now left.
  - intros H. right. auto.
Qed.


Lemma eqb_true (s t : string) : eqb s t = true <-> s = t.
Proof. apply String.eqb_eq. Qed.


Lemma eqb_same (s : string) : eqb s s = true.
Proof. apply String.eqb_refl. Qed.

Lemma mem_true (x : string) (l : list string) : mem x l = true <-> In x l.
Proof.
  unfold mem. rewrite existsb_exists. split.
  - intros (y & Hy & E). apply eqb_true in E. now subst.
  - intros H. exists x. split; [assumption|apply eqb_same].
Qed.




(** ** The file filter *)

Lemma existsb_In {A} (f : A -> bool) (l : list A) (x : A) :
  In x l -> f x = true -> existsb f l = true.
Proof. intros. apply existsb_exists. eauto. Qed.

Lemma filter_rejects_oversize (self : FileFilter.t) (path : string) (sz : Z) :
  (FileFilter.max_file_size_kb self * 1024 < sz)%Z ->
  FileFilter.should_parse_file self path (Some sz) = false.
Proof.
  intros H. unfold FileFilter.should_parse_file.
  apply Z.ltb_lt in H. now rewrite H.
Qed.

Lemma filter_rejects_excluded_directory (self : FileFilter.t) (path : string)
    (sz : option Z) (part : string) :
  In part (PyPath.parts path) ->
  lower part ∈ FileFilter.excluded_directories self ->
  FileFilter.should_parse_file self path sz = false.
Proof.
  intros Hin Hex. unfold FileFilter.should_parse_file.
  destruct (match sz with Some s => _ | None => false end); [reflexivity|].
  unfold FileFilter._is_in_excluded_directory.
  rewrite (existsb_In _ _ part Hin); [reflexivity|].
  unfold FileFilter.part_excluded. now rewrite bool_decide_eq_true_2.
Qed.

(** The three priority branches of the Python rule come to one test. *)
Lemma should_parse_python_rule (path : string) (sz : option Z) :
  TreeSitterParser.should_parse_python path sz
  = negb (truthy sz && (500 * 1024 <? or0 sz)%Z)
    && negb (existsb (fun prob_dir =>
                        contains ("/" +:+ prob_dir +:+ "/") (lower (PyPath.to_str path))
                        || endswith ("/" +:+ prob_dir) (lower (PyPath.to_str path)))
                     TreeSitterParser.problematic_dirs)
    && negb (TreeSitterParser.is_test_file (lower (PyPath.name path))
                                           (PyPath.parts path)).
Proof.
  unfold TreeSitterParser.should_parse_python.
  destruct (truthy sz && _); [reflexivity|].
  destruct (existsb _ TreeSitterParser.problematic_dirs); [reflexivity|].
  cbv zeta.
  destruct (TreeSitterParser.is_test_file _ _); simpl.
  - now rewrite !andb_false_r.
  - repeat match goal with |- context [if ?b then _ else _] => destruct b end;
      reflexivity.
Qed.

(** C10 (as amended). [FileFilter.should_parse_file] rejects every path
    whose size exceeds [max_file_size_kb * 1024] bytes and every path with a
    component whose lower-cased name is an excluded directory.  The decision
    of the parser hands the files of every detected language but Python to
    that filter; a Python file it rejects exactly when it is over 500 KB,
    lies under one of six problematic directories or is test-like.  Both
    reject node_modules/x/index.js at 10 KB and src/main/app.py at 600 KB,
    both accept src/main/app.py at 10 KB, and the parser rejects
    tests/test_app.py whatever its size. *)
Theorem file_filter_decision :
  (forall (self : FileFilter.t) (path : string) (sz : Z),
      (FileFilter.max_file_size_kb self * 1024 < sz)%Z ->
      FileFilter.should_parse_file self path (Some sz) = false)
  /\ (forall (self : FileFilter.t) (path : string) (sz : option Z) (part : string),
      In part (PyPath.parts path) ->
      lower part ∈ FileFilter.excluded_directories self ->
      FileFilter.should_parse_file self path sz = false)
  /\ (forall (path : string) (sz : option Z) (language : string),
      TreeSitterParser.detect_language TreeSitterParser.init path = Some language ->
      language <> "python" ->
      TreeSitterParser.should_parse_file TreeSitterParser.init path sz
      = FileFilter.should_parse_file FileFilter.init path sz)
  /\ (forall (path : string) (sz : option Z),
      TreeSitterParser.detect_language TreeSitterParser.init path = Some "python" ->
      TreeSitterParser.should_parse_file TreeSitterParser.init path sz
      = negb (truthy sz && (500 * 1024 <? or0 sz)%Z)
        && negb (existsb (fun prob_dir =>
                   contains ("/" +:+ prob_dir +:+ "/") (lower (PyPath.to_str path))
                   || endswith ("/" +:+ prob_dir) (lower (PyPath.to_str path)))
                 TreeSitterParser.problematic_dirs)
        && negb (TreeSitterParser.is_test_file (lower (PyPath.name path))
                                               (PyPath.parts path)))
  /\ FileFilter.should_parse_file FileFilter.init "node_modules/x/index.js"
       (Some (10 * 1024)%Z) = false
  /\ TreeSitterParser.should_parse_file TreeSitterParser.init "node_modules/x/index.js"
       (Some (10 * 1024)%Z) = false
  /\ FileFilter.should_parse_file FileFilter.init "src/main/app.py"
       (Some (600 * 1024)%Z) = false
  /\ TreeSitterParser.should_parse_file TreeSitterParser.init "src/main/app.py"
       (Some (600 * 1024)%Z) = false
  /\ FileFilter.should_parse_file FileFilter.init "src/main/app.py"
       (Some (10 * 1024)%Z) = true
  /\ TreeSitterParser.should_parse_file TreeSitterParser.init "src/main/app.py"
       (Some (10 * 1024)%Z) = true
  /\ (forall sz : option Z,
      TreeSitterParser.should_parse_file TreeSitterParser.init "tests/test_app.py" sz
      = false).
Proof.
  split; [exact filter_rejects_oversize|].
  split; [exact filter_rejects_excluded_directory|].
  split.
  { intros path sz language Hd Hne. unfold TreeSitterParser.should_parse_file.
    rewrite Hd. destruct (eqb language "python") eqn:E; [|reflexivity].
    apply eqb_true in E. contradiction. }
  split.
  { intros path sz Hd. unfold TreeSitterParser.should_parse_file.
    rewrite Hd. rewrite eqb_same. apply should_parse_python_rule. }
  repeat (split; [vm_compute; reflexivity|]).
  intros sz. unfold TreeSitterParser.should_parse_file.
  replace (TreeSitterParser.detect_language TreeSitterParser.init "tests/test_app.py")
    with (Some "python") by (vm_compute; reflexivity).
  rewrite eqb_same, should_parse_python_rule.
  replace (TreeSitterParser.is_test_file _ _) with true by (vm_compute; reflexivity).
  now rewrite andb_false_r.
Qed.

Lemma file_filter_decision_witness :
  FileFilter.should_parse_file FileFilter.init "lib/big.js" (Some 600000%Z) = false
  /\ FileFilter.should_parse_file FileFilter.init "Vendor/lib/a.js" None = false
  /\ TreeSitterParser.should_parse_file TreeSitterParser.init "lib/a.js" None
     = FileFilter.should_parse_file FileFilter.init "lib/a.js" None
  /\ TreeSitterParser.should_parse_file TreeSitterParser.init "pkg/build/a.py" None = false.
Proof.
  destruct file_filter_decision as (Hsize & Hdir & Hother & Hpy & _).
  split; [apply Hsize; vm_compute; reflexivity|].
  split; [apply (Hdir _ _ _ "Vendor");
          [vm_compute; auto | compute_done]|].
  split; [apply (Hother _ _ "javascript"); [vm_compute; reflexivity|discriminate]|].
  rewrite Hpy; vm_compute; reflexivity.
Defined.

(** C10, the claim as stated: a Python file under an excluded directory is
    accepted by the decision of the parser, and the excluded directory
    [.DS_Store], which no lower-cased component can equal, is not rejected by
    the filter either. *)
Lemma file_filter_counterexample :
  (In "venv" (PyPath.parts "venv/app.py")
   /\ "venv" ∈ FileFilter.excluded_directories FileFilter.init
   /\ TreeSitterParser.should_parse_file TreeSitterParser.init "venv/app.py"
        (Some (10 * 1024)%Z) = true)
  /\ (In ".DS_Store" (PyPath.parts ".DS_Store/app.py")
      /\ ".DS_Store" ∈ FileFilter.excluded_directories FileFilter.init
      /\ FileFilter.should_parse_file FileFilter.init ".DS_Store/app.py"
           (Some (10 * 1024)%Z) = true
      /\ TreeSitterParser.should_parse_file TreeSitterParser.init ".DS_Store/app.py"
           (Some (10 * 1024)%Z) = true).
Proof.
  repeat split; try (vm_compute; auto; fail); compute_done.
Qed.

(** ** What runs do to the world *)

Section Respects.
Context (I C : world -> world -> Prop).
Hypothesis I_refl : forall w, I w w.
Hypothesis I_trans : forall a b c, I a b -> I b c -> I a c.
Hypothesis I_C : forall a b c, I a b -> C b c -> C a c.
Hypothesis I_uuid : forall w, I w (set_next_uuid (S (next_uuid w)) w).

Lemma respects_ret {A} (a : A) : respects I C (ret a).
Proof. intros w. apply I_refl. Qed.

Lemma respects_raise {A} (cls msg : string) :
  respects I C (raise (A := A) (Exception cls msg)).
Proof. intros w. apply I_refl. Qed.

Lemma respects_bind {A B} (m : M A) (k : A -> M B) :
  respects I C m -> (forall a, respects I C (k a)) -> respects I C (bind m k).
Proof.
  intros Hm Hk w. unfold bind. specialize (Hm w).
  destruct (m w) as [[a|[cls msg|msg]] w1]; try assumption.
  specialize (Hk a w1).
  destruct (k a w1) as [[b|[cls msg|msg]] w2]; eauto.
Qed.

Lemma respects_try_except {A} (m : M A) (h : string -> string -> M A) :
  respects I C m -> (forall cls msg, respects I C (h cls msg)) ->
  respects I C (try_except m h).
Proof.
  intros Hm Hh w. unfold try_except. specialize (Hm w).
  destruct (m w) as [[a|[cls msg|msg]] w1]; try assumption.
  specialize (Hh cls msg w1).
  destruct (h cls msg w1) as [[b|[cls' msg'|msg']] w2]; eauto.
Qed.

Lemma respects_uuid4 : respects I C uuid4.
Proof. intros w. apply I_uuid. Qed.

Lemma respects_index {A} (l : list A) (i : nat) : respects I C (index l i).
Proof.
  unfold index. destruct (nth_error l i);
    [apply respects_ret|apply respects_raise].
Qed.

Lemma respects_fold_m {A B} (body : B -> A -> M B) (l : list A) (acc : B) :
  (forall acc x, respects I C (body acc x)) -> respects I C (fold_m body l acc).
Proof.
  intros Hb. revert acc. induction l as [|x l IH]; intros acc; simpl.
  - apply respects_ret.
  - apply respects_bind; auto.
Qed.

Lemma respects_str_index0 (s : string) :
  respects I C (TreeSitterParser.str_index0 s).
Proof.
  unfold TreeSitterParser.str_index0. destruct (first_char s);
    [apply respects_ret|apply respects_raise].
Qed.

Lemma respects_tuple_getattr {A} (attr : string) :
  respects I C (TreeSitterParser.tuple_getattr (A := A) attr).
Proof. apply respects_raise. Qed.

(** The steps of a proof that a composite run respects [I] and [C]. *)
Ltac respects_step :=
  lazymatch goal with
  | |- respects _ _ (bind _ _) => apply respects_bind; [|intros]
  | |- respects _ _ (ret _) => apply respects_ret
  | |- respects _ _ (raise (Exception _ _)) => apply respects_raise
  | |- respects _ _ uuid4 => apply respects_uuid4
  | |- respects _ _ (index _ _) => apply respects_index
  | |- respects _ _ (TreeSitterParser.str_index0 _) => apply respects_str_index0
  | |- respects _ _ (TreeSitterParser.tuple_getattr _) => apply respects_tuple_getattr
  | |- respects _ _ (try_except _ _) => apply respects_try_except; [|intros]
  | |- respects _ _ (fold_m _ _ _) => apply respects_fold_m; intros
  | |- respects _ _ (if ?b then _ else _) => destruct b
  | |- respects _ _ (match ?x with _ => _ end) => destruct x
  | |- respects _ _ (let _ := _ in _) => cbv zeta
  end.

Ltac respects_with tac := cbv zeta; repeat (first [assumption | respects_step | tac]).
Ltac respects_auto := respects_with fail.

Section with_probe.
Context (cancellation_check : option (M unit)).
Hypothesis probe_ok : respects I C (call_opt cancellation_check).

Lemma respects_oo_loop (self : TreeSitterParser.t) (file_path language : string)
    (repository_id : UUID) (file_node : KGNode) (rest : list string) :
  forall i acc,
    respects I C (TreeSitterParser.oo_loop self file_path language repository_id
                    cancellation_check file_node i rest acc).
Proof.
  induction rest as [|line tl IH]; intros i acc; simpl.
  - apply respects_ret.
  - apply respects_bind; [|intros; apply IH].
    unfold TreeSitterParser.oo_step. respects_auto.
Qed.

Lemma respects_emit_function (self : TreeSitterParser.t) (file_path language : string)
    (repository_id : UUID) (file_node : KGNode) (i : nat) (line original_line : string)
    (tl : list string) (func_name : string) (props : M (jdict * bool))
    (acc : TreeSitterParser.parsed) :
  respects I C props ->
  respects I C (TreeSitterParser.emit_function self file_path language repository_id
                  file_node i line original_line tl func_name props acc).
Proof. intros Hp. unfold TreeSitterParser.emit_function. respects_auto. Qed.

Lemma respects_proc_loop (self : TreeSitterParser.t) (file_path language : string)
    (repository_id : UUID) (file_node : KGNode) (rest : list string) :
  forall i acc,
    respects I C (TreeSitterParser.proc_loop self file_path language repository_id
                    cancellation_check file_node i rest acc).
Proof.
  induction rest as [|line tl IH]; intros i acc; simpl.
  - apply respects_ret.
  - apply respects_bind; [|intros; apply IH].
    unfold TreeSitterParser.proc_step.
    respects_with ltac:(apply respects_emit_function).
Qed.

Lemma respects_basic_loop (file_path language : string)
    (repository_id : UUID) (file_node : KGNode) (rest : list string) :
  forall i acc,
    respects I C (TreeSitterParser.basic_loop file_path language repository_id
                    cancellation_check file_node i rest acc).
Proof.
  induction rest as [|line tl IH]; intros i acc; simpl.
  - apply respects_ret.
  - apply respects_bind; [|intros; apply IH].
    unfold TreeSitterParser.basic_step, TreeSitterParser.emit_variable.
    respects_auto.
Qed.

Lemma respects_parse_by_language (self : TreeSitterParser.t)
    (language content file_path : string) (repository_id : UUID) :
  respects I C (TreeSitterParser.parse_by_language self language content file_path
                  repository_id cancellation_check).
Proof.
  unfold TreeSitterParser.parse_by_language,
    TreeSitterParser._parse_object_oriented_file,
    TreeSitterParser._parse_procedural_file, TreeSitterParser._parse_basic_file.
  respects_with ltac:(first [apply respects_oo_loop | apply respects_proc_loop
                            | apply respects_basic_loop]).
Qed.

Lemma respects_parse_file (self : TreeSitterParser.t) (file_path content : string)
    (repository_id : UUID) :
  respects I C (TreeSitterParser.parse_file self file_path content repository_id
                  None cancellation_check).
Proof.
  unfold TreeSitterParser.parse_file, TreeSitterParser.parse_body,
    TreeSitterParser.notify.
  respects_with ltac:(apply respects_parse_by_language).
Qed.

End with_probe.
End Respects.

(** ** [parse_file] *)



(** ** [TreeSitterParser.parse_repository] *)

(** Without a cancellation probe, [parse_file] raises no [CancelledError]. *)
Lemma parse_file_never_cancelled (self : TreeSitterParser.t)
    (file_path content : string) (repository_id : UUID) (w : world) :
  (exists out w',
      TreeSitterParser.parse_file self file_path content repository_id None None w
      = (Ok out, w'))
  \/ (exists cls msg w',
      TreeSitterParser.parse_file self file_path content repository_id None None w
      = (Raise (Exception cls msg), w')).
Proof.
  assert (H : respects (fun _ _ => True) (fun _ _ => False)
                (TreeSitterParser.parse_file self file_path content repository_id
                   None None)).
  { apply respects_parse_file; auto. intros w0. exact Logic.I. }
  specialize (H w).
  destruct (TreeSitterParser.parse_file self file_path content repository_id None None w)
    as [[out|[cls msg|msg]] w'].
  - left. eauto.
  - right. eauto.
  - destruct H.
Qed.

(** Every iteration of phase 3 ends in the handler of its [try]. *)
Lemma parse_one_is_skipped (self : TreeSitterParser.t) (repository_id : UUID)
    (f : TreeSitterParser.repo_file) (st : TreeSitterParser.repo_statistics)
    (w : world) :
  exists msg w',
    try_except (TreeSitterParser.parse_one self repository_id None f st)
               (fun _ msg => ret (TreeSitterParser.skip_file st f msg)) w
    = (Ok (TreeSitterParser.skip_file st f msg), w').
Proof.
  unfold try_except, TreeSitterParser.parse_one, bind.
  destruct (TreeSitterParser.rf_read f) as [content|msg]; simpl.
  - destruct (parse_file_never_cancelled self (TreeSitterParser.rf_path f) content
                repository_id w) as [(out & w' & E)|(cls & msg & w' & E)];
      rewrite E; simpl; eauto.
  - eauto.
Qed.

Lemma parse_files_skips (self : TreeSitterParser.t) (repository_id : UUID)
    (files : list TreeSitterParser.repo_file) :
  forall (st : TreeSitterParser.repo_statistics) (w : world),
  exists st' w',
    TreeSitterParser.parse_files self repository_id None files st w
    = (Ok ([], [], st'), w')
    /\ TreeSitterParser.parsed_files st' = TreeSitterParser.parsed_files st
    /\ TreeSitterParser.total_nodes st' = TreeSitterParser.total_nodes st
    /\ TreeSitterParser.files_to_parse st' = TreeSitterParser.files_to_parse st
    /\ TreeSitterParser.skipped_files st'
       = TreeSitterParser.skipped_files st + List.length files.
Proof.
  induction files as [|f files IH]; intros st w; simpl.
  - exists st, w. repeat split; auto.
  - unfold bind.
    destruct (parse_one_is_skipped self repository_id f st w) as (msg & w1 & E).
    rewrite E.
    destruct (IH (TreeSitterParser.skip_file st f msg) w1)
      as (st' & w' & E' & Hp & Hn & Hf & Hs).
    exists st', w'. rewrite E'. simpl in *. repeat split; auto. lia.
Qed.

(** C4. Whatever the files under the repository path and the filters,
    [parse_repository] returns empty node and relationship lists, and its
    statistics count no parsed file and no node, and as many skipped files
    as were selected for parsing: every file ends in the exception handler
    of its iteration. *)
Theorem parse_repository_skips_every_file (self : TreeSitterParser.t)
    (all_files : list TreeSitterParser.repo_file) (repository_id : UUID)
    (file_filters : option (list string)) (w : world) :
  exists (st : TreeSitterParser.repo_statistics) (w' : world),
    TreeSitterParser.parse_repository self all_files repository_id file_filters None w
    = (Ok ([], [], st), w')
    /\ TreeSitterParser.parsed_files st = 0
    /\ TreeSitterParser.total_nodes st = 0
    /\ TreeSitterParser.skipped_files st
       = List.length (List.filter (TreeSitterParser.selected self file_filters) all_files)
    /\ TreeSitterParser.skipped_files st = TreeSitterParser.files_to_parse st.
Proof.
  unfold TreeSitterParser.parse_repository.
  match goal with
  | |- context [TreeSitterParser.parse_files _ _ _ ?fs ?st0 _] =>
      destruct (parse_files_skips self repository_id fs st0 w)
        as (st & w' & E & Hp & Hn & Hf & Hs)
  end.
  exists st, w'. simpl in *. repeat split; auto; lia.
Qed.

(** ** The graph builder on an empty node list *)

Lemma cross_file_scan_empty (file_contents : list (string * string))
    (cancellation_check : option (M unit)) :
  forall (acc : list KGRelationship) (w : world),
  fold_m (fun rels (fc : string * string) =>
            bind (call_opt cancellation_check) (fun _ =>
              match List.filter (fun node => eqb (Models.file_path node) fc.1) []
              with
              | [] => ret rels
              | _ :: _ as file_nodes =>
                  fold_m (GraphBuilder.link_reference fc.1 fc.2 file_nodes) [] rels
              end))
         file_contents acc w
  = bind (for_each file_contents (fun _ => call_opt cancellation_check))
         (fun _ => ret acc) w.
Proof.
  induction file_contents as [|fc fcs IH]; intros acc w.
  - reflexivity.
  - cbn [fold_m for_each]. unfold bind.
    destruct (call_opt cancellation_check w) as [[[]|e] w1]; [|reflexivity].
    exact (IH acc w1).
Qed.

Lemma build_relationships_empty_nodes (file_contents : list (string * string))
    (cancellation_check : option (M unit)) (w : world) :
  GraphBuilder.build_relationships [] file_contents cancellation_check w
  = bind (for_each file_contents (fun _ => call_opt cancellation_check))
         (fun _ => ret []) w.
Proof.
  unfold GraphBuilder.build_relationships,
    GraphBuilder._build_cross_file_relationships,
    GraphBuilder._build_containment_relationships.
  cbn [GraphBuilder.group_by_file fold_left fold_m List.filter].
  unfold bind at 1 2 3. unfold ret at 1 2.
  rewrite cross_file_scan_empty. unfold bind.
  destruct (for_each file_contents _ w) as [[[]|e] w1]; reflexivity.
Qed.

(** A probe of the service changes nothing in the store, and raises nothing
    but [CancelledError]. *)
Lemma check_cancellation_outcome (self : KnowledgeGraphService.t) (w : world) :
  exists r w',
    KnowledgeGraphService.check_cancellation self w = (r, w')
    /\ kg_relationships w' = kg_relationships w
    /\ kg_nodes w' = kg_nodes w
    /\ (r = Ok tt \/ exists msg, r = Raise (CancelledError msg)).
Proof.
  unfold KnowledgeGraphService.check_cancellation, cancellation_point.
  destruct (KnowledgeGraphService.cancelled _ _); eexists _, _;
    (split; [reflexivity|]); simpl; eauto.
Qed.

Lemma probes_outcome (self : KnowledgeGraphService.t) (A : Type) (l : list A) :
  forall w, exists r w',
    for_each l (fun _ => KnowledgeGraphService.check_cancellation self) w = (r, w')
    /\ kg_relationships w' = kg_relationships w
    /\ kg_nodes w' = kg_nodes w
    /\ (r = Ok tt \/ exists msg, r = Raise (CancelledError msg)).
Proof.
  induction l as [|x l IH]; intros w; simpl.
  - exists (Ok tt), w. auto.
  - unfold bind.
    destruct (check_cancellation_outcome self w) as (r & w1 & E & Hr & Hn & Hc).
    rewrite E. destruct Hc as [->|[msg ->]].
    + destruct (IH w1) as (r' & w' & E' & Hr' & Hn' & Hc').
      exists r', w'. rewrite E'.
      split; [reflexivity|]. split; [congruence|]. split; [congruence|assumption].
    + exists (Raise (CancelledError msg)), w1. eauto 6.
Qed.

(** C3. On an empty node list [build_relationships] does nothing but probe
    for cancellation once per file text, and returns no relationship; so the
    phase of the orchestrator that calls it leaves the running totals and
    the stored relationships as they were, and the whole job is the same
    whether [enable_cross_file_refs] is set or not. *)
Theorem empty_node_list_builds_nothing :
  (forall (file_contents : list (string * string)) (w : world),
      GraphBuilder.build_relationships [] file_contents None w = (Ok [], w))
  /\ (forall (file_contents : list (string * string))
             (cancellation_check : option (M unit)) (w : world),
      GraphBuilder.build_relationships [] file_contents cancellation_check w
      = bind (for_each file_contents (fun _ => call_opt cancellation_check))
             (fun _ => ret []) w)
  /\ (forall (self : KnowledgeGraphService.t)
             (file_contents : list (string * string))
             (tt : KnowledgeGraphService.totals) (w : world),
      KnowledgeGraphService.cross_file_phase self file_contents tt w
      = bind (for_each file_contents
                (fun _ => KnowledgeGraphService.check_cancellation self))
             (fun _ => ret tt) w
      /\ kg_relationships (KnowledgeGraphService.cross_file_phase self file_contents tt w).2
         = kg_relationships w)
  /\ (forall (self : KnowledgeGraphService.t) (request : ParseRequest) (b : bool)
             (progress_callback : KnowledgeGraphService.progress_cb) (w : world),
      KnowledgeGraphService.parse_repository self
        (with_enable_cross_file_refs b request) progress_callback w
      = KnowledgeGraphService.parse_repository self request progress_callback w).
Proof.
  split; [|split; [|split]].
  - intros file_contents w. rewrite build_relationships_empty_nodes.
    unfold bind.
    assert (E : forall w0, for_each file_contents (fun _ => call_opt None) w0 = (Ok tt, w0)).
    { induction file_contents as [|fc fcs IH]; intros w0; simpl; [reflexivity|].
      unfold bind. simpl. apply IH. }
    now rewrite E.
  - exact build_relationships_empty_nodes.
  - intros self file_contents tt w.
    destruct (probes_outcome self _ file_contents w) as (r & w' & E & Hr & Hn & Hc).
    assert (E0 : KnowledgeGraphService.cross_file_phase self file_contents tt w
                 = bind (for_each file_contents
                           (fun _ => KnowledgeGraphService.check_cancellation self))
                        (fun _ => ret tt) w).
    { unfold KnowledgeGraphService.cross_file_phase, try_except.
      unfold bind at 1. rewrite build_relationships_empty_nodes.
      unfold bind. simpl. rewrite E.
      destruct Hc as [->|[msg ->]]; reflexivity. }
    split; [exact E0|]. rewrite E0. unfold bind. rewrite E.
    destruct Hc as [->|[msg ->]]; exact Hr.
  - intros. reflexivity.
Qed.

(** ** [query_graph] *)

Lemma In_firstn {A} (n : nat) (l : list A) (x : A) : In x (List.firstn n l) -> In x l.
Proof.
  intros H. rewrite <- (firstn_skipn n l). apply in_or_app. now left.
Qed.

Lemma unique_by_id_spec (rels : list KGRelationship) :
  forall seen : list (option UUID),
    NoDup (List.map rel_id (KnowledgeGraphService.unique_by_id seen rels))
    /\ (forall r, In r (KnowledgeGraphService.unique_by_id seen rels) ->
                  (rel_id r ∉ seen) /\ In r rels).
Proof.
  induction rels as [|rel rels IH]; intros seen; simpl.
  - split; [constructor|]. intros r [].
  - destruct (bool_decide (rel_id rel ∈ seen)) eqn:E.
    + destruct (IH seen) as [Hnd Hin]. split; [assumption|].
      intros r Hr. destruct (Hin r Hr). auto.
    + apply bool_decide_eq_false in E.
      destruct (IH (rel_id rel :: seen)) as [Hnd Hin]. split.
      * simpl. constructor; [|assumption].
        intros Hx. apply list_elem_of_In, in_map_iff in Hx as (r & Hid & Hr).
        destruct (Hin r Hr) as [Hns _]. apply Hns. rewrite Hid. left.
      * intros r [<-|Hr]; [auto|].
        destruct (Hin r Hr) as [Hns Hr']. split; [|auto].
        intros Hx. apply Hns. now right.
Qed.

Lemma NoDup_map_filter {A B} (f : A -> B) (p : A -> bool) (l : list A) :
  NoDup (List.map f l) -> NoDup (List.map f (List.filter p l)).
Proof.
  induction l as [|x l IH]; simpl; intros H; [constructor|].
  apply NoDup_cons in H as [Hx Hl]. destruct (p x); simpl; [|auto].
  constructor; [|auto].
  intros Hin. apply Hx. apply list_elem_of_In in Hin.
  apply in_map_iff in Hin as (y & Hy & Hin). apply filter_In in Hin as [Hin _].
  apply list_elem_of_In, in_map_iff. eauto.
Qed.

Lemma in_ids_true (nodes : list KGNode) (id : UUID) :
  KnowledgeGraphService.in_ids (List.map nid nodes) id = true ->
  exists n, In n nodes /\ nid n = id.
Proof.
  unfold KnowledgeGraphService.in_ids. intros H.
  apply existsb_exists in H as (x & Hx & E). apply Nat.eqb_eq in E. subst x.
  apply in_map_iff in Hx as (n & Hn & Hin). eauto.
Qed.

Lemma select_nodes_spec (table : list KGNode) (query : GraphQuery) :
  List.length (KnowledgeGraphService.select_nodes table query) <= 1000
  /\ (forall n, In n (KnowledgeGraphService.select_nodes table query) ->
        In n table /\ Models.kg_repository_id n = repository_id query)
  /\ (forall ty tys, node_types query = Some (ty :: tys) ->
        forall n, In n (KnowledgeGraphService.select_nodes table query) ->
                  In (node_type n) (ty :: tys)).
Proof.
  unfold KnowledgeGraphService.select_nodes. cbv zeta.
  set (by_repo := List.filter _ table).
  set (by_type := match node_types query with Some (_ :: _) => _ | _ => by_repo end).
  set (by_language := match language_filter query with Some _ => _ | None => by_type end).
  assert (Hl : forall n, In n by_language -> In n by_type).
  { subst by_language. destruct (language_filter query) as [lang|]; [|auto].
    destruct (nonempty lang); [|auto]. intros n Hn. now apply filter_In in Hn. }
  assert (Ht : forall n, In n by_type -> In n by_repo).
  { subst by_type. destruct (node_types query) as [[|ty tys]|]; auto.
    intros n Hn. now apply filter_In in Hn. }
  split; [apply firstn_le_length|]. split.
  - intros n Hn. apply In_firstn, Hl, Ht in Hn. subst by_repo.
    apply filter_In in Hn as [Hin E]. apply Nat.eqb_eq in E. auto.
  - intros ty tys Hq n Hn. apply In_firstn, Hl in Hn. subst by_type.
    rewrite Hq in Hn. apply filter_In in Hn as [_ E].
    apply bool_decide_eq_true in E. now apply list_elem_of_In.
Qed.

Lemma select_relationships_spec (table : list KGRelationship) (query : GraphQuery)
    (nodes : list KGNode) :
  NoDup (List.map rel_id (KnowledgeGraphService.select_relationships table query nodes))
  /\ (forall rel,
        In rel (KnowledgeGraphService.select_relationships table query nodes) ->
        (exists s, In s nodes /\ nid s = source_node_id rel)
        /\ (exists t, In t nodes /\ nid t = target_node_id rel)).
Proof.
  unfold KnowledgeGraphService.select_relationships.
  destruct nodes as [|n0 nodes0] eqn:En; [split; [constructor|intros rel []]|].
  rewrite <- En. clear En. cbv zeta.
  match goal with
  | |- context [KnowledgeGraphService.unique_by_id [] ?l] =>
      destruct (unique_by_id_spec l []) as [Hnd _]
  end.
  split; [now apply NoDup_map_filter|].
  intros rel Hrel. apply filter_In in Hrel as [_ E].
  apply andb_prop in E as [Es Et]. split; now apply in_ids_true.
Qed.

(** C8 (as amended). [query_graph] returns at most 1,000 nodes, all of the
    queried repository; no relationship identifier occurs twice among the
    returned relationships; every returned relationship has its source and
    its target among the returned nodes; and when [node_types] is a
    non-empty list, the kind of every returned node is in it. *)
Theorem query_graph_result (query : GraphQuery) (w : world) :
  exists r : KnowledgeGraphService.query_result,
    KnowledgeGraphService.query_graph query w = (Ok r, w)
    /\ List.length (KnowledgeGraphService.qr_nodes r) <= 1000
    /\ KnowledgeGraphService.qr_total_nodes r
       = List.length (KnowledgeGraphService.qr_nodes r)
    /\ NoDup (List.map rel_id (KnowledgeGraphService.qr_relationships r))
    /\ (forall rel, In rel (KnowledgeGraphService.qr_relationships r) ->
          (exists s, In s (KnowledgeGraphService.qr_nodes r)
                     /\ nid s = source_node_id rel)
          /\ (exists t, In t (KnowledgeGraphService.qr_nodes r)
                        /\ nid t = target_node_id rel))
    /\ (forall ty tys, node_types query = Some (ty :: tys) ->
          forall n, In n (KnowledgeGraphService.qr_nodes r) ->
                    In (node_type n) (ty :: tys)).
Proof.
  unfold KnowledgeGraphService.query_graph, bind, get, ret.
  eexists. split; [reflexivity|]. cbn [KnowledgeGraphService.qr_nodes
    KnowledgeGraphService.qr_relationships KnowledgeGraphService.qr_total_nodes].
  assert (E : forall (ns : list KGNode) (rs : list KGRelationship),
             (if bool_decide (is_Some (start_node_id query))
                 || bool_decide (is_Some (end_node_id query))
              then KnowledgeGraphService._apply_path_filtering ns rs
                     (start_node_id query) (end_node_id query) (max_depth query)
              else (ns, rs)) = (ns, rs)).
  { intros. destruct (_ || _); reflexivity. }
  rewrite E. cbn [fst snd].
  destruct (select_nodes_spec (kg_nodes w) query) as (Hlen & _ & Hty).
  destruct (select_relationships_spec (kg_relationships w) query
              (KnowledgeGraphService.select_nodes (kg_nodes w) query)) as (Hnd & Hends).
  repeat split; auto; apply Hends; assumption.
Qed.

Lemma query_graph_result_witness :
  exists r : KnowledgeGraphService.query_result,
    KnowledgeGraphService.query_graph (Examples.query_with (Some [CLASS]))
      Examples.small_store = (Ok r, Examples.small_store)
    /\ (forall n, In n (KnowledgeGraphService.qr_nodes r) -> In (node_type n) [CLASS]).
Proof.
  destruct (query_graph_result (Examples.query_with (Some [CLASS])) Examples.small_store)
    as (r & E & _ & _ & _ & _ & Hty).
  exists r. split; [exact E|]. exact (Hty CLASS [] eq_refl).
Defined.

(** C8, the claim as stated: an empty [node_types] list is given, and a
    returned node has a kind that is not in it. *)
Lemma query_graph_counterexample :
  node_types (Examples.query_with (Some [])) = Some []
  /\ exists r : KnowledgeGraphService.query_result,
       KnowledgeGraphService.query_graph (Examples.query_with (Some []))
         Examples.small_store = (Ok r, Examples.small_store)
       /\ In Examples.class_row (KnowledgeGraphService.qr_nodes r)
       /\ ~ In (node_type Examples.class_row) [].
Proof.
  split; [reflexivity|]. eexists. split; [vm_compute; reflexivity|].
  split; [left; reflexivity|]. intros [].
Qed.

(** ** Cycle detection *)

Section Cycles.
Import GraphBuilder Spec Invariants.
Context (g : graph).

Lemma successors_In (u v : string) :
  edge g u v -> exists l, In (u, l) g /\ In v l.
Proof.
  unfold edge, successors.
  destruct (dict_get u g) as [l|] eqn:E; simpl; [|intros []].
  apply dict_get_In in E. eauto.
Qed.

Lemma edge_target_vertex (u v : string) : edge g u v -> In v (vertices g).
Proof.
  intros H. apply successors_In in H as (l & Hl & Hv).
  unfold vertices. apply in_or_app. right. apply in_concat.
  exists l. split; [|assumption]. apply in_map_iff. now exists (u, l).
Qed.

Lemma edge_source_key (u v : string) : edge g u v -> In u (List.map fst g).
Proof.
  intros H. apply successors_In in H as (l & Hl & _).
  apply in_map_iff. now exists (u, l).
Qed.

Lemma path_index_spec (node : string) (path : list string) :
  In node path ->
  exists i suf, path_index node path = Some i /\ List.skipn i path = node :: suf.
Proof.
  induction path as [|a path IH]; simpl; [intros []|].
  destruct (eqb a node) eqn:E.
  - intros _. apply eqb_true in E. subst a. exists 0, path. auto.
  - intros [->|Hin]; [rewrite eqb_same in E; discriminate|].
    destruct (IH Hin) as (i & suf & Hi & Hs).
    exists (S i), suf. rewrite Hi. auto.
Qed.

Lemma is_walk_snoc (p : list string) (x : string) :
  is_walk g p -> (forall u, last p = Some u -> edge g u x) -> is_walk g (p ++ [x]).
Proof.
  induction p as [|a p IH]; intros Hw Hl; [exact Logic.I|].
  destruct p as [|b p].
  - simpl. split; [|exact Logic.I]. apply Hl. reflexivity.
  - destruct Hw as [Hab Hw]. split; [assumption|]. apply IH; auto.
Qed.

Lemma is_walk_skipn (i : nat) :
  forall p : list string, is_walk g p -> is_walk g (List.skipn i p).
Proof.
  induction i as [|i IH]; intros p Hw; [assumption|].
  destruct p as [|a [|b p]]; [exact Logic.I| |].
  - apply (IH []). exact Logic.I.
  - apply (IH (b :: p)). apply Hw.
Qed.

Lemma NoDup_skipn (i : nat) :
  forall p : list string, NoDup p -> NoDup (List.skipn i p).
Proof.
  induction i as [|i IH]; intros p Hp; [assumption|].
  destruct p as [|a p]; simpl; [constructor|].
  apply IH. now apply NoDup_cons in Hp as [_ Hp].
Qed.

Lemma last_skipn (i : nat) :
  forall (p : list string) (a : string) (s : list string),
    List.skipn i p = a :: s -> last p = last (a :: s).
Proof.
  induction i as [|i IH]; intros p a s E.
  { change (p = a :: s) in E. now rewrite E. }
  destruct p as [|b p]; [discriminate|].
  change (List.skipn i p = a :: s) in E. rewrite <- (IH p a s E).
  destruct p; [destruct i; discriminate|reflexivity].
Qed.

(** The slice that [dfs] reports when it meets a node of its path again. *)
Lemma reported_cycle_simple (node : string) (path : list string) (i : nat)
    (suf : list string) :
  NoDup path -> is_walk g path ->
  (forall u, last path = Some u -> edge g u node) ->
  List.skipn i path = node :: suf ->
  simple_cycle g (List.skipn i path ++ [node]).
Proof.
  intros Hnd Hw Hl Hs. exists node, suf. rewrite Hs. split; [reflexivity|]. split.
  - rewrite <- Hs. apply is_walk_snoc; [now apply is_walk_skipn|].
    intros u Hu. apply Hl. rewrite (last_skipn i path node suf Hs).
    now rewrite <- Hs.
  - rewrite <- Hs. now apply NoDup_skipn.
Qed.

Lemma simple_cycle_is_cycle (c : list string) : simple_cycle g c -> is_cycle g c.
Proof. intros (x & body & E & Hw & _). now exists x, body. Qed.

Lemma walk_next (p : list string) :
  is_walk g p -> forall x, In x (removelast p) -> exists y, In y p /\ edge g x y.
Proof.
  induction p as [|a p IH]; intros Hw x Hx; [destruct Hx|].
  destruct p as [|b p]; [destruct Hx|].
  destruct Hw as [Hab Hw].
  change (removelast (a :: b :: p)) with (a :: removelast (b :: p)) in Hx.
  destruct Hx as [<-|Hx].
  - exists b. split; [right; now left|assumption].
  - destruct (IH Hw x Hx) as (y & Hy & He). exists y. split; [now right|assumption].
Qed.

(** Every node of a cycle has a successor on the cycle. *)
Lemma cycle_next (c : list string) (x : string) :
  is_cycle g c -> In x c -> exists y, In y c /\ edge g x y.
Proof.
  intros (x0 & body & -> & Hw) Hx.
  apply (walk_next _ Hw).
  change (x0 :: body ++ [x0])%list with ((x0 :: body) ++ [x0])%list.
  rewrite removelast_last.
  change (In x ((x0 :: body) ++ [x0])%list) in Hx.
  apply in_app_or in Hx as [Hx|[<-|[]]]; [assumption|now left].
Qed.

(** The first node of a cycle is a key of the graph. *)
Lemma cycle_has_key (c : list string) :
  is_cycle g c -> exists x, In x c /\ In x (List.map fst g).
Proof.
  intros (x0 & body & -> & Hw). exists x0. split; [now left|].
  destruct body as [|b body]; simpl in Hw; destruct Hw as [He _];
    now apply edge_source_key in He.
Qed.

(** *** Fuel *)

Lemma size_list_to_set_le (l : list string) :
  size (list_to_set l : gset string) <= List.length l.
Proof.
  induction l as [|x l IH]; simpl.
  - change (size (∅ : gset string) <= 0). now rewrite size_empty.
  - destruct (decide (x ∈ (list_to_set l : gset string))) as [Hx|Hx].
    + replace ({[x]} ∪ list_to_set l) with (list_to_set l : gset string)
        by set_solver. lia.
    + rewrite size_union by set_solver. rewrite size_singleton. lia.
Qed.

Lemma unvisited_mono (vis vis' : gset string) :
  vis ⊆ vis' -> size (vertex_set g ∖ vis') <= size (vertex_set g ∖ vis).
Proof. intros H. apply subseteq_size. set_solver. Qed.

Lemma unvisited_decreases (node : string) (vis : gset string) :
  In node (vertices g) -> node ∉ vis ->
  size (vertex_set g ∖ ({[node]} ∪ vis)) < size (vertex_set g ∖ vis).
Proof.
  intros Hin Hn. apply subset_size. split; [set_solver|].
  intros Hsub.
  assert (Hv : node ∈ vertex_set g ∖ vis).
  { unfold vertex_set. apply elem_of_difference. split; [|assumption].
    apply elem_of_list_to_set. now apply list_elem_of_In. }
  apply Hsub in Hv. set_solver.
Qed.

(** *** The loop over the successors *)

Lemma for_neighbors_spec (call : string -> dfs_state -> dfs_result)
    (path : list string) (fuel : nat) (all : list string) :
  (forall v st, In v all -> dfs_inv g path st ->
                size (vertex_set g ∖ visited st) < fuel ->
                exists st', call v st = Done st' /\ dfs_post g path v st st') ->
  forall (neighbors : list string) (st : dfs_state),
    incl neighbors all -> dfs_inv g path st ->
    size (vertex_set g ∖ visited st) < fuel ->
    exists st',
      for_neighbors call neighbors st = Done st'
      /\ rec_stack st' = rec_stack st
      /\ visited st ⊆ visited st'
      /\ dfs_inv g path st'
      /\ (cycles st' = [] ->
          cycles st = []
          /\ forall v, In v neighbors -> v ∈ visited st' /\ v ∉ rec_stack st').
Proof.
  intros Hcall. induction neighbors as [|v neighbors IH]; intros st Hincl Hinv Hfuel.
  - exists st. simpl. split; [reflexivity|]. split; [reflexivity|].
    split; [reflexivity|]. split; [assumption|].
    intros Hnil. split; [assumption|]. intros v [].
  - simpl.
    destruct (Hcall v st) as (st1 & E1 & P1); auto; [apply Hincl; now left|].
    rewrite E1. destruct P1 as [Ps Pv Pn Pi Pq].
    destruct (IH st1) as (st' & E' & Hs & Hv & Hi & Hq); auto.
    { intros x Hx. apply Hincl. now right. }
    { pose proof (unvisited_mono _ _ Pv). lia. }
    exists st'. split; [assumption|]. split; [congruence|].
    split; [set_solver|]. split; [assumption|].
    intros Hnil. destruct (Hq Hnil) as [Hnil1 Hrest].
    destruct (Pq Hnil1) as [Hnil0 Hvr]. split; [assumption|].
    intros x [<-|Hx]; [|auto].
    split; [set_solver|]. rewrite Hs. assumption.
Qed.

(** *** The search *)

Lemma dfs_spec :
  forall (fuel : nat) (node : string) (path : list string) (st : dfs_state),
    dfs_inv g path st ->
    In node (vertices g) ->
    (forall u, last path = Some u -> edge g u node) ->
    size (vertex_set g ∖ visited st) < fuel ->
    exists st', dfs fuel g node path st = Done st' /\ dfs_post g path node st st'.
Proof.
  induction fuel as [|fuel IH]; intros node path st Hinv Hnode Hedge Hfuel; [lia|].
  destruct Hinv as [Hstack Hvis Hnd Hwalk Hcyc Hfin].
  cbn [dfs].
  destruct (bool_decide (node ∈ rec_stack st)) eqn:Erec.
  { (* the node is on the stack: a cycle is reported *)
    apply bool_decide_eq_true in Erec.
    destruct (path_index_spec node path) as (i & suf & Hi & Hs);
      [now apply Hstack|].
    rewrite Hi. eexists. split; [reflexivity|].
    constructor; cbn [visited rec_stack cycles]; auto.
    - constructor; cbn [visited rec_stack cycles]; auto.
      + intros c Hc. apply in_app_or in Hc as [Hc|[<-|[]]]; [auto|].
        now apply (reported_cycle_simple node path i suf).
      + intros Hnil. apply app_eq_nil in Hnil as [_ Hnil]. discriminate.
    - intros Hnil. apply app_eq_nil in Hnil as [_ Hnil]. discriminate. }
  apply bool_decide_eq_false in Erec.
  destruct (bool_decide (node ∈ visited st)) eqn:Evis.
  { (* the visit of the node is over *)
    apply bool_decide_eq_true in Evis.
    exists st. split; [reflexivity|].
    constructor; auto. constructor; auto. }
  apply bool_decide_eq_false in Evis.
  (* a new node *)
  cbv zeta.
  set (st1 := mkDfs ({[node]} ∪ visited st) ({[node]} ∪ rec_stack st) (cycles st)).
  assert (Hnp : ~ In node path) by (intros Hin; apply Erec; now apply Hstack).
  assert (Hinv1 : dfs_inv g (path ++ [node]) st1).
  { constructor; cbn [visited rec_stack cycles st1].
    - intros x. rewrite in_app_iff, elem_of_union, elem_of_singleton, Hstack.
      simpl. intuition.
    - set_solver.
    - apply NoDup_app. split; [assumption|]. split; [|apply NoDup_singleton].
      intros x Hx Hx'. apply list_elem_of_In in Hx.
      apply list_elem_of_singleton in Hx'. subst. contradiction.
    - now apply is_walk_snoc.
    - assumption.
    - intros Hnil c Hc x Hx Hxv.
      apply elem_of_union in Hxv as [Hxv|Hxv]; [set_solver|].
      apply elem_of_union. right. eauto. }
  assert (Hfuel1 : size (vertex_set g ∖ visited st1) < fuel).
  { cbn [visited st1]. pose proof (unvisited_decreases node (visited st) Hnode Evis).
    lia. }
  destruct (for_neighbors_spec
              (fun neighbor st => dfs fuel g neighbor (path ++ [node]) st)
              (path ++ [node]) fuel (successors g node)) with
      (neighbors := successors g node) (st := st1)
    as (st2 & E2 & Hs2 & Hv2 & Hinv2 & Hq2); auto.
  { intros v st0 Hv Hinv0 Hfuel0. apply IH; auto.
    - now apply (edge_target_vertex node).
    - intros u Hu. rewrite last_snoc in Hu. injection Hu as <-. exact Hv. }
  { intros x Hx. exact Hx. }
  rewrite E2. eexists. split; [reflexivity|].
  cbn [visited rec_stack st1] in Hs2, Hv2.
  destruct Hinv2 as [Hstack2 Hvis2 Hnd2 Hwalk2 Hcyc2 Hfin2].
  assert (Hrs : rec_stack st2 ∖ {[node]} = rec_stack st).
  { rewrite Hs2. apply set_eq. intros x.
    rewrite elem_of_difference, elem_of_union, elem_of_singleton.
    split; [intuition|]. intros Hx. split; [now right|].
    intros ->. contradiction. }
  constructor; cbn [visited rec_stack cycles].
  - exact Hrs.
  - set_solver.
  - set_solver.
  - constructor; cbn [visited rec_stack cycles]; auto.
    + intros x. rewrite Hrs. apply Hstack.
    + rewrite Hrs. set_solver.
    + intros Hnil c Hc x Hx Hxv. rewrite Hrs.
      destruct (Hq2 Hnil) as [_ Hsucc].
      pose proof (Hfin2 Hnil c Hc x Hx Hxv) as Hx2.
      rewrite Hs2 in Hx2. apply elem_of_union in Hx2 as [Hx2|Hx2]; [|assumption].
      apply elem_of_singleton in Hx2. subst x. exfalso.
      destruct (cycle_next c node Hc Hx) as (y & Hy & He).
      destruct (Hsucc y He) as [Hyv Hyr].
      apply Hyr. eauto.
  - intros Hnil. destruct (Hq2 Hnil) as [Hnil1 _]. split; [exact Hnil1|].
    rewrite Hrs. assumption.
Qed.

Lemma dfs_roots_spec (fuel : nat) :
  forall (roots : list string) (st : dfs_state),
    incl roots (vertices g) -> dfs_inv g [] st ->
    size (vertex_set g ∖ visited st) < fuel ->
    exists st',
      dfs_roots fuel g roots st = Done st'
      /\ dfs_inv g [] st'
      /\ visited st ⊆ visited st'
      /\ (forall r, In r roots -> r ∈ visited st').
Proof.
  induction roots as [|r roots IH]; intros st Hincl Hinv Hfuel; simpl.
  - exists st. split; [reflexivity|]. split; [assumption|].
    split; [reflexivity|]. intros r [].
  - assert (Hincl' : incl roots (vertices g)).
    { intros x Hx. apply Hincl. now right. }
    destruct (bool_decide (r ∈ visited st)) eqn:E.
    + apply bool_decide_eq_true in E.
      destruct (IH st) as (st' & E' & Hi & Hv & Hr); auto.
      exists st'. split; [assumption|]. split; [assumption|].
      split; [assumption|]. intros x [<-|Hx]; [set_solver|auto].
    + destruct (dfs_spec fuel r [] st) as (st1 & E1 & P1); auto.
      { apply Hincl. now left. }
      { intros u Hu. discriminate. }
      rewrite E1. destruct P1 as [Ps Pv Pn Pi Pq].
      destruct (IH st1) as (st' & E' & Hi & Hv & Hr); auto.
      { pose proof (unvisited_mono _ _ Pv). lia. }
      exists st'. split; [assumption|]. split; [assumption|].
      split; [set_solver|]. intros x [<-|Hx]; [set_solver|auto].
Qed.


End Cycles.

(** On a single cycle the detector reports that cycle, and on an acyclic
    graph it reports nothing. *)
Lemma detect_cycles_examples :
  GraphBuilder._detect_cycles Examples.triangle = Some [["A"; "B"; "C"; "A"]]
  /\ GraphBuilder._detect_cycles Examples.diamond = Some [].
Proof. split; vm_compute; reflexivity. Qed.

Lemma same_vertices_b_spec (c1 c2 : list string) :
  Spec.same_vertices c1 c2 -> Spec.same_vertices_b c1 c2 = true.
Proof.
  intros H. unfold Spec.same_vertices_b.
  apply andb_true_intro. split; apply forallb_forall; intros x Hx;
    apply mem_true; now apply H.
Qed.

Lemma covered_false (reported : list (list string)) (c : list string) :
  Spec.covered reported c = false ->
  forall r, In r reported -> ~ Spec.same_vertices r c.
Proof.
  intros Hc r Hr Hs. apply same_vertices_b_spec in Hs.
  assert (Spec.covered reported c = true); [|congruence].
  apply existsb_exists. now exists r.
Qed.

Lemma uncovered_two_cycle_spec (g : GraphBuilder.graph) (x y : string) :
  Spec.uncovered_two_cycle g = Some [x; y; x] ->
  Spec.edge g x y -> Spec.edge g y x -> x <> y ->
  exists reported,
    GraphBuilder._detect_cycles g = Some reported
    /\ Spec.simple_cycle g [x; y; x]
    /\ forall r, In r reported -> ~ Spec.same_vertices r [x; y; x].
Proof.
  unfold Spec.uncovered_two_cycle. intros Hu Hxy Hyx Hne.
  destruct (GraphBuilder._detect_cycles g) as [reported|]; [|discriminate].
  exists reported. split; [reflexivity|]. split.
  - exists x, [y]. split; [reflexivity|]. split; [simpl; tauto|].
    apply NoDup_cons. split; [|apply NoDup_singleton].
    intros Hin. apply list_elem_of_singleton in Hin. contradiction.
  - apply find_some in Hu as [_ Hu]. apply negb_true_iff in Hu.
    now apply covered_false.
Qed.


(** The same happens in whatever order the keys and the successors are
    enumerated: some cycle of length two is covered by no reported cycle. *)
Lemma detect_cycles_misses_in_every_order :
  Forall (fun g =>
            exists c reported,
              GraphBuilder._detect_cycles g = Some reported
              /\ Spec.simple_cycle g c
              /\ forall r, In r reported -> ~ Spec.same_vertices r c)
         Examples.k3_orders.
Proof.
  assert (H : forall g,
             In g Examples.k3_orders ->
             exists x y, Spec.uncovered_two_cycle g = Some [x; y; x]
                         /\ Spec.edge g x y /\ Spec.edge g y x /\ x <> y).
  { intros g Hg. cbv [Examples.k3_orders List.flat_map app] in Hg.
    repeat (destruct Hg as [<-|Hg];
            [first
               [ exists "A", "B"; split; [vm_compute; reflexivity|]
               | exists "A", "C"; split; [vm_compute; reflexivity|]
               | exists "B", "C"; split; [vm_compute; reflexivity|] ];
             split; [vm_compute; tauto|]; split; [vm_compute; tauto|discriminate]
            |]).
    destruct Hg. }
  apply Forall_forall. intros g Hg. apply list_elem_of_In in Hg.
  destruct (H g Hg) as (x & y & Hu & Hxy & Hyx & Hne).
  destruct (uncovered_two_cycle_spec g x y Hu Hxy Hyx Hne) as (reported & ?).
  now exists [x; y; x], reported.
Qed.

(** ** The Python mini-repository *)

(** C2 (amended). Parsing a.py and b.py and running the graph builder over
    the nodes and the texts gives two file nodes, the class nodes Foo and
    Baz, the function node bar and the import node a; among the
    relationships are a.py contains Foo, a.py contains bar, b.py contains
    Baz, b.py imports a, and exactly one cross-file imports relationship
    from the import node a to the file node a.py, with confidence 0.7. *)
Theorem mini_repository_graph (repository_id : UUID) :
  exists nodes edges w,
    Examples.mini_repository repository_id world0 = (Ok (nodes, edges), w)
    /\ List.map Spec.kind_and_name nodes
       = [(FILE, "a.py"); (CLASS, "Foo"); (FUNCTION, "bar");
          (FILE, "b.py"); (IMPORT, "a"); (CLASS, "Baz")]
    /\ Spec.edges_between nodes edges CONTAINS FILE "a.py" CLASS "Foo" <> []
    /\ Spec.edges_between nodes edges CONTAINS FILE "a.py" FUNCTION "bar" <> []
    /\ Spec.edges_between nodes edges CONTAINS FILE "b.py" CLASS "Baz" <> []
    /\ Spec.edges_between nodes edges IMPORTS FILE "b.py" IMPORT "a" <> []
    /\ List.map confidence_score
         (Spec.edges_between nodes edges IMPORTS IMPORT "a" FILE "a.py")
       = [(7 # 10)%Q].
Proof.
  eexists _, _, _. split; [vm_compute; reflexivity|].
  split; [reflexivity|].
  repeat split; vm_compute; congruence.
Qed.

(** C2, counterexample. The same run yields no relationship from the class
    Foo to the function bar, and no inherits relationship at all, so
    neither Foo contains bar nor Baz inherits Foo is produced. *)
Lemma mini_repository_counterexample :
  exists nodes edges w,
    Examples.mini_repository 77 world0 = (Ok (nodes, edges), w)
    /\ Spec.edges_between nodes edges CONTAINS CLASS "Foo" FUNCTION "bar" = []
    /\ Spec.edges_between nodes edges INHERITS CLASS "Baz" CLASS "Foo" = []
    /\ Spec.of_kind INHERITS edges = [].
Proof.
  eexists _, _, _. split; [vm_compute; reflexivity|].
  repeat split; vm_compute; reflexivity.
Qed.

(** ** Containment *)

Section Containment.
Import GraphBuilder Spec.

(** *** Dictionaries in insertion order *)

Lemma eqb_false (s t : string) : eqb s t = false <-> s <> t.
Proof.
  split.
  - intros E ->. rewrite eqb_same in E. discriminate.
  - intros Hne. destruct (eqb s t) eqn:E; [|reflexivity].
    apply eqb_true in E. contradiction.
Qed.

Lemma dict_get_None {A} (k : string) (d : list (string * A)) :
  dict_get k d = None -> ~ In k (List.map fst d).
Proof.
  induction d as [|[k' v'] d IH]; simpl; [tauto|].
  destruct (eqb k k') eqn:E; [discriminate|].
  intros Hd [->|Hin]; [rewrite eqb_same in E; discriminate|]. now apply IH.
Qed.

Lemma dict_set_In_same {A} (k : string) (v : A) (d : list (string * A)) :
  In (k, v) (dict_set k v d).
Proof.
  induction d as [|[k' v'] d IH]; simpl; [now left|].
  destruct (eqb k k'); [now left|now right].
Qed.

Lemma dict_set_keys {A} (k : string) (v : A) (d : list (string * A)) :
  forall x, In x (List.map fst (dict_set k v d)) <-> x = k \/ In x (List.map fst d).
Proof.
  induction d as [|[k' v'] d IH]; intros x; simpl; [intuition|].
  destruct (eqb k k') eqn:E; simpl.
  - apply eqb_true in E. subst k'. intuition.
  - rewrite IH. intuition.
Qed.

Lemma dict_set_NoDup {A} (k : string) (v : A) (d : list (string * A)) :
  NoDup (List.map fst d) -> NoDup (List.map fst (dict_set k v d)).
Proof.
  induction d as [|[k' v'] d IH]; simpl; intros H.
  - apply NoDup_singleton.
  - apply NoDup_cons in H as [Hk Hd]. rewrite list_elem_of_In in Hk.
    destruct (eqb k k') eqn:E; simpl.
    + apply eqb_true in E. subst k'. apply NoDup_cons.
      rewrite list_elem_of_In. auto.
    + apply NoDup_cons. rewrite list_elem_of_In. split; [|auto].
      rewrite dict_set_keys. intros [->|Hin]; [|contradiction].
      rewrite eqb_same in E. discriminate.
Qed.

Lemma dict_set_In {A} (k : string) (v : A) (d : list (string * A))
    (k' : string) (v' : A) :
  NoDup (List.map fst d) ->
  In (k', v') (dict_set k v d) ->
  (k' = k /\ v' = v) \/ (k' <> k /\ In (k', v') d).
Proof.
  induction d as [|[k0 v0] d IH]; simpl; intros Hnd.
  - intros [[= <- <-]|[]]. now left.
  - apply NoDup_cons in Hnd as [Hk Hd]. rewrite list_elem_of_In in Hk.
    destruct (eqb k k0) eqn:E.
    + apply eqb_true in E. subst k0. intros [[= <- <-]|Hin]; [now left|].
      right. split; [|now right].
      intros ->. apply Hk. apply in_map_iff. now exists (k, v').
    + apply eqb_false in E. intros [[= <- <-]|Hin].
      * right. split; [congruence|now left].
      * destruct (IH Hd Hin) as [?|[? ?]];
          [now left|right; split; [assumption|now right]].
Qed.

(** *** The nodes of each file *)

Lemma group_by_file_snoc (nodes : list KGNode) (x : KGNode) :
  group_by_file (nodes ++ [x])
  = dict_set (file_path x)
      (default [] (dict_get (file_path x) (group_by_file nodes)) ++ [x])%list
      (group_by_file nodes).
Proof. unfold group_by_file. now rewrite fold_left_app. Qed.

Lemma filter_none {A} (p : A -> bool) (l : list A) :
  (forall x, In x l -> p x = false) -> List.filter p l = [].
Proof.
  induction l as [|x l IH]; intros H; simpl; [reflexivity|].
  rewrite (H x) by now left. apply IH. intros y Hy. apply H. now right.
Qed.

Lemma group_by_file_spec (nodes : list KGNode) :
  NoDup (List.map fst (group_by_file nodes))
  /\ (forall k l, In (k, l) (group_by_file nodes) ->
                  l = List.filter (fun m => eqb (file_path m) k) nodes)
  /\ (forall n, In n nodes -> In (file_path n) (List.map fst (group_by_file nodes))).
Proof.
  induction nodes as [|x nodes (Hnd & Hgroups & Hkeys)] using rev_ind.
  - split; [constructor|]. split; [intros k l []|intros n []].
  - rewrite group_by_file_snoc. split; [now apply dict_set_NoDup|]. split.
    + intros k l Hin. rewrite List.filter_app. simpl.
      apply dict_set_In in Hin as [[-> ->]|[Hne Hin]]; [| |assumption].
      * rewrite eqb_same. f_equal.
        destruct (dict_get (file_path x) (group_by_file nodes)) as [l|] eqn:E; simpl.
        { apply Hgroups. now apply dict_get_In. }
        { symmetry. apply filter_none. intros m Hm. apply eqb_false.
          intros Heq. apply (dict_get_None _ _ E). rewrite <- Heq. now apply Hkeys. }
      * assert (E : eqb (file_path x) k = false) by (apply eqb_false; congruence).
        rewrite E, app_nil_r. now apply Hgroups.
    + intros n Hn. apply dict_set_keys. apply in_app_or in Hn as [Hn|[<-|[]]].
      * right. now apply Hkeys.
      * now left.
Qed.

(** *** The stable sort *)

Lemma insert_by_perm {A} (key : A -> Z) (x : A) (l : list A) :
  Permutation (insert_by key x l) (x :: l).
Proof.
  induction l as [|y l IH]; simpl; [reflexivity|].
  destruct (key x <? key y)%Z; [reflexivity|].
  rewrite IH. apply perm_swap.
Qed.

Lemma sort_by_perm {A} (key : A -> Z) (l : list A) :
  Permutation (sort_by key l) l.
Proof.
  unfold sort_by.
  assert (H : forall acc,
             Permutation (fold_left (fun sorted x => insert_by key x sorted) l acc)
                         (acc ++ l)).
  { induction l as [|x l IH]; intros acc; simpl.
    - now rewrite app_nil_r.
    - rewrite IH, insert_by_perm. apply Permutation_middle. }
  apply (H []).
Qed.

(** *** The relationships of the pass *)




(** *** Counting the relationships that end at a node *)





Lemma NoDup_map_inj {A B} (f : A -> B) (l : list A) (a b : A) :
  NoDup (List.map f l) -> In a l -> In b l -> f a = f b -> a = b.
Proof.
  induction l as [|x l IH]; simpl; intros Hnd Ha Hb E; [destruct Ha|].
  apply NoDup_cons in Hnd as [Hx Hnd]. rewrite list_elem_of_In in Hx.
  destruct Ha as [->|Ha], Hb as [->|Hb]; auto.
  - exfalso. apply Hx. rewrite E. now apply in_map.
  - exfalso. apply Hx. rewrite <- E. now apply in_map.
Qed.



Lemma sorted_non_file_In (file_nodes : list KGNode) (m : KGNode) :
  In m (sort_by (fun x => or0 (line_start x))
          (List.filter (fun node => negb (is_file node)) file_nodes))
  <-> In m file_nodes /\ is_file m = false.
Proof.
  split.
  - intros H. apply (Permutation_in _ (sort_by_perm _ _)) in H.
    apply filter_In in H as [H1 H2]. split; [assumption|].
    now apply negb_true_iff.
  - intros [H1 H2]. apply (Permutation_in _ (Permutation_sym (sort_by_perm _ _))).
    apply filter_In. split; [assumption|]. now apply negb_true_iff.
Qed.

End Containment.



Lemma containment_pass_example :
  exists rels w',
    GraphBuilder._build_containment_relationships
      Examples.spanned_nodes None world0 = (Ok rels, w')
    /\ List.map Spec.shape rels = [(1, 2, CONTAINS); (2, 3, CONTAINS)].
Proof. eexists _, _. split; vm_compute; reflexivity. Qed.


(** ** Cancellation of a parse job *)

Section Cancellation.
Import KnowledgeGraphService Invariants.

Lemma quiet_same (w w' : world) :
  events w' = events w -> kg_sources w' = kg_sources w -> quiet w w'.
Proof.
  intros He Hs. split.
  - exists []. split; [now rewrite He|intros []].
  - rewrite Hs. intros x Hx. exact Hx.
Qed.

Lemma quiet_refl (w : world) : quiet w w.
Proof. now apply quiet_same. Qed.

Lemma quiet_trans (a b c : world) : quiet a b -> quiet b c -> quiet a c.
Proof.
  intros [(e1 & E1 & N1) S1] [(e2 & E2 & N2) S2]. split.
  - exists (e2 ++ e1)%list. split; [now rewrite E2, E1, app_assoc|].
    intros H. apply in_app_or in H as [H|H]; auto.
  - intros x Hx. auto.
Qed.

Lemma quiet_cancel (a b c : world) :
  quiet a b -> cancelled_once b c -> cancelled_once a c.
Proof.
  intros [(e1 & E1 & N1) S1] [(e2 & E2 & N2) S2]. split.
  - exists (e2 ++ e1)%list. split; [now rewrite E2, E1, app_assoc|].
    intros H. apply in_app_or in H as [H|H]; auto.
  - intros x Hx. auto.
Qed.

Lemma cancel_quiet (a b c : world) :
  cancelled_once a b -> events c = events b ->
  List.map src_id (kg_sources c) = List.map src_id (kg_sources b) ->
  cancelled_once a c.
Proof.
  intros [(e1 & E1 & N1) S1] He Hs. split.
  - exists e1. split; [now rewrite He|assumption].
  - now rewrite Hs.
Qed.

Lemma quiet_uuid (w : world) : quiet w (set_next_uuid (S (next_uuid w)) w).
Proof. now apply quiet_same. Qed.

Lemma respects_ext {A} (m m' : M A) :
  (forall w, m w = m' w) ->
  respects quiet cancelled_once m' -> respects quiet cancelled_once m.
Proof. intros E H w. rewrite E. apply H. Qed.

Lemma respects_modify (f : world -> world) :
  (forall w, quiet w (f w)) -> respects quiet cancelled_once (modify f).
Proof. intros H w. apply H. Qed.

Lemma respects_cancellation_point (seen : nat -> bool) (msg : string) :
  respects quiet cancelled_once (cancellation_point seen msg).
Proof.
  intros w. unfold cancellation_point. destruct (seen (points w)).
  - split; [|intros x Hx; exact Hx]. exists []. split; [reflexivity|intros []].
  - now apply quiet_same.
Qed.

Lemma respects_for_each {A} (l : list A) (body : A -> M unit) :
  (forall x, respects quiet cancelled_once (body x)) ->
  respects quiet cancelled_once (for_each l body).
Proof.
  intros Hb. induction l as [|x l IH]; simpl.
  - apply (respects_ret _ _ quiet_refl).
  - apply (respects_bind _ _ quiet_trans quiet_cancel); auto.
Qed.

Lemma update_source_ids (f : KGSource -> KGSource) (id : UUID)
    (rows : list KGSource) :
  (forall row, src_id (f row) = src_id row) ->
  List.map src_id (List.map (fun row => if src_id row =? id then f row else row) rows)
  = List.map src_id rows.
Proof.
  intros Hf. induction rows as [|row rows IH]; simpl; [reflexivity|].
  rewrite IH. destruct (src_id row =? id); [now rewrite Hf|reflexivity].
Qed.

Lemma update_status_ids (id : UUID) (status : ParsingStatus)
    (error_message : option string) (n r : option Z) (w w' : world) :
  _update_kg_source_status id status error_message n r w = (Ok tt, w') ->
  events w' = events w
  /\ List.map src_id (kg_sources w') = List.map src_id (kg_sources w).
Proof.
  unfold _update_kg_source_status, modify. intros [= <-]. split; [reflexivity|].
  cbn [kg_sources set_kg_sources]. now apply update_source_ids.
Qed.

Lemma respects_update_status (id : UUID) (status : ParsingStatus)
    (error_message : option string) (n r : option Z) :
  respects quiet cancelled_once
    (_update_kg_source_status id status error_message n r).
Proof.
  intros w.
  destruct (update_status_ids id status error_message n r w _ eq_refl)
    as [He Hs].
  split.
  - exists []. split; [exact He|intros []].
  - cbn [snd]. rewrite Hs. intros x Hx. exact Hx.
Qed.

(** The steps of a proof that a part of the job sees at most one
    cancellation, at its end. *)
Ltac trace_step :=
  lazymatch goal with
  | |- respects _ _ (bind _ _) =>
      apply (respects_bind _ _ quiet_trans quiet_cancel); [|intros]
  | |- respects _ _ (ret _) => apply (respects_ret _ _ quiet_refl)
  | |- respects _ _ (raise (Exception _ _)) => apply (respects_raise _ _ quiet_refl)
  | |- respects _ _ uuid4 => apply (respects_uuid4 _ _ quiet_uuid)
  | |- respects _ _ (try_except _ _) =>
      apply (respects_try_except _ _ quiet_trans quiet_cancel); [|intros]
  | |- respects _ _ (fold_m _ _ _) =>
      apply (respects_fold_m _ _ quiet_refl quiet_trans quiet_cancel); intros
  | |- respects _ _ (for_each _ _) => apply respects_for_each; intros
  | |- respects _ _ (cancellation_point _ _) => apply respects_cancellation_point
  | |- respects _ _ (_update_kg_source_status _ _ _ _ _) =>
      apply respects_update_status
  | |- respects _ _ (modify _) =>
      apply respects_modify; intros; apply quiet_same; reflexivity
  | |- respects _ _ (if ?b then _ else _) => destruct b
  | |- respects _ _ (match ?x with _ => _ end) => destruct x
  | |- respects _ _ (let _ := _ in _) => cbv zeta
  end.

Ltac trace_with tac := cbv zeta; repeat (first [assumption | trace_step | tac]).
Ltac trace_auto := trace_with fail.

Context (self : t) (progress_callback : progress_cb).
Hypothesis callback_ok :
  forall cb p, progress_callback = Some cb -> respects quiet cancelled_once (cb p).

Lemma respects_check :
  respects quiet cancelled_once (call_opt (Some (check_cancellation self))).
Proof. apply respects_cancellation_point. Qed.

Lemma respects_progress (id : UUID) (status : ParsingStatus) (total : nat)
    (current : option string) (tt : totals) :
  respects quiet cancelled_once
    (create_progress_callback progress_callback id status total current tt).
Proof.
  unfold create_progress_callback. destruct progress_callback as [cb|].
  - now apply callback_ok.
  - apply (respects_ret _ _ quiet_refl).
Qed.

Lemma respects_clone (url branch : string) :
  respects quiet cancelled_once (_clone_repository self url branch progress_callback).
Proof.
  unfold _clone_repository.
  apply (respects_bind _ _ quiet_trans quiet_cancel).
  - destruct progress_callback as [cb|];
      [now apply callback_ok|apply (respects_ret _ _ quiet_refl)].
  - intros _. trace_auto.
Qed.

Lemma respects_read (repository_path : string) (filter : option (list string))
    (size : Z) :
  respects quiet cancelled_once
    (_read_repository_files self repository_path filter size).
Proof.
  unfold _read_repository_files, read_one, log_warning_unbound. trace_auto.
Qed.

Lemma respects_create_repository (id : UUID) (request : ParseRequest)
    (file_contents : list (string * string)) :
  respects quiet cancelled_once
    (_create_kg_repository self id request file_contents).
Proof. unfold _create_kg_repository. trace_auto. Qed.

Lemma respects_stream_store (nodes : list KGNode)
    (relationships : list KGRelationship) (file_path : string) :
  respects quiet cancelled_once
    (_stream_store_file_data nodes relationships file_path).
Proof.
  unfold _stream_store_file_data, _store_nodes_and_relationships. trace_auto.
Qed.

Lemma respects_stream_file (id repo : UUID) (total : nat) (tt : totals)
    (fc : string * string) :
  respects quiet cancelled_once
    (stream_file self progress_callback id repo total tt fc).
Proof.
  unfold stream_file.
  trace_with ltac:(first
    [ apply (respects_parse_file _ _ quiet_refl quiet_trans quiet_cancel quiet_uuid
               (Some (check_cancellation self)) respects_check)
    | apply respects_stream_store
    | apply respects_progress ]).
Qed.

Lemma respects_cross_file_phase (file_contents : list (string * string))
    (tt : totals) :
  respects quiet cancelled_once (cross_file_phase self file_contents tt).
Proof.
  unfold cross_file_phase.
  apply (respects_try_except _ _ quiet_trans quiet_cancel);
    [|intros; apply (respects_ret _ _ quiet_refl)].
  apply (respects_bind _ _ quiet_trans quiet_cancel).
  - apply (respects_ext _ _ (build_relationships_empty_nodes _ _)).
    trace_with ltac:(apply respects_check).
  - intros rels. unfold _store_nodes_and_relationships. trace_auto.
Qed.

Lemma respects_update_repository (repo : UUID) (total parsed : Z) :
  respects quiet cancelled_once (_update_repository_statistics repo total parsed).
Proof. unfold _update_repository_statistics. trace_auto. Qed.

(** *** The handlers of the job *)

Lemma outcome_after_quiet (id : UUID) (w w1 : world)
    (out : result ParseResult * world) :
  quiet w w1 -> job_outcome id w1 out -> job_outcome id w out.
Proof.
  intros Hq [H|(Hc & Hr & Hrow)].
  - left. now apply (quiet_trans w w1).
  - right. split; [now apply (quiet_cancel w w1)|auto].
Qed.

Lemma cancelled_row_after_update (id : UUID) (w w' : world) :
  In id (List.map src_id (kg_sources w)) ->
  _update_kg_source_status id FAILED (Some "Parsing was cancelled by user")
                           None None w = (Ok tt, w') ->
  cancelled_row id w'.
Proof.
  unfold _update_kg_source_status, modify. intros Hin [= <-]. split.
  - cbn [kg_sources set_kg_sources]. now rewrite update_source_ids.
  - cbn [kg_sources set_kg_sources]. intros row Hrow Hid.
    apply in_map_iff in Hrow as (row0 & <- & Hin0).
    destruct (src_id row0 =? id) eqn:E.
    + split; reflexivity.
    + apply Nat.eqb_neq in E. contradiction.
Qed.

(** A part of the body under the handlers of the outer [try], once the
    source row exists. *)
Lemma guarded_outcome {A} (id : UUID) (repo : option UUID) (m : M A)
    (k : A -> M ParseResult) (w : world) :
  In id (List.map src_id (kg_sources w)) ->
  respects quiet cancelled_once m ->
  (forall a w1, quiet w w1 -> job_outcome id w1 (k a w1)) ->
  job_outcome id w (guarded (Some id) repo m k w).
Proof.
  intros Hin Hm Hk. unfold guarded. specialize (Hm w).
  destruct (m w) as [[a|[cls msg|msg]] w1].
  - apply (outcome_after_quiet id w w1); auto.
  - left. cbv zeta.
    pose proof (respects_update_status id FAILED
                  (Some ("Repository parsing failed: " +:+ msg)) None None w1) as Hu.
    unfold bind.
    destruct (_update_kg_source_status id FAILED
                (Some ("Repository parsing failed: " +:+ msg)) None None w1)
      as [[[]|e] w2] eqn:E; [|discriminate E].
    cbn [snd ret]. now apply (quiet_trans w w1).
  - right. unfold bind.
    destruct (_update_kg_source_status id FAILED
                (Some "Parsing was cancelled by user") None None w1)
      as [[[]|e] w2] eqn:E; [|discriminate E].
    cbn [fst snd ret].
    destruct (update_status_ids _ _ _ _ _ _ _ E) as [He Hs].
    split; [now apply (cancel_quiet w w1)|]. split.
    + eexists. split; [reflexivity|]. repeat split.
    + apply (cancelled_row_after_update id w1); [|exact E].
      destruct Hm as [_ Hincl]. now apply Hincl.
Qed.

(** *** The job *)

Lemma create_source_outcome (request : ParseRequest) (w : world) :
  exists row w1,
    _create_kg_source request w = (Ok row, w1)
    /\ src_id row = next_uuid w
    /\ quiet w w1
    /\ In (next_uuid w) (List.map src_id (kg_sources w1)).
Proof.
  unfold _create_kg_source, bind, uuid4, modify, ret. cbv beta iota zeta.
  eexists _, _. split; [reflexivity|]. split; [reflexivity|]. split.
  - split; [exists []; split; [reflexivity|intros []]|].
    cbn [kg_sources set_kg_sources set_next_uuid]. rewrite map_app.
    intros x Hx. apply in_or_app. now left.
  - cbn [kg_sources set_kg_sources set_next_uuid]. rewrite map_app.
    apply in_or_app. right. now left.
Qed.

(** Every run of [parse_repository] either sees no cancellation or ends in
    the cancellation handler. *)
Lemma parse_repository_outcome (request : ParseRequest) (w : world) :
  job_outcome (next_uuid w) w (parse_repository self request progress_callback w).
Proof.
  destruct (create_source_outcome request w) as (row & w1 & E & Hid & Hq & Hin).
  unfold parse_repository. unfold guarded at 1. rewrite E. cbv zeta. rewrite Hid.
  apply (outcome_after_quiet _ w w1 _ Hq).
  apply guarded_outcome; [exact Hin| |].
  - trace_with ltac:(first
      [ apply respects_progress | apply respects_clone | apply respects_read
      | apply respects_create_repository ]).
  - intros [early|[file_contents kg_repository]] w2 Hq2.
    + left. apply quiet_refl.
    + apply guarded_outcome.
      * destruct Hq2 as [_ Hincl]. now apply Hincl.
      * trace_with ltac:(first
          [ apply respects_stream_file | apply respects_cross_file_phase
          | apply respects_update_repository | apply respects_progress ]).
      * intros res w3 _. left. apply quiet_refl.
Qed.

End Cancellation.

(** C6. When a cancellation is seen during a parse job, whether by the
    probe of the parser and the graph builder or while a progress event is
    being sent, the job returns the result of the cancellation handler,
    its source row is failed with the error "Parsing was cancelled by
    user", and the cancellation is the latest event: no progress event
    follows it. *)
Theorem cancelled_job_fails (self : KnowledgeGraphService.t)
    (request : ParseRequest) (progress_callback : KnowledgeGraphService.progress_cb)
    (w : world) (evs : list event) :
  (forall cb p, progress_callback = Some cb ->
                respects Invariants.quiet Invariants.cancelled_once (cb p)) ->
  events (KnowledgeGraphService.parse_repository self request progress_callback w).2
  = (evs ++ events w)%list ->
  In ECancelled evs ->
  exists res before,
    (KnowledgeGraphService.parse_repository self request progress_callback w).1
    = Ok res
    /\ pr_success res = false
    /\ pr_kg_source_id res = Some (next_uuid w)
    /\ pr_error res = Some "Operation was cancelled by user"
    /\ evs = ECancelled :: before
    /\ ~ In ECancelled before
    /\ In (next_uuid w)
          (List.map src_id
             (kg_sources
                (KnowledgeGraphService.parse_repository self request
                   progress_callback w).2))
    /\ forall row,
         In row (kg_sources
                   (KnowledgeGraphService.parse_repository self request
                      progress_callback w).2) ->
         src_id row = next_uuid w ->
         parsing_status row = FAILED
         /\ parsing_error row = Some "Parsing was cancelled by user".
Proof.
  intros Hcb Hevs Hcancel.
  destruct (parse_repository_outcome self progress_callback Hcb request w)
    as [[(evs0 & E0 & N0) _]|([(evs0 & E0 & N0) _] & (res & Hres & Hs & Hi & He) & Hrow & Hrows)].
  - rewrite Hevs in E0. apply app_inv_tail in E0. subst evs0. contradiction.
  - rewrite Hevs in E0.
    change (ECancelled :: evs0 ++ events w)%list
      with ((ECancelled :: evs0) ++ events w)%list in E0.
    apply app_inv_tail in E0.
    exists res, evs0. repeat split; auto; now apply Hrows.
Qed.

Lemma respects_channel (self : KnowledgeGraphService.t) (p : ParsingProgress) :
  respects Invariants.quiet Invariants.cancelled_once
    (KnowledgeGraphService.channel self p).
Proof.
  unfold KnowledgeGraphService.channel.
  apply (respects_bind _ _ quiet_trans quiet_cancel).
  - apply respects_modify. intros w. split.
    + exists [EProgress p]. split; [reflexivity|]. intros [H|[]]. discriminate H.
    + intros x Hx. exact Hx.
  - intros _. apply respects_cancellation_point.
Qed.

(** The job over the two Python files, cancelled while b.py is parsed: one
    progress event, then the cancellation. *)
Lemma cancelled_job_witness :
  (forall cb p,
      Some (KnowledgeGraphService.channel (Examples.service_cancelled_at 5)) = Some cb ->
      respects Invariants.quiet Invariants.cancelled_once (cb p))
  /\ events Examples.cancelled_run.2
     = ([ECancelled; EProgress Examples.first_progress] ++ events world0)%list
  /\ In ECancelled [ECancelled; EProgress Examples.first_progress]
  /\ exists res before,
       Examples.cancelled_run.1 = Ok res
       /\ pr_success res = false
       /\ pr_kg_source_id res = Some (next_uuid world0)
       /\ pr_error res = Some "Operation was cancelled by user"
       /\ [ECancelled; EProgress Examples.first_progress] = ECancelled :: before
       /\ ~ In ECancelled before
       /\ In (next_uuid world0) (List.map src_id (kg_sources Examples.cancelled_run.2))
       /\ forall row,
            In row (kg_sources Examples.cancelled_run.2) ->
            src_id row = next_uuid world0 ->
            parsing_status row = FAILED
            /\ parsing_error row = Some "Parsing was cancelled by user".
Proof.
  assert (H1 : forall cb p,
             Some (KnowledgeGraphService.channel (Examples.service_cancelled_at 5))
             = Some cb ->
             respects Invariants.quiet Invariants.cancelled_once (cb p)).
  { intros cb p [= <-]. apply respects_channel. }
  assert (H2 : events Examples.cancelled_run.2
               = ([ECancelled; EProgress Examples.first_progress]
                    ++ events world0)%list) by (vm_compute; reflexivity).
  assert (H3 : In ECancelled [ECancelled; EProgress Examples.first_progress])
    by (now left).
  split; [exact H1|]. split; [exact H2|]. split; [exact H3|].
  exact (cancelled_job_fails (Examples.service_cancelled_at 5) Examples.mini_request
           (Some (KnowledgeGraphService.channel (Examples.service_cancelled_at 5)))
           world0 [ECancelled; EProgress Examples.first_progress] H1 H2 H3).
Defined.

(* ===================================================================== *)
(** * Further properties of the code *)
(* ===================================================================== *)

(** ** The file filter *)

Lemma union_fold (f : string -> gset string) (ext : string) (langs : list string) :
  forall acc : gset string,
    ext ∈ fold_left (fun allowed lang => allowed ∪ f lang) langs acc
    <-> ext ∈ acc \/ exists lang, In lang langs /\ ext ∈ f lang.
Proof.
  induction langs as [|lang langs IH]; intros acc; cbn [fold_left].
  - split; [auto|]. intros [H|(lang & [] & _)]. exact H.
  - rewrite IH, elem_of_union. split.
    + intros [[H|H]|(l & Hl & H)].
      * now left.
      * right. exists lang. split; [now left|assumption].
      * right. exists l. split; [now right|assumption].
    + intros [H|(l & [<-|Hl] & H)].
      * left. now left.
      * left. now right.
      * right. now exists l.
Qed.

Lemma included_by_step (self : FileFilter.t) (langs : option (list string))
    (file_path : string) :
  Spec.included_by self langs file_path
  = FileFilter.should_parse_file self file_path None
    && (negb (FileFilter.given langs)
        || bool_decide (lower (PyPath.suffix file_path)
                        ∈ FileFilter.allowed_extensions self langs)).
Proof.
  unfold Spec.included_by, FileFilter.allowed_extensions. f_equal.
  destruct (FileFilter.given langs); [|reflexivity]. cbn [negb orb].
  apply eq_true_iff_eq. rewrite existsb_exists, bool_decide_eq_true.
  rewrite (union_fold (FileFilter.get_language_specific_inclusions self)). split.
  - intros (lang & Hl & H). apply bool_decide_eq_true in H. eauto.
  - intros [H|(lang & Hl & H)]; [now apply elem_of_empty in H|].
    exists lang. split; [assumption|]. now apply bool_decide_eq_true.
Qed.

(** [filter_files] splits the paths, in their order, into those that the
    filter accepts without a size and, when target languages are given,
    whose lower-cased suffix is an inclusion of one of the languages, and
    the others; so every path lands in exactly one of the two lists. *)
Theorem filter_files_partition (self : FileFilter.t) (file_paths : list string)
    (target_languages : option (list string)) :
  FileFilter.filter_files self file_paths target_languages
  = (List.filter (Spec.included_by self target_languages) file_paths,
     List.filter (fun p => negb (Spec.included_by self target_languages p)) file_paths)
  /\ Permutation file_paths
       ((FileFilter.filter_files self file_paths target_languages).1
        ++ (FileFilter.filter_files self file_paths target_languages).2).
Proof.
  assert (E : forall acc : list string * list string,
             fold_left
               (fun (acc : list string * list string) file_path =>
                  if FileFilter.should_parse_file self file_path None then
                    if FileFilter.given target_languages then
                      if bool_decide (lower (PyPath.suffix file_path)
                                      ∈ FileFilter.allowed_extensions self target_languages)
                      then ((acc.1 ++ [file_path])%list, acc.2)
                      else (acc.1, (acc.2 ++ [file_path])%list)
                    else ((acc.1 ++ [file_path])%list, acc.2)
                  else (acc.1, (acc.2 ++ [file_path])%list))
               file_paths acc
             = ((acc.1 ++ List.filter (Spec.included_by self target_languages)
                                      file_paths)%list,
                (acc.2 ++ List.filter
                            (fun p => negb (Spec.included_by self target_languages p))
                            file_paths)%list)).
  { induction file_paths as [|p l IH]; intros [inc exc];
      cbn [fold_left List.filter fst snd].
    - now rewrite !app_nil_r.
    - rewrite IH, (included_by_step self target_languages p).
      destruct (FileFilter.should_parse_file self p None);
        cbn [andb negb fst snd]; [|now rewrite <- app_assoc].
      destruct (FileFilter.given target_languages);
        cbn [andb orb negb fst snd]; [|now rewrite <- app_assoc].
      destruct (bool_decide _); cbn [negb fst snd]; now rewrite <- app_assoc. }
  assert (E' : FileFilter.filter_files self file_paths target_languages
               = (List.filter (Spec.included_by self target_languages) file_paths,
                  List.filter
                    (fun p => negb (Spec.included_by self target_languages p))
                    file_paths)).
  { unfold FileFilter.filter_files. cbv zeta. now rewrite E. }
  split; [exact E'|]. rewrite E'. cbn [fst snd].
  clear E E'. induction file_paths as [|p l IH]; cbn [List.filter app];
    [constructor|].
  destruct (Spec.included_by self target_languages p); cbn [negb app].
  - now constructor.
  - now apply Permutation_cons_app.
Qed.



(** ** Language detection *)

Lemma dict_get_Some {A} (k : string) (d : list (string * A)) (v : A) :
  NoDup (List.map fst d) -> In (k, v) d -> TreeSitterParser.dict_get k d = Some v.
Proof.
  induction d as [|[k0 v0] d IH]; simpl; intros Hnd; [intros []|].
  apply NoDup_cons in Hnd as [Hk Hd]. rewrite list_elem_of_In in Hk.
  intros [[= -> ->]|Hin]; [now rewrite eqb_same|].
  destruct (eqb k k0) eqn:E; [|auto].
  apply eqb_true in E. subst k0. exfalso. apply Hk.
  apply in_map_iff. now exists (k, v).
Qed.

(** [detect_language] answers with a configured language that lists the
    lower-cased suffix of the path, and with [None] only when no configured
    language lists it. *)
Theorem detect_language_spec (self : TreeSitterParser.t) (file_path : string) :
  NoDup (TreeSitterParser.get_supported_languages self) ->
  match TreeSitterParser.detect_language self file_path with
  | Some language =>
      exists config,
        TreeSitterParser.get_language_config self language = Some config
        /\ In (lower (PyPath.suffix file_path)) (file_extensions config)
  | None =>
      forall language config,
        TreeSitterParser.get_language_config self language = Some config ->
        ~ In (lower (PyPath.suffix file_path)) (file_extensions config)
  end.
Proof.
  intros Hnd. unfold TreeSitterParser.detect_language. cbv zeta.
  destruct (List.find _ (TreeSitterParser.language_configs self))
    as [[language config]|] eqn:E; cbn [fmap option_fmap option_map fst].
  - apply find_some in E as [Hin Hmem]. exists config. split.
    + now apply dict_get_Some.
    + now apply mem_true.
  - intros language config Hget Hext.
    apply dict_get_In in Hget.
    pose proof (find_none _ _ E _ Hget) as Hmem. cbn [snd] in Hmem.
    apply mem_true in Hext. congruence.
Qed.

Lemma detect_language_witness :
  NoDup (TreeSitterParser.get_supported_languages TreeSitterParser.init)
  /\ match TreeSitterParser.detect_language TreeSitterParser.init "stats/Model.R" with
     | Some language =>
         exists config,
           TreeSitterParser.get_language_config TreeSitterParser.init language
           = Some config
           /\ In (lower (PyPath.suffix "stats/Model.R")) (file_extensions config)
     | None =>
         forall language config,
           TreeSitterParser.get_language_config TreeSitterParser.init language
           = Some config ->
           ~ In (lower (PyPath.suffix "stats/Model.R")) (file_extensions config)
     end.
Proof.
  assert (H : NoDup (TreeSitterParser.get_supported_languages TreeSitterParser.init))
    by compute_done.
  split; [exact H|].
  exact (detect_language_spec TreeSitterParser.init "stats/Model.R" H).
Defined.

(** With the default configuration, a file whose suffix is that of the
    configured languages json and yaml is detected as such and yet never
    accepted by [should_parse_file]: the file filter excludes these
    suffixes. *)
Theorem configuration_files_never_parsed (file_path : string) (sz : option Z) :
  In (lower (PyPath.suffix file_path)) [".json"; ".yml"; ".yaml"] ->
  (exists language,
      TreeSitterParser.detect_language TreeSitterParser.init file_path = Some language
      /\ In language ["json"; "yaml"])
  /\ TreeSitterParser.should_parse_file TreeSitterParser.init file_path sz = false.
Proof.
  intros Hext.
  assert (Hfilter : forall ext,
             lower (PyPath.suffix file_path) = ext ->
             bool_decide (ext ∈ FileFilter.excluded_extensions FileFilter.init) = true ->
             FileFilter.should_parse_file FileFilter.init file_path sz = false).
  { intros ext E Hin. unfold FileFilter.should_parse_file.
    destruct (match sz with Some s => _ | None => false end); [reflexivity|].
    destruct (FileFilter._is_in_excluded_directory FileFilter.init file_path);
      [reflexivity|].
    now rewrite E, Hin. }
  unfold TreeSitterParser.should_parse_file, TreeSitterParser.detect_language.
  cbv zeta.
  destruct Hext as [E|[E|[E|[]]]]; rewrite <- E.
  - split; [exists "json"; split; [reflexivity|now left]|].
    apply (Hfilter ".json"); [now symmetry|reflexivity].
  - split; [exists "yaml"; split; [reflexivity|right; now left]|].
    apply (Hfilter ".yml"); [now symmetry|reflexivity].
  - split; [exists "yaml"; split; [reflexivity|right; now left]|].
    apply (Hfilter ".yaml"); [now symmetry|reflexivity].
Qed.

Lemma configuration_files_witness :
  In (lower (PyPath.suffix "conf/App.YAML")) [".json"; ".yml"; ".yaml"]
  /\ (exists language,
         TreeSitterParser.detect_language TreeSitterParser.init "conf/App.YAML"
         = Some language
         /\ In language ["json"; "yaml"])
  /\ TreeSitterParser.should_parse_file TreeSitterParser.init "conf/App.YAML"
       (Some 10%Z) = false.
Proof.
  assert (H : In (lower (PyPath.suffix "conf/App.YAML")) [".json"; ".yml"; ".yaml"])
    by (vm_compute; tauto).
  split; [exact H|].
  exact (configuration_files_never_parsed "conf/App.YAML" (Some 10%Z) H).
Defined.

(** ** What the file parser returns *)

Section Returns.
Import Invariants.

Lemma returns_ret {A} (Q : A -> Prop) (a : A) : Q a -> returns Q (ret a).
Proof. intros H w. exact H. Qed.

Lemma returns_raise {A} (Q : A -> Prop) (e : exn) : returns Q (raise e).
Proof. intros w. exact Logic.I. Qed.

Lemma returns_bind {A B} (P : A -> Prop) (Q : B -> Prop) (m : M A) (k : A -> M B) :
  returns P m -> (forall a, P a -> returns Q (k a)) -> returns Q (bind m k).
Proof.
  intros Hm Hk w. unfold bind. specialize (Hm w).
  destruct (m w) as [[a|e] w1]; [|exact Logic.I]. apply (Hk a Hm).
Qed.

Lemma returns_bind_any {A B} (Q : B -> Prop) (m : M A) (k : A -> M B) :
  (forall a, returns Q (k a)) -> returns Q (bind m k).
Proof.
  intros Hk. apply (returns_bind (fun _ => True)); [|auto].
  intros w. now destruct (m w) as [[a|e] w1].
Qed.

Lemma returns_try_except {A} (Q : A -> Prop) (m : M A) (h : string -> string -> M A) :
  returns Q m -> (forall cls msg, returns Q (h cls msg)) ->
  returns Q (try_except m h).
Proof.
  intros Hm Hh w. unfold try_except. specialize (Hm w).
  destruct (m w) as [[a|[cls msg|msg]] w1]; [exact Hm| |exact Logic.I].
  apply Hh.
Qed.

Lemma returns_weaken {A} (P Q : A -> Prop) (m : M A) :
  (forall a, P a -> Q a) -> returns P m -> returns Q m.
Proof.
  intros H Hm w. specialize (Hm w). destruct (m w) as [[a|e] w1]; auto.
Qed.

Lemma returns_fold_m {A B} (Q : B -> Prop) (body : B -> A -> M B) (l : list A) :
  (forall acc x, Q acc -> returns Q (body acc x)) ->
  forall acc, Q acc -> returns Q (fold_m body l acc).
Proof.
  intros Hb. induction l as [|x l IH]; intros acc Hacc; simpl.
  - now apply returns_ret.
  - apply (returns_bind Q); auto.
Qed.

End Returns.

Section Star.
Import Invariants Spec.
Context (file_path language : string) (repository_id : UUID) (file_node : KGNode).

Lemma star_snoc (acc : TreeSitterParser.parsed) (n : KGNode) (rid : UUID)
    (ty : RelationshipType) :
  star_from file_node file_path language repository_id acc ->
  of_file file_path language repository_id n ->
  on_a_line n ->
  ty = parser_edge_kind n ->
  star_from file_node file_path language repository_id
    ((acc.1 ++ [n])%list,
     (acc.2 ++ [TreeSitterParser.file_edge rid file_node n ty])%list).
Proof.
  intros (others & E & Hof & Hline & Hshape & Hconf) Hn Hl ->.
  exists (others ++ [n])%list. cbn [fst snd]. split; [now rewrite E|].
  split; [apply Forall_app; split; [assumption|now constructor]|].
  split; [apply Forall_app; split; [assumption|now constructor]|].
  split.
  - now rewrite !map_app, Hshape.
  - apply Forall_app. split; [assumption|]. constructor; [|constructor].
    reflexivity.
Qed.

(** A node that [new_node] makes on line [i + 1] of the file. *)
Lemma new_node_on_line (id : UUID) (ty : NodeType) (name fqn : string) (i : nat)
    (props : jdict) (src doc : option string) (cx : option Z) (pub : bool) :
  ty <> FILE ->
  of_file file_path language repository_id
    (new_node id repository_id ty name fqn file_path (Some (Z.of_nat (i + 1)))
              language props src doc cx pub)
  /\ on_a_line
       (new_node id repository_id ty name fqn file_path (Some (Z.of_nat (i + 1)))
                 language props src doc cx pub).
Proof.
  intros Hty. split; [repeat split|]. split; [exact Hty|].
  exists (Z.of_nat (i + 1)). split; [reflexivity|lia].
Qed.

(** The steps of a proof that a loop of the parser keeps the star. *)
Ltac star_leaf :=
  first
    [ assumption
    | apply star_snoc;
      [ assumption
      | apply new_node_on_line; discriminate
      | apply new_node_on_line; discriminate
      | reflexivity ] ].

Ltac star_step :=
  lazymatch goal with
  | |- returns _ (bind _ _) => apply returns_bind_any; intros
  | |- returns _ (ret _) => apply returns_ret; star_leaf
  | |- returns _ (raise _) => apply returns_raise
  | |- returns _ (if ?b then _ else _) => destruct b
  | |- returns _ (match ?x with _ => _ end) => destruct x
  | |- returns _ (let _ := _ in _) => cbv zeta
  end.

Ltac star_auto := cbv zeta; repeat star_step.

Context (cancellation_check : option (M unit)).

Lemma oo_loop_star (self : TreeSitterParser.t) (rest : list string) :
  forall i acc,
    star_from file_node file_path language repository_id acc ->
    returns (star_from file_node file_path language repository_id)
      (TreeSitterParser.oo_loop self file_path language repository_id
         cancellation_check file_node i rest acc).
Proof.
  induction rest as [|line tl IH]; intros i acc Hacc; simpl.
  - now apply returns_ret.
  - apply (returns_bind (star_from file_node file_path language repository_id));
      [|intros; now apply IH].
    unfold TreeSitterParser.oo_step. star_auto.
Qed.

Lemma proc_loop_star (self : TreeSitterParser.t) (rest : list string) :
  forall i acc,
    star_from file_node file_path language repository_id acc ->
    returns (star_from file_node file_path language repository_id)
      (TreeSitterParser.proc_loop self file_path language repository_id
         cancellation_check file_node i rest acc).
Proof.
  induction rest as [|line tl IH]; intros i acc Hacc; simpl.
  - now apply returns_ret.
  - apply (returns_bind (star_from file_node file_path language repository_id));
      [|intros; now apply IH].
    unfold TreeSitterParser.proc_step, TreeSitterParser.emit_function. star_auto.
Qed.

Lemma basic_loop_star (rest : list string) :
  forall i acc,
    star_from file_node file_path language repository_id acc ->
    returns (star_from file_node file_path language repository_id)
      (TreeSitterParser.basic_loop file_path language repository_id
         cancellation_check file_node i rest acc).
Proof.
  induction rest as [|line tl IH]; intros i acc Hacc; simpl.
  - now apply returns_ret.
  - apply (returns_bind (star_from file_node file_path language repository_id));
      [|intros; now apply IH].
    unfold TreeSitterParser.basic_step, TreeSitterParser.emit_variable. star_auto.
Qed.

End Star.

Lemma star_start (file_path language : string) (repository_id : UUID)
    (file_node : KGNode) :
  Spec.star_from file_node file_path language repository_id ([file_node], []).
Proof.
  exists []. repeat split; constructor.
Qed.

Lemma parse_by_language_star (self : TreeSitterParser.t)
    (language content file_path : string) (repository_id : UUID)
    (cancellation_check : option (M unit)) :
  Invariants.returns (Spec.star file_path language repository_id)
    (TreeSitterParser.parse_by_language self language content file_path
       repository_id cancellation_check).
Proof.
  unfold TreeSitterParser.parse_by_language,
    TreeSitterParser._parse_object_oriented_file,
    TreeSitterParser._parse_procedural_file, TreeSitterParser._parse_basic_file.
  destruct (mem language _); [|destruct (mem language _)];
    apply returns_bind_any; intros _; apply returns_bind_any; intros id; cbv zeta.
  - eapply returns_weaken; [|apply oo_loop_star, star_start].
    intros out Hout. eexists. repeat split; [..|exact Hout]; reflexivity.
  - eapply returns_weaken; [|apply proc_loop_star, star_start].
    intros out Hout. eexists. repeat split; [..|exact Hout]; reflexivity.
  - eapply returns_weaken; [|apply basic_loop_star, star_start].
    intros out Hout. eexists. repeat split; [..|exact Hout]; reflexivity.
Qed.

(** Whatever the probe and the progress callback do, a result of
    [parse_file] that reports success comes with a file node, named after
    the path and without lines, followed by nodes that lie on lines of the
    file; all of them carry the path, the repository and the detected
    language, and none a last line; there is exactly one relationship to
    each node after the first, from the file node, of kind imports to an
    import node and contains otherwise; and the result counts the nodes and
    the relationships.  A result that reports failure comes with no node
    and no relationship. *)
Theorem parse_file_output (self : TreeSitterParser.t) (file_path content : string)
    (repository_id : UUID) (progress_callback : option (string -> Z -> M unit))
    (cancellation_check : option (M unit)) (w w' : world)
    (out : TreeSitterParser.parse_output) :
  TreeSitterParser.parse_file self file_path content repository_id
    progress_callback cancellation_check w = (Ok out, w') ->
  if fpr_success out.2 then
    exists language,
      TreeSitterParser.detect_language self file_path = Some language
      /\ Spec.star file_path language repository_id (out.1.1, out.1.2)
      /\ nodes_extracted out.2 = List.length out.1.1
      /\ relationships_extracted out.2 = List.length out.1.2
  else out.1.1 = [] /\ out.1.2 = [].
Proof.
  assert (H : Invariants.returns
                (fun out : TreeSitterParser.parse_output =>
                   if fpr_success out.2 then
                     exists language,
                       TreeSitterParser.detect_language self file_path = Some language
                       /\ Spec.star file_path language repository_id (out.1.1, out.1.2)
                       /\ nodes_extracted out.2 = List.length out.1.1
                       /\ relationships_extracted out.2 = List.length out.1.2
                   else out.1.1 = [] /\ out.1.2 = [])
                (TreeSitterParser.parse_file self file_path content repository_id
                   progress_callback cancellation_check)).
  { unfold TreeSitterParser.parse_file.
    apply returns_bind_any. intros _.
    destruct (TreeSitterParser.detect_language self file_path) as [language|] eqn:E.
    - apply returns_try_except.
      + unfold TreeSitterParser.parse_body.
        apply returns_bind_any. intros _.
        apply (returns_bind (Spec.star file_path language repository_id));
          [apply parse_by_language_star|].
        intros pr Hpr. apply returns_bind_any. intros _. apply returns_ret.
        cbn [fst snd fpr_success nodes_extracted relationships_extracted].
        exists language. split; [reflexivity|]. split; [|split; reflexivity].
        now destruct pr as [nodes rels].
      + intros cls msg. apply returns_ret. now split.
    - apply returns_ret. now split. }
  intros E. specialize (H w). now rewrite E in H.
Qed.

Lemma parse_file_output_witness :
  exists out w',
    TreeSitterParser.parse_file TreeSitterParser.init "a.py" Examples.a_py 77
      None None world0 = (Ok out, w')
    /\ if fpr_success out.2 then
         exists language,
           TreeSitterParser.detect_language TreeSitterParser.init "a.py"
           = Some language
           /\ Spec.star "a.py" language 77 (out.1.1, out.1.2)
           /\ nodes_extracted out.2 = List.length out.1.1
           /\ relationships_extracted out.2 = List.length out.1.2
       else out.1.1 = [] /\ out.1.2 = [].
Proof.
  destruct (TreeSitterParser.parse_file TreeSitterParser.init "a.py" Examples.a_py 77
              None None world0) as [[out|e] w'] eqn:E;
    [|vm_compute in E; discriminate E].
  exists out, w'. split; [reflexivity|].
  exact (parse_file_output TreeSitterParser.init "a.py" Examples.a_py 77 None None
           world0 w' out E).
Defined.

(** ** Looking nodes up by line *)

Lemma max_by_spec {A} (key : A -> Z) (l : list A) :
  forall best,
    In (GraphBuilder.max_by key best l) (best :: l)
    /\ forall x, In x (best :: l) -> (key x <= key (GraphBuilder.max_by key best l))%Z.
Proof.
  induction l as [|y l IH]; intros best; simpl.
  - split; [now left|]. intros x [<-|[]]. lia.
  - destruct (IH (if (key best <? key y)%Z then y else best)) as [Hin Hmax].
    split.
    + destruct (key best <? key y)%Z; destruct Hin as [<-|Hin]; auto.
    + intros x Hx.
      destruct (key best <? key y)%Z eqn:E.
      * apply Z.ltb_lt in E. destruct Hx as [<-|[<-|Hx]].
        -- specialize (Hmax y (or_introl eq_refl)). lia.
        -- apply Hmax. now left.
        -- apply Hmax. now right.
      * apply Z.ltb_ge in E. destruct Hx as [<-|[<-|Hx]].
        -- apply Hmax. now left.
        -- specialize (Hmax best (or_introl eq_refl)). lia.
        -- apply Hmax. now right.
Qed.

Lemma min_by_spec {A} (key : A -> Z) (l : list A) :
  forall best,
    In (GraphBuilder.min_by key best l) (best :: l)
    /\ forall x, In x (best :: l) -> (key (GraphBuilder.min_by key best l) <= key x)%Z.
Proof.
  induction l as [|y l IH]; intros best; simpl.
  - split; [now left|]. intros x [<-|[]]. lia.
  - destruct (IH (if (key y <? key best)%Z then y else best)) as [Hin Hmin].
    split.
    + destruct (key y <? key best)%Z; destruct Hin as [<-|Hin]; auto.
    + intros x Hx.
      destruct (key y <? key best)%Z eqn:E.
      * apply Z.ltb_lt in E. destruct Hx as [<-|[<-|Hx]].
        -- specialize (Hmin y (or_introl eq_refl)). lia.
        -- apply Hmin. now left.
        -- apply Hmin. now right.
      * apply Z.ltb_ge in E. destruct Hx as [<-|[<-|Hx]].
        -- apply Hmin. now left.
        -- specialize (Hmin best (or_introl eq_refl)). lia.
        -- apply Hmin. now right.
Qed.

Lemma at_line_simpl (line_num : Z) (n : KGNode) :
  GraphBuilder.at_line line_num n
  = truthy (line_start n) && (or0 (line_start n) <=? line_num)%Z.
Proof.
  unfold GraphBuilder.at_line.
  destruct (truthy (line_start n)), (truthy (line_end n)),
    (or0 (line_start n) <=? line_num)%Z, (line_num <=? or0 (line_end n))%Z;
    reflexivity.
Qed.

Lemma at_line_spec (line_num : Z) (n : KGNode) :
  GraphBuilder.at_line line_num n = true <-> Spec.starts_by line_num n.
Proof.
  rewrite at_line_simpl. unfold Spec.starts_by, truthy, or0.
  rewrite andb_true_iff, Z.leb_le.
  destruct (line_start n) as [s|]; cbn [default].
  - rewrite negb_true_iff, Z.eqb_neq. split.
    + intros [Hs Hle]. now exists s.
    + intros (s' & [= <-] & Hs & Hle). now split.
  - split; [intros [[=] _]|intros (s & [=] & _)].
Qed.

(** [_find_node_at_line] answers with a node of the list that starts on a
    non-zero line not after the given one, and among these with one whose
    first line is the latest, whether or not the line lies before the last
    line of that node; it answers [None] only when no node of the list
    starts by the given line. *)
Theorem find_node_at_line_spec (nodes : list KGNode) (line_num : Z) :
  match GraphBuilder._find_node_at_line nodes line_num with
  | Some n =>
      In n nodes /\ Spec.starts_by line_num n
      /\ forall m, In m nodes -> Spec.starts_by line_num m ->
                   (or0 (line_start m) <= or0 (line_start n))%Z
  | None => forall m, In m nodes -> ~ Spec.starts_by line_num m
  end.
Proof.
  unfold GraphBuilder._find_node_at_line.
  destruct (List.filter (GraphBuilder.at_line line_num) nodes) as [|c cs] eqn:E.
  - intros m Hm Hs. apply at_line_spec in Hs.
    assert (Hin : In m (List.filter (GraphBuilder.at_line line_num) nodes))
      by (apply filter_In; auto).
    rewrite E in Hin. destruct Hin.
  - destruct (max_by_spec (fun x => or0 (line_start x)) cs c) as [Hin Hmax].
    rewrite <- E in Hin. apply filter_In in Hin as [Hin Hat].
    split; [exact Hin|]. split; [now apply at_line_spec|].
    intros m Hm Hs. apply (Hmax m). rewrite <- E. apply filter_In.
    split; [assumption|now apply at_line_spec].
Qed.

Lemma encloses_spec (node candidate : KGNode) :
  truthy (line_start node) = true ->
  GraphBuilder.encloses node candidate = true <-> Spec.strictly_encloses node candidate.
Proof.
  intros Hn. unfold GraphBuilder.encloses, Spec.strictly_encloses, Spec.last_line.
  rewrite !andb_true_iff, negb_true_iff, bool_decide_eq_false, !Z.ltb_lt.
  tauto.
Qed.

(** [_find_parent_node] answers with another node of the list that has a
    first and a last line, starts before the node and ends after it, and
    among these with one of the smallest extent; it answers [None] when the
    node has no first line or no node of the list encloses it, and so
    always when no node of the list has a last line. *)
Theorem find_parent_node_spec (node : KGNode) (all_nodes : list KGNode) :
  match GraphBuilder._find_parent_node node all_nodes with
  | Some parent =>
      In parent all_nodes /\ Spec.strictly_encloses node parent
      /\ forall c, In c all_nodes -> Spec.strictly_encloses node c ->
                   (GraphBuilder.span parent <= GraphBuilder.span c)%Z
  | None => forall c, In c all_nodes -> ~ Spec.strictly_encloses node c
  end
  /\ ((forall c, In c all_nodes -> line_end c = None) ->
      GraphBuilder._find_parent_node node all_nodes = None).
Proof.
  assert (H : match GraphBuilder._find_parent_node node all_nodes with
              | Some parent =>
                  In parent all_nodes /\ Spec.strictly_encloses node parent
                  /\ forall c, In c all_nodes -> Spec.strictly_encloses node c ->
                               (GraphBuilder.span parent <= GraphBuilder.span c)%Z
              | None => forall c, In c all_nodes -> ~ Spec.strictly_encloses node c
              end).
  { unfold GraphBuilder._find_parent_node.
    destruct (truthy (line_start node)) eqn:Hn; cbn [negb].
    - destruct (List.filter (GraphBuilder.encloses node) all_nodes) as [|c cs] eqn:E.
      + intros m Hm Hs. apply (encloses_spec _ _ Hn) in Hs.
        assert (Hin : In m (List.filter (GraphBuilder.encloses node) all_nodes))
          by (apply filter_In; auto).
        rewrite E in Hin. destruct Hin.
      + destruct (min_by_spec GraphBuilder.span cs c) as [Hin Hmin].
        rewrite <- E in Hin. apply filter_In in Hin as [Hin Hat].
        split; [exact Hin|]. split; [now apply (encloses_spec _ _ Hn)|].
        intros m Hm Hs. apply (Hmin m). rewrite <- E. apply filter_In.
        split; [assumption|now apply (encloses_spec _ _ Hn)].
    - intros c _ (_ & Hn' & _). congruence. }
  split; [exact H|].
  intros Hnone.
  destruct (GraphBuilder._find_parent_node node all_nodes) as [parent|];
    [|reflexivity].
  destruct H as (Hin & (_ & _ & _ & Hend & _) & _).
  rewrite (Hnone parent Hin) in Hend. discriminate Hend.
Qed.

(** ** What the graph builder returns *)

Section Builder.
Import GraphBuilder Spec Invariants.

Lemma returns_fold_m_in {A B} (Q : B -> Prop) (body : B -> A -> M B) (l : list A) :
  (forall acc x, In x l -> Q acc -> returns Q (body acc x)) ->
  forall acc, Q acc -> returns Q (fold_m body l acc).
Proof.
  induction l as [|x l IH]; intros Hb acc Hacc; simpl.
  - now apply returns_ret.
  - apply (returns_bind Q).
    + apply Hb; [now left|assumption].
    + intros acc' Hacc'. apply IH; [|assumption].
      intros a y Hy. apply Hb. now right.
Qed.

Lemma find_node_at_line_In (nodes : list KGNode) (line_num : Z) (n : KGNode) :
  _find_node_at_line nodes line_num = Some n -> In n nodes.
Proof.
  unfold _find_node_at_line.
  destruct (List.filter (at_line line_num) nodes) as [|c cs] eqn:E; [discriminate|].
  intros [= <-].
  destruct (max_by_spec (fun x => or0 (line_start x)) cs c) as [Hin _].
  rewrite <- E in Hin. now apply filter_In in Hin as [Hin _].
Qed.

Lemma find_parent_node_In (node : KGNode) (all_nodes : list KGNode) (p : KGNode) :
  _find_parent_node node all_nodes = Some p -> In p all_nodes.
Proof.
  unfold _find_parent_node. destruct (negb _); [discriminate|].
  destruct (List.filter (encloses node) all_nodes) as [|c cs] eqn:E; [discriminate|].
  intros [= <-].
  destruct (min_by_spec span cs c) as [Hin _].
  rewrite <- E in Hin. now apply filter_In in Hin as [Hin _].
Qed.

Lemma index_by_name_In (nodes : list KGNode) (name : string) (t : KGNode) :
  index_by_name nodes !! name = Some t -> In t nodes.
Proof.
  unfold index_by_name.
  assert (H : forall m0 : gmap string KGNode,
             fold_left (fun m node => <[node_name node := node]> m) nodes m0 !! name
             = Some t ->
             In t nodes \/ m0 !! name = Some t).
  { induction nodes as [|x l IH]; intros m0; cbn [fold_left]; [auto|].
    intros Hl. destruct (IH _ Hl) as [Hin|Hm]; [left; now right|].
    apply lookup_insert_Some in Hm as [[_ <-]|[_ Hm]]; [left; now left|now right]. }
  intros Hl. destruct (H ∅ Hl) as [Hin|Hm]; [exact Hin|].
  now rewrite lookup_empty in Hm.
Qed.

Lemma first_reference_In (file_nodes : list KGNode) (name : string)
    (lines : list string) :
  forall (line_num l : Z) (r : KGNode),
    first_reference file_nodes name line_num lines = Some (l, r) -> In r file_nodes.
Proof.
  induction lines as [|line lines IH]; intros line_num l r; cbn [first_reference];
    [discriminate|].
  destruct (contains name line); [|apply IH].
  destruct (_find_node_at_line file_nodes line_num) as [n|] eqn:E; [|apply IH].
  intros [= _ <-]. now apply find_node_at_line_In in E.
Qed.

Lemma group_member (nodes : list KGNode) (group : string * list KGNode) (n : KGNode) :
  In group (group_by_file nodes) -> In n group.2 ->
  In n nodes /\ file_path n = group.1.
Proof.
  destruct group as [k l]. intros Hg Hn.
  destruct (group_by_file_spec nodes) as (_ & Hgroups & _).
  rewrite (Hgroups k l Hg) in Hn. apply filter_In in Hn as [Hin Hp].
  split; [assumption|]. now apply eqb_true.
Qed.

Context (nodes : list KGNode) (cancellation_check : option (M unit)).

(** *** Within a file *)

Lemma scan_well_formed (file_nodes : list KGNode) (content : string)
    (ty : RelationshipType) (conf : Q) (due : KGNode -> KGNode -> bool)
    (patterns : option (list Regex.regex)) (rels : list KGRelationship) :
  (forall s t id ctx,
      In s file_nodes -> In t file_nodes -> due s t = true ->
      well_formed nodes (new_relationship id (nid s) (nid t) ty conf ctx)) ->
  Forall (well_formed nodes) rels ->
  returns (Forall (well_formed nodes))
    (scan file_nodes content cancellation_check (index_by_name file_nodes)
          ty conf due patterns rels).
Proof.
  intros Hdue Hrels. unfold scan.
  apply returns_fold_m; [|assumption]. intros acc pattern Hacc.
  apply returns_fold_m; [|assumption]. intros acc' m Hacc'.
  unfold on_match. apply returns_bind_any. intros _. cbv zeta.
  destruct (_find_node_at_line file_nodes _) as [subject|] eqn:Es;
    [|now apply returns_ret].
  destruct (index_by_name file_nodes !! _) as [target|] eqn:Et;
    [|now apply returns_ret].
  destruct (due subject target) eqn:Ed; [|now apply returns_ret].
  apply returns_bind_any. intros id. apply returns_ret.
  apply Forall_app. split; [assumption|]. constructor; [|constructor].
  apply Hdue; [|now apply index_by_name_In in Et|assumption].
  now apply find_node_at_line_In in Es.
Qed.

Lemma intra_file_well_formed (file_nodes : list KGNode) (content language : string) :
  (forall n, In n file_nodes -> In n nodes) ->
  (forall n m, In n file_nodes -> In m file_nodes -> file_path n = file_path m) ->
  returns (Forall (well_formed nodes))
    (_build_intra_file_relationships file_nodes content language cancellation_check).
Proof.
  intros Hsub Hpath. unfold _build_intra_file_relationships. cbv zeta.
  apply (returns_bind (Forall (well_formed nodes))).
  { apply scan_well_formed; [|constructor].
    intros s t id ctx Hs Ht Hd. exists s, t. repeat split; auto.
    apply negb_true_iff, bool_decide_eq_false in Hd. exact Hd. }
  intros r1 Hr1. apply (returns_bind (Forall (well_formed nodes))).
  { apply scan_well_formed; [|assumption].
    intros s t id ctx Hs Ht Hd. exists s, t. repeat split; auto.
    now apply bool_decide_eq_true in Hd. }
  intros r2 Hr2. apply scan_well_formed; [|assumption].
  intros s t id ctx Hs Ht Hd. exists s, t. repeat split; auto.
Qed.

(** *** Across files *)

Lemma cross_file_well_formed (file_contents : list (string * string)) :
  returns (Forall (well_formed nodes))
    (_build_cross_file_relationships nodes file_contents cancellation_check).
Proof.
  unfold _build_cross_file_relationships. cbv zeta.
  apply (returns_bind (Forall (well_formed nodes))).
  { apply returns_fold_m_in; [|constructor].
    intros acc import_node Hin Hacc. unfold link_import.
    apply returns_bind_any. intros _.
    apply filter_In in Hin as [Hin Hty]. apply bool_decide_eq_true in Hty.
    destruct (List.find _ nodes) as [node|] eqn:E; [|now apply returns_ret].
    apply find_some in E as [Hnode Htarget].
    apply returns_bind_any. intros id. apply returns_ret.
    apply Forall_app. split; [assumption|]. constructor; [|constructor].
    exists import_node, node. repeat split; auto.
    unfold import_target in Htarget.
    apply andb_true_iff in Htarget as [Htarget _].
    apply orb_true_iff in Htarget as [H|H]; apply bool_decide_eq_true in H; auto. }
  intros r1 Hr1. apply returns_fold_m; [|assumption].
  intros acc fc Hacc. apply returns_bind_any. intros _. cbv zeta.
  destruct (List.filter _ nodes) as [|f fs] eqn:Ef; [now apply returns_ret|].
  rewrite <- Ef. apply returns_fold_m_in; [|assumption].
  intros acc' node Hnode Hacc'. unfold link_reference.
  destruct (negb (eqb (file_path node) fc.1) && _) eqn:Ec; [|now apply returns_ret].
  destruct (first_reference _ _ _ _) as [[line_num referencer]|] eqn:Er;
    [|now apply returns_ret].
  apply returns_bind_any. intros id. apply returns_ret.
  apply Forall_app. split; [assumption|]. constructor; [|constructor].
  apply first_reference_In, filter_In in Er as [Hr Hp]. apply eqb_true in Hp.
  apply andb_true_iff in Ec as [Ec _]. apply negb_true_iff, eqb_false in Ec.
  exists referencer, node. repeat split; auto. congruence.
Qed.

(** *** Containment *)

Lemma containment_well_formed :
  returns (Forall (well_formed nodes))
    (_build_containment_relationships nodes cancellation_check).
Proof.
  unfold _build_containment_relationships.
  apply returns_fold_m_in; [|constructor].
  intros acc group Hgroup Hacc. unfold contain_file.
  apply returns_bind_any. intros _.
  destruct (List.find is_file group.2) as [file_node|] eqn:Ef;
    [|now apply returns_ret].
  apply find_some in Ef as [Hfile _]. cbv zeta.
  apply returns_fold_m_in; [|assumption].
  intros acc' node Hnode Hacc'. unfold contain_node.
  apply returns_bind_any. intros id.
  apply sorted_non_file_In in Hnode as [Hnode Hnf].
  assert (Hty : node_type node <> FILE).
  { unfold is_file in Hnf. now apply bool_decide_eq_false in Hnf. }
  destruct (group_member nodes group node Hgroup Hnode) as [Hn Hnp].
  destruct (_find_parent_node node _) as [parent_node|] eqn:Ep;
    apply returns_ret; apply Forall_app; (split; [assumption|]);
    (constructor; [|constructor]).
  - apply find_parent_node_In, sorted_non_file_In in Ep as [Hp _].
    destruct (group_member nodes group parent_node Hgroup Hp) as [Hpn Hpp].
    exists parent_node, node. repeat split; auto. congruence.
  - destruct (group_member nodes group file_node Hgroup Hfile) as [Hfn Hfp].
    exists file_node, node. repeat split; auto. congruence.
Qed.

(** *** All passes *)

Lemma build_relationships_returns (file_contents : list (string * string)) :
  returns (Forall (well_formed nodes))
    (build_relationships nodes file_contents cancellation_check).
Proof.
  unfold build_relationships.
  apply (returns_bind (Forall (well_formed nodes))).
  { apply returns_fold_m_in; [|constructor].
    intros acc group Hgroup Hacc. unfold intra_file.
    apply returns_bind_any. intros _. cbv zeta.
    destruct (negb _); [now apply returns_ret|].
    destruct (first_language group.2) as [language|]; [|now apply returns_ret].
    destruct (nonempty language); [|now apply returns_ret].
    apply (returns_bind (Forall (well_formed nodes))).
    - apply intra_file_well_formed.
      + intros n Hn. now apply (group_member nodes group n Hgroup).
      + intros n m Hn Hm.
        destruct (group_member nodes group n Hgroup Hn) as [_ ->].
        now destruct (group_member nodes group m Hgroup Hm) as [_ ->].
    - intros rels Hrels. apply returns_ret. apply Forall_app. now split. }
  intros r1 Hr1. apply (returns_bind (Forall (well_formed nodes)));
    [apply cross_file_well_formed|].
  intros r2 Hr2. apply (returns_bind (Forall (well_formed nodes)));
    [apply containment_well_formed|].
  intros r3 Hr3. apply returns_ret. repeat (apply Forall_app; split); assumption.
Qed.

End Builder.

(** Whatever the texts and the probe, every relationship that
    [build_relationships] returns joins two of the nodes it was given and
    follows the rule of its kind: calls (0.8) between different nodes of a
    file, inherits (0.9) from a class, implements (0.9), imports (0.7) from
    an import node to a file or module node, uses (0.6) between nodes of
    different files, contains (1.0) to a non-file node of the same file;
    no relationship of another kind is made. *)
Theorem build_relationships_well_formed (nodes : list KGNode)
    (file_contents : list (string * string))
    (cancellation_check : option (M unit)) (w w' : world)
    (rels : list KGRelationship) :
  GraphBuilder.build_relationships nodes file_contents cancellation_check w
  = (Ok rels, w') ->
  Forall (Spec.well_formed nodes) rels.
Proof.
  intros E.
  pose proof (build_relationships_returns nodes cancellation_check file_contents w) as H.
  now rewrite E in H.
Qed.

Lemma build_relationships_witness :
  exists rels w',
    GraphBuilder.build_relationships Examples.spanned_nodes
      [("m.py", Examples.a_py)] None world0 = (Ok rels, w')
    /\ Forall (Spec.well_formed Examples.spanned_nodes) rels.
Proof.
  destruct (GraphBuilder.build_relationships Examples.spanned_nodes
              [("m.py", Examples.a_py)] None world0) as [[rels|e] w'] eqn:E;
    [|vm_compute in E; discriminate E].
  exists rels, w'. split; [reflexivity|].
  exact (build_relationships_well_formed Examples.spanned_nodes
           [("m.py", Examples.a_py)] None world0 w' rels E).
Defined.

(** ** Dependency analysis *)

Lemma dict_get_set_same {A} (k : string) (v : A) (d : list (string * A)) :
  TreeSitterParser.dict_get k (GraphBuilder.dict_set k v d) = Some v.
Proof.
  induction d as [|[k' v'] d IH]; simpl; [now rewrite eqb_same|].
  destruct (eqb k k') eqn:E; simpl; [now rewrite eqb_same|].
  now rewrite E.
Qed.

Lemma dict_get_set_other {A} (k k' : string) (v : A) (d : list (string * A)) :
  k' <> k ->
  TreeSitterParser.dict_get k' (GraphBuilder.dict_set k v d)
  = TreeSitterParser.dict_get k' d.
Proof.
  intros Hne. induction d as [|[k0 v0] d IH]; simpl.
  - apply eqb_false in Hne. now rewrite Hne.
  - destruct (eqb k k0) eqn:E; simpl.
    + apply eqb_true in E. subst k0. apply eqb_false in Hne. now rewrite Hne.
    + destruct (eqb k' k0); [reflexivity|exact IH].
Qed.

Lemma successors_set_same (k : string) (v : list string) (g : GraphBuilder.graph) :
  GraphBuilder.successors (GraphBuilder.dict_set k v g) k = v.
Proof.
  unfold GraphBuilder.successors, GraphBuilder.dict_get.
  now rewrite dict_get_set_same.
Qed.

Lemma successors_set_other (k k' : string) (v : list string) (g : GraphBuilder.graph) :
  k' <> k ->
  GraphBuilder.successors (GraphBuilder.dict_set k v g) k'
  = GraphBuilder.successors g k'.
Proof.
  intros Hne. unfold GraphBuilder.successors, GraphBuilder.dict_get.
  now rewrite dict_get_set_other.
Qed.

Lemma set_add_In (t v : string) (l : list string) :
  In v (GraphBuilder.set_add t l) <-> v = t \/ In v l.
Proof.
  unfold GraphBuilder.set_add. destruct (mem t l) eqn:E.
  - apply mem_true in E. split; [auto|]. intros [->|H]; assumption.
  - rewrite in_app_iff. simpl. intuition.
Qed.

Lemma dep_graph_snoc (rels : list KGRelationship) (rel : KGRelationship) :
  GraphBuilder.dep_graph (rels ++ [rel])
  = if GraphBuilder.is_dependency rel then
      GraphBuilder.dict_set (pretty (source_node_id rel))
        (GraphBuilder.set_add (pretty (target_node_id rel))
           (GraphBuilder.successors (GraphBuilder.dep_graph rels)
                                    (pretty (source_node_id rel))))
        (GraphBuilder.dep_graph rels)
    else GraphBuilder.dep_graph rels.
Proof. unfold GraphBuilder.dep_graph. now rewrite fold_left_app. Qed.

(** The dependency graph has an edge exactly where a relationship of a
    dependency kind goes. *)
Lemma dep_graph_edges (rels : list KGRelationship) (u v : string) :
  Spec.edge (GraphBuilder.dep_graph rels) u v <-> Spec.depends rels u v.
Proof.
  induction rels as [|rel rels IH] using rev_ind.
  - split; [intros []|intros (r & [] & _)].
  - rewrite dep_graph_snoc.
    assert (Hold : Spec.depends rels u v -> Spec.depends (rels ++ [rel]) u v).
    { intros (r & Hr & H). exists r. split; [|exact H].
      apply in_or_app. now left. }
    assert (Hnew : Spec.depends (rels ++ [rel]) u v ->
                   Spec.depends rels u v
                   \/ (GraphBuilder.is_dependency rel = true
                       /\ u = pretty (source_node_id rel)
                       /\ v = pretty (target_node_id rel))).
    { intros (r & Hr & H). apply in_app_or in Hr as [Hr|[<-|[]]].
      - left. now exists r.
      - now right. }
    destruct (GraphBuilder.is_dependency rel) eqn:Edep.
    + unfold Spec.edge in *.
      destruct (decide (u = pretty (source_node_id rel))) as [->|Hne].
      * rewrite successors_set_same, set_add_In, IH.
        split.
        -- intros [->|H]; [|auto]. exists rel. split; [|auto].
           apply in_or_app. right. now left.
        -- intros H. destruct (Hnew H) as [H'|(_ & _ & ->)]; auto.
      * rewrite successors_set_other by assumption. rewrite IH. split; [auto|].
        intros H. destruct (Hnew H) as [H'|(_ & -> & _)]; [auto|contradiction].
    + rewrite IH. split; [auto|].
      intros H. destruct (Hnew H) as [H'|(H' & _)]; [auto|discriminate].
Qed.

(** The search of the cycle detector ends, and reports nothing only on a
    graph without cycles. *)
Lemma detect_cycles_report (g : GraphBuilder.graph) :
  exists cycles,
    GraphBuilder._detect_cycles g = Some cycles
    /\ (forall c, In c cycles -> Spec.simple_cycle g c)
    /\ (cycles = [] <-> Spec.acyclic g).
Proof.
  unfold GraphBuilder._detect_cycles, GraphBuilder.detect_cycles_fuel.
  destruct (dfs_roots_spec g (S (List.length (GraphBuilder.vertices g)))
              (List.map fst g) (GraphBuilder.mkDfs ∅ ∅ []))
    as (st & E & Hinv & _ & Hroots).
  { intros x Hx. unfold GraphBuilder.vertices. apply in_or_app. now left. }
  { constructor;
      cbn [GraphBuilder.visited GraphBuilder.rec_stack GraphBuilder.cycles];
      try set_solver.
    apply NoDup_nil_2. }
  { cbn [GraphBuilder.visited].
    pose proof (size_list_to_set_le (GraphBuilder.vertices g)).
    assert (size (Invariants.vertex_set g ∖ ∅) <= size (Invariants.vertex_set g))
      by (apply subseteq_size; set_solver).
    unfold Invariants.vertex_set in *. lia. }
  rewrite E. exists (GraphBuilder.cycles st). split; [reflexivity|].
  destruct Hinv as [Hstack Hvis Hnd Hwalk Hcyc Hfin].
  split; [exact Hcyc|]. split.
  - intros Hnil c Hc.
    destruct (cycle_has_key g c Hc) as (x & Hx & Hkey).
    pose proof (Hfin Hnil c Hc x Hx (Hroots x Hkey)) as Hrec.
    now apply Hstack in Hrec.
  - intros Hacyclic. destruct (GraphBuilder.cycles st) as [|c cs] eqn:Ec;
      [reflexivity|].
    exfalso. apply (Hacyclic c). apply simple_cycle_is_cycle. apply Hcyc. now left.
Qed.

(** The dependency graph of [analyze_dependencies] has an edge exactly
    where a relationship of kind depends_on, imports or uses goes between
    the identifiers; the search for circular dependencies ends; each
    circular dependency it reports is a closed chain of such relationships
    that passes no node twice; and it reports none exactly when there is
    no such chain. *)
Theorem circular_dependencies_spec (nodes : list KGNode)
    (relationships : list KGRelationship) (cancellation_check : option (M unit))
    (w w' : world) (a : GraphBuilder.dependency_analysis) :
  GraphBuilder.analyze_dependencies nodes relationships cancellation_check w
  = (Ok a, w') ->
  (forall u v, Spec.edge (GraphBuilder.dependency_graph a) u v
               <-> Spec.depends relationships u v)
  /\ exists cycles,
       GraphBuilder.circular_dependencies a = Some cycles
       /\ (forall c, In c cycles ->
                     Spec.simple_cycle (GraphBuilder.dependency_graph a) c)
       /\ (cycles = [] <-> Spec.acyclic (GraphBuilder.dependency_graph a)).
Proof.
  unfold GraphBuilder.analyze_dependencies, bind, ret.
  destruct (call_opt cancellation_check w) as [[[]|e] w1]; [|discriminate].
  intros [= <- <-].
  cbn [GraphBuilder.dependency_graph GraphBuilder.circular_dependencies].
  split; [intros u v; apply dep_graph_edges|].
  apply detect_cycles_report.
Qed.

Lemma circular_dependencies_witness :
  exists a w',
    GraphBuilder.analyze_dependencies [] Examples.mutual_dependencies None world0
    = (Ok a, w')
    /\ (forall u v, Spec.edge (GraphBuilder.dependency_graph a) u v
                    <-> Spec.depends Examples.mutual_dependencies u v)
    /\ exists cycles,
         GraphBuilder.circular_dependencies a = Some cycles
         /\ (forall c, In c cycles ->
                       Spec.simple_cycle (GraphBuilder.dependency_graph a) c)
         /\ (cycles = [] <-> Spec.acyclic (GraphBuilder.dependency_graph a)).
Proof.
  eexists _, _. split; [reflexivity|].
  exact (circular_dependencies_spec [] Examples.mutual_dependencies None
           world0 _ _ eq_refl).
Defined.

Lemma circular_dependencies_example :
  GraphBuilder._detect_cycles (GraphBuilder.dep_graph Examples.mutual_dependencies)
  = Some [["1"; "2"; "1"]].
Proof. vm_compute. reflexivity. Qed.

(** ** Hotspots *)

Section Ordered.
Context {A : Type} (key : A -> Z).

Lemma insert_by_In (x y : A) (l : list A) :
  In y (GraphBuilder.insert_by key x l) <-> y = x \/ In y l.
Proof.
  split.
  - intros H. apply (Permutation_in _ (insert_by_perm key x l)) in H.
    destruct H as [<-|H]; auto.
  - intros H. apply (Permutation_in _ (Permutation_sym (insert_by_perm key x l))).
    destruct H as [->|H]; [now left|now right].
Qed.

Lemma insert_by_ordered (x : A) (l : list A) :
  ForallOrdPairs (fun a b => (key a <= key b)%Z) l ->
  ForallOrdPairs (fun a b => (key a <= key b)%Z) (GraphBuilder.insert_by key x l).
Proof.
  induction l as [|y l IH]; intros Hl; simpl.
  - constructor; constructor.
  - inversion Hl as [|? ? Hy Hl']; subst.
    destruct (key x <? key y)%Z eqn:E.
    + apply Z.ltb_lt in E. constructor; [|assumption].
      constructor; [lia|]. rewrite List.Forall_forall in *.
      intros z Hz. specialize (Hy z Hz). lia.
    + apply Z.ltb_ge in E. constructor; [|auto].
      rewrite List.Forall_forall in *. intros z Hz.
      apply insert_by_In in Hz as [->|Hz]; [lia|auto].
Qed.

Lemma sort_by_ordered (l : list A) :
  ForallOrdPairs (fun a b => (key a <= key b)%Z) (GraphBuilder.sort_by key l).
Proof.
  unfold GraphBuilder.sort_by.
  assert (H : forall acc,
             ForallOrdPairs (fun a b => (key a <= key b)%Z) acc ->
             ForallOrdPairs (fun a b => (key a <= key b)%Z)
               (fold_left (fun sorted x => GraphBuilder.insert_by key x sorted) l acc)).
  { induction l as [|x l IH]; intros acc Hacc; simpl; [assumption|].
    apply IH. now apply insert_by_ordered. }
  apply H. constructor.
Qed.

End Ordered.

Lemma ordered_app_inv {A} (R : A -> A -> Prop) (l1 l2 : list A) :
  ForallOrdPairs R (l1 ++ l2) ->
  ForallOrdPairs R l1 /\ forall x y, In x l1 -> In y l2 -> R x y.
Proof.
  induction l1 as [|a l1 IH]; simpl; intros H.
  - split; [constructor|intros x y []].
  - inversion H as [|? ? Ha Hl]; subst. destruct (IH Hl) as [H1 H2].
    rewrite List.Forall_forall in Ha. split.
    + constructor; [|assumption]. apply List.Forall_forall. intros z Hz.
      apply Ha. apply in_or_app. now left.
    + intros x y [<-|Hx] Hy; [|auto]. apply Ha. apply in_or_app. now right.
Qed.

Lemma ordered_impl {A} (R R' : A -> A -> Prop) (l : list A) :
  (forall a b, R a b -> R' a b) -> ForallOrdPairs R l -> ForallOrdPairs R' l.
Proof.
  intros HR. induction 1 as [|a l Ha Hl IH]; constructor; [|assumption].
  rewrite List.Forall_forall in *. auto.
Qed.

Lemma ordered_map {A B} (R : B -> B -> Prop) (f : A -> B) (l : list A) :
  ForallOrdPairs (fun a b => R (f a) (f b)) l -> ForallOrdPairs R (List.map f l).
Proof.
  induction 1 as [|a l Ha Hl IH]; simpl; constructor; [|assumption].
  rewrite List.Forall_forall in *. intros b Hb.
  apply in_map_iff in Hb as (x & <- & Hx). auto.
Qed.

Lemma dict_set_In_weak {A} (k : string) (v : A) (d : list (string * A))
    (k' : string) (v' : A) :
  In (k', v') (GraphBuilder.dict_set k v d) -> (k' = k /\ v' = v) \/ In (k', v') d.
Proof.
  induction d as [|[k0 v0] d IH]; simpl.
  - intros [[= <- <-]|[]]. now left.
  - destruct (eqb k k0).
    + intros [[= <- <-]|Hin]; [now left|right; now right].
    + intros [H|Hin]; [right; now left|].
      destruct (IH Hin) as [?|?]; [now left|right; now right].
Qed.

Lemma complexity_scores_from_nodes (nodes : list KGNode) (item : string * GraphBuilder.hotspot) :
  In item (GraphBuilder.complexity_scores nodes) ->
  exists n,
    In n nodes /\ truthy (complexity_score n) = true
    /\ GraphBuilder.hs_name item.2 = node_name n
    /\ GraphBuilder.hs_file_path item.2 = file_path n
    /\ GraphBuilder.hs_complexity item.2 = or0 (complexity_score n).
Proof.
  unfold GraphBuilder.complexity_scores.
  induction nodes as [|x nodes IH] using rev_ind; [intros []|].
  rewrite fold_left_app. cbn [fold_left].
  assert (Hold : In item (fold_left
                            (fun d node =>
                               if truthy (complexity_score node) then
                                 GraphBuilder.dict_set
                                   (GraphBuilder.str_id (node_id node))
                                   {| GraphBuilder.hs_name := node_name node;
                                      GraphBuilder.hs_file_path := file_path node;
                                      GraphBuilder.hs_complexity :=
                                        or0 (complexity_score node);
                                      GraphBuilder.hs_type :=
                                        node_type_value (node_type node) |} d
                               else d) nodes []) ->
                 exists n,
                   In n (nodes ++ [x]) /\ truthy (complexity_score n) = true
                   /\ GraphBuilder.hs_name item.2 = node_name n
                   /\ GraphBuilder.hs_file_path item.2 = file_path n
                   /\ GraphBuilder.hs_complexity item.2 = or0 (complexity_score n)).
  { intros H. destruct (IH H) as (n & Hn & Hrest). exists n.
    split; [apply in_or_app; now left|exact Hrest]. }
  destruct (truthy (complexity_score x)) eqn:E; [|exact Hold].
  destruct item as [k h]. intros H.
  apply dict_set_In_weak in H as [[_ ->]|H]; [|now apply Hold].
  exists x. split; [apply in_or_app; right; now left|]. now repeat split.
Qed.

(** The complexity hotspots of [analyze_dependencies] are at most ten, in
    descending order of complexity; each is the entry of a node whose score
    is neither missing nor 0; and an entry that is left out has a score no
    higher than any that is reported. *)
Theorem complexity_hotspots_spec (nodes : list KGNode) :
  List.length (GraphBuilder.complexity_hotspots nodes) <= 10
  /\ ForallOrdPairs
       (fun a b => (GraphBuilder.hs_complexity b <= GraphBuilder.hs_complexity a)%Z)
       (GraphBuilder.complexity_hotspots nodes)
  /\ (forall h, In h (GraphBuilder.complexity_hotspots nodes) ->
        exists n,
          In n nodes /\ truthy (complexity_score n) = true
          /\ GraphBuilder.hs_name h = node_name n
          /\ GraphBuilder.hs_file_path h = file_path n
          /\ GraphBuilder.hs_complexity h = or0 (complexity_score n))
  /\ (forall item, In item (GraphBuilder.complexity_scores nodes) ->
        In item.2 (GraphBuilder.complexity_hotspots nodes)
        \/ forall h, In h (GraphBuilder.complexity_hotspots nodes) ->
                     (GraphBuilder.hs_complexity item.2
                      <= GraphBuilder.hs_complexity h)%Z).
Proof.
  unfold GraphBuilder.complexity_hotspots.
  set (key := fun item : string * GraphBuilder.hotspot =>
                (- GraphBuilder.hs_complexity item.2)%Z).
  set (sorted := GraphBuilder.sort_by key (GraphBuilder.complexity_scores nodes)).
  pose proof (sort_by_ordered key (GraphBuilder.complexity_scores nodes)) as Hord.
  fold sorted in Hord. rewrite <- (firstn_skipn 10 sorted) in Hord.
  apply ordered_app_inv in Hord as [Hfirst Hrest].
  split; [rewrite length_map; apply firstn_le_length|].
  split.
  { apply ordered_map. eapply ordered_impl; [|exact Hfirst].
    intros a b Hab. unfold key in Hab. lia. }
  split.
  { intros h Hh. apply in_map_iff in Hh as (item & <- & Hitem).
    apply complexity_scores_from_nodes.
    apply (Permutation_in _ (sort_by_perm key _)).
    fold sorted. rewrite <- (firstn_skipn 10 sorted). apply in_or_app. now left. }
  intros item Hitem.
  apply (Permutation_in _ (Permutation_sym (sort_by_perm key _))) in Hitem.
  fold sorted in Hitem. rewrite <- (firstn_skipn 10 sorted) in Hitem.
  apply in_app_or in Hitem as [Hitem|Hitem].
  - left. now apply in_map.
  - right. intros h Hh. apply in_map_iff in Hh as (item' & <- & Hitem').
    specialize (Hrest item' item Hitem' Hitem). unfold key in Hrest. lia.
Qed.

(** ** Counting *)

Lemma bump_count (k k' : string) (d : list (string * nat)) :
  Spec.count_of k' (GraphBuilder.bump k d)
  = Spec.count_of k' d + (if eqb k k' then 1 else 0).
Proof.
  unfold Spec.count_of, GraphBuilder.bump, GraphBuilder.dict_get.
  destruct (decide (k' = k)) as [->|Hne].
  - rewrite dict_get_set_same, eqb_same. reflexivity.
  - rewrite dict_get_set_other by assumption.
    assert (E : eqb k k' = false) by (apply eqb_false; congruence).
    rewrite E. lia.
Qed.

Lemma bump_total (k : string) (d : list (string * nat)) :
  Spec.total (GraphBuilder.bump k d) = Spec.total d + 1.
Proof.
  unfold Spec.total, GraphBuilder.bump, GraphBuilder.dict_get.
  induction d as [|[k0 v0] d IH]; simpl; [reflexivity|].
  destruct (eqb k k0); simpl; [lia|]. rewrite IH. lia.
Qed.

Lemma bump_NoDup (k : string) (d : list (string * nat)) :
  NoDup (List.map fst d) -> NoDup (List.map fst (GraphBuilder.bump k d)).
Proof. apply dict_set_NoDup. Qed.

Section Counting.
Context {A : Type} (p : A -> bool) (key : A -> string).

Lemma count_fold (k : string) (l : list A) :
  forall d0,
    Spec.count_of k (fold_left (fun d x => if p x then GraphBuilder.bump (key x) d else d)
                               l d0)
    = Spec.count_of k d0
      + List.length (List.filter (fun x => p x && eqb (key x) k) l).
Proof.
  induction l as [|x l IH]; intros d0; cbn [fold_left List.filter List.length]; [lia|].
  rewrite IH. destruct (p x); cbn [andb]; [|reflexivity].
  rewrite bump_count. destruct (eqb (key x) k); cbn [List.length]; lia.
Qed.

Lemma total_fold (l : list A) :
  forall d0,
    Spec.total (fold_left (fun d x => if p x then GraphBuilder.bump (key x) d else d)
                          l d0)
    = Spec.total d0 + List.length (List.filter p l).
Proof.
  induction l as [|x l IH]; intros d0; cbn [fold_left List.filter List.length]; [lia|].
  rewrite IH. destruct (p x); cbn [List.length]; [|reflexivity].
  rewrite bump_total. lia.
Qed.

Lemma NoDup_fold (l : list A) :
  forall d0,
    NoDup (List.map fst d0) ->
    NoDup (List.map fst
             (fold_left (fun d x => if p x then GraphBuilder.bump (key x) d else d)
                        l d0)).
Proof.
  induction l as [|x l IH]; intros d0 Hd; cbn [fold_left]; [assumption|].
  apply IH. destruct (p x); [now apply bump_NoDup|assumption].
Qed.

End Counting.

Lemma over_five_spec (d : list (string * nat)) (id : string) :
  NoDup (List.map fst d) ->
  In id (GraphBuilder.over_five d) <-> 5 < Spec.count_of id d.
Proof.
  intros Hnd. unfold GraphBuilder.over_five, Spec.count_of. split.
  - intros H. apply in_map_iff in H as ([k n] & <- & H).
    apply filter_In in H as [Hin Hn]. cbn [fst snd] in *.
    unfold GraphBuilder.dict_get. rewrite (dict_get_Some k d n Hnd Hin).
    now apply Nat.ltb_lt in Hn.
  - intros H. unfold GraphBuilder.dict_get in H.
    destruct (TreeSitterParser.dict_get id d) as [n|] eqn:E; cbn [default] in H;
      [|lia].
    apply dict_get_In in E. apply in_map_iff. exists (id, n).
    split; [reflexivity|]. apply filter_In. split; [assumption|].
    now apply Nat.ltb_lt.
Qed.

(** The coupling metrics of [analyze_dependencies] count, for every
    identifier, the relationships of kind calls or uses that start at the
    node (fan-out) and that end at it (fan-in); the two dictionaries sum to
    the same number; and the highly coupled identifiers are those with
    more than five one way or the other. *)
Theorem coupling_metrics_spec (relationships : list KGRelationship) (id : string) :
  Spec.count_of id (GraphBuilder.fan_out relationships)
  = Spec.coupling_out relationships id
  /\ Spec.count_of id (GraphBuilder.fan_in relationships)
     = Spec.coupling_in relationships id
  /\ Spec.total (GraphBuilder.fan_out relationships)
     = Spec.total (GraphBuilder.fan_in relationships)
  /\ (In id (GraphBuilder.over_five (GraphBuilder.fan_in relationships)
             ++ GraphBuilder.over_five (GraphBuilder.fan_out relationships))
      <-> 5 < Spec.coupling_in relationships id
          \/ 5 < Spec.coupling_out relationships id).
Proof.
  assert (Hout : Spec.count_of id (GraphBuilder.fan_out relationships)
                 = Spec.coupling_out relationships id).
  { unfold GraphBuilder.fan_out. now rewrite count_fold. }
  assert (Hin : Spec.count_of id (GraphBuilder.fan_in relationships)
                = Spec.coupling_in relationships id).
  { unfold GraphBuilder.fan_in. now rewrite count_fold. }
  split; [exact Hout|]. split; [exact Hin|]. split.
  - unfold GraphBuilder.fan_out, GraphBuilder.fan_in. now rewrite !total_fold.
  - rewrite in_app_iff, !over_five_spec, Hout, Hin; [reflexivity| |].
    + unfold GraphBuilder.fan_out. apply NoDup_fold. constructor.
    + unfold GraphBuilder.fan_in. apply NoDup_fold. constructor.
Qed.

Lemma node_type_value_inj (t1 t2 : NodeType) :
  eqb (node_type_value t1) (node_type_value t2) = bool_decide (t1 = t2).
Proof. destruct t1, t2; reflexivity. Qed.

Lemma classify_total (nodes : list KGNode) :
  forall dist,
    GraphBuilder.low (fold_left GraphBuilder.classify nodes dist)
    + GraphBuilder.medium (fold_left GraphBuilder.classify nodes dist)
    + GraphBuilder.high (fold_left GraphBuilder.classify nodes dist)
    = GraphBuilder.low dist + GraphBuilder.medium dist + GraphBuilder.high dist
      + List.length (List.filter (fun n => truthy (complexity_score n)) nodes).
Proof.
  induction nodes as [|n nodes IH]; intros dist; cbn [fold_left List.filter List.length]; [lia|].
  rewrite IH. unfold GraphBuilder.classify.
  destruct (truthy (complexity_score n)); cbn [List.length]; [|lia].
  destruct (or0 (complexity_score n) <=? 3)%Z; [simpl; lia|].
  destruct (or0 (complexity_score n) <=? 6)%Z; simpl; lia.
Qed.

Lemma filter_length_le {A} (p : A -> bool) (l : list A) :
  List.length (List.filter p l) <= List.length l.
Proof.
  induction l as [|x l IH]; simpl; [lia|]. destruct (p x); simpl; lia.
Qed.

Lemma filter_true {A} (l : list A) : List.filter (fun _ => true) l = l.
Proof. induction l as [|x l IH]; simpl; [reflexivity|now rewrite IH]. Qed.

(** In the statistics of [build_graph_statistics] the count under a node
    kind is the number of nodes of that kind, and the counts by kind sum
    to the totals, for nodes and for relationships; the three classes of
    the complexity distribution sum to the number of nodes whose score is
    neither missing nor 0; and the languages counted, the files analysed
    and the cross-file relationships are no more than the totals. *)
Theorem graph_statistics_spec (nodes : list KGNode)
    (relationships : list KGRelationship) :
  (forall ty,
      Spec.count_of (node_type_value ty)
        (GraphBuilder.nodes_by_type
           (GraphBuilder.build_graph_statistics nodes relationships))
      = List.length (List.filter (fun n => bool_decide (node_type n = ty)) nodes))
  /\ Spec.total (GraphBuilder.nodes_by_type
                   (GraphBuilder.build_graph_statistics nodes relationships))
     = List.length nodes
  /\ Spec.total (GraphBuilder.relationships_by_type
                   (GraphBuilder.build_graph_statistics nodes relationships))
     = List.length relationships
  /\ GraphBuilder.low (GraphBuilder.gs_complexity_distribution
                         (GraphBuilder.build_graph_statistics nodes relationships))
     + GraphBuilder.medium (GraphBuilder.gs_complexity_distribution
                              (GraphBuilder.build_graph_statistics nodes relationships))
     + GraphBuilder.high (GraphBuilder.gs_complexity_distribution
                            (GraphBuilder.build_graph_statistics nodes relationships))
     = List.length (List.filter (fun n => truthy (complexity_score n)) nodes)
  /\ Spec.total (GraphBuilder.gs_languages
                   (GraphBuilder.build_graph_statistics nodes relationships))
     <= List.length nodes
  /\ GraphBuilder.files_analyzed
       (GraphBuilder.build_graph_statistics nodes relationships)
     <= List.length nodes
  /\ GraphBuilder.cross_file_relationships
       (GraphBuilder.build_graph_statistics nodes relationships)
     <= List.length relationships.
Proof.
  unfold GraphBuilder.build_graph_statistics.
  cbn [GraphBuilder.nodes_by_type GraphBuilder.relationships_by_type
       GraphBuilder.gs_complexity_distribution GraphBuilder.gs_languages
       GraphBuilder.files_analyzed GraphBuilder.cross_file_relationships].
  split; [|split; [|split; [|split; [|split; [|split]]]]].
  - intros ty.
    rewrite (count_fold (fun _ => true)
               (fun node => node_type_value (node_type node))).
    cbn [andb Spec.count_of GraphBuilder.dict_get TreeSitterParser.dict_get default
         Nat.add].
    f_equal. apply filter_ext. intros n. apply node_type_value_inj.
  - rewrite (total_fold (fun _ => true)
               (fun node => node_type_value (node_type node))).
    now rewrite filter_true.
  - rewrite (total_fold (fun _ => true)
               (fun rel => relationship_type_value (relationship_type rel))).
    now rewrite filter_true.
  - rewrite classify_total. reflexivity.
  - rewrite (total_fold (fun node => nonempty (language node)) language).
    apply filter_length_le.
  - etransitivity; [apply size_list_to_set_le|]. now rewrite length_map.
  - apply filter_length_le.
Qed.

(** ** Queries *)

Lemma batches_cover {A} (size : nat) (x : A) :
  0 < size ->
  forall fuel (l : list A),
    List.length l <= fuel -> In x l ->
    exists batch, In batch (KnowledgeGraphService.batches_aux fuel size l) /\ In x batch.
Proof.
  intros Hsize. induction fuel as [|fuel IH]; intros l Hlen Hx.
  - destruct l; [destruct Hx|simpl in Hlen; lia].
  - destruct l as [|a l]; [destruct Hx|].
    cbn [KnowledgeGraphService.batches_aux].
    rewrite <- (firstn_skipn size (a :: l)) in Hx.
    apply in_app_or in Hx as [Hx|Hx].
    + exists (List.firstn size (a :: l)). split; [now left|assumption].
    + destruct (IH (List.skipn size (a :: l))) as (batch & Hb & Hxb);
        [|assumption|].
      * rewrite length_skipn. simpl in *. lia.
      * exists batch. split; [now right|assumption].
Qed.

Lemma in_ids_In (ids : list UUID) (id : UUID) :
  KnowledgeGraphService.in_ids ids id = true <-> In id ids.
Proof.
  unfold KnowledgeGraphService.in_ids. rewrite existsb_exists. split.
  - intros (x & Hx & E). apply Nat.eqb_eq in E. now subst.
  - intros H. exists id. split; [assumption|apply Nat.eqb_refl].
Qed.

Lemma unique_by_id_keeps (rels : list KGRelationship) (rel : KGRelationship) :
  (forall a b, In a rels -> In b rels -> rel_id a = rel_id b -> a = b) ->
  forall seen,
    In rel rels -> rel_id rel ∉ seen ->
    In rel (KnowledgeGraphService.unique_by_id seen rels).
Proof.
  induction rels as [|h rels IH]; intros Hinj seen Hin Hseen; [destruct Hin|].
  cbn [KnowledgeGraphService.unique_by_id].
  assert (Hinj' : forall a b, In a rels -> In b rels -> rel_id a = rel_id b -> a = b).
  { intros a b Ha Hb. apply Hinj; now right. }
  destruct (bool_decide (rel_id h ∈ seen)) eqn:E.
  - apply bool_decide_eq_true in E. destruct Hin as [->|Hin]; [contradiction|].
    now apply IH.
  - destruct Hin as [->|Hin]; [now left|].
    destruct (decide (rel_id rel = rel_id h)) as [Heq|Hne].
    + left. symmetry. apply Hinj; [now right|now left|exact Heq].
    + right. apply IH; auto. intros Hs. apply elem_of_cons in Hs as [Hs|Hs]; auto.
Qed.

Lemma batch_relationships_In (table : list KGRelationship) (query : GraphQuery)
    (batch : list UUID) (rel : KGRelationship) :
  In rel (KnowledgeGraphService.batch_relationships table query batch)
  <-> In rel table
      /\ (In (source_node_id rel) batch \/ In (target_node_id rel) batch)
      /\ Spec.kind_requested query rel.
Proof.
  unfold KnowledgeGraphService.batch_relationships, Spec.kind_requested. cbv zeta.
  destruct (relationship_types query) as [|ty tys] eqn:E.
  - rewrite filter_In, orb_true_iff, !in_ids_In. intuition.
  - rewrite !filter_In, orb_true_iff, !in_ids_In, bool_decide_eq_true,
      list_elem_of_In.
    split; [intros [[? ?] ?]; auto|].
    intros (? & ? & [[=]|?]); auto.
Qed.

(** What [select_relationships] returns when the identifiers of the table
    are distinct: the rows of a requested kind with both ends among the
    nodes. *)
Lemma select_relationships_complete (table : list KGRelationship)
    (query : GraphQuery) (nodes : list KGNode) (rel : KGRelationship) :
  NoDup (List.map rel_id table) ->
  In rel (KnowledgeGraphService.select_relationships table query nodes)
  <-> In rel table
      /\ In (source_node_id rel) (List.map nid nodes)
      /\ In (target_node_id rel) (List.map nid nodes)
      /\ Spec.kind_requested query rel.
Proof.
  intros Hnd. unfold KnowledgeGraphService.select_relationships.
  destruct nodes as [|n0 nodes0] eqn:En.
  { split; [intros []|]. intros (_ & [] & _). }
  rewrite <- En. clear En n0 nodes0. cbv zeta.
  set (node_ids := List.map nid nodes).
  set (fetched := List.concat
                    (List.map (KnowledgeGraphService.batch_relationships table query)
                              (KnowledgeGraphService.batches 50 node_ids))).
  assert (Hfetched : forall r, In r fetched -> In r table /\ Spec.kind_requested query r).
  { intros r Hr. apply in_concat in Hr as (l & Hl & Hr).
    apply in_map_iff in Hl as (batch & <- & _).
    apply batch_relationships_In in Hr. tauto. }
  rewrite filter_In, andb_true_iff, !in_ids_In. split.
  - intros [Hu [Hs Ht]].
    destruct (unique_by_id_spec fetched []) as [_ Hsub].
    destruct (Hfetched rel (proj2 (Hsub rel Hu))) as [Hin Hk]. auto.
  - intros (Hin & Hs & Ht & Hk). split; [|auto].
    apply unique_by_id_keeps; [| |apply not_elem_of_nil].
    + intros a b Ha Hb. apply (NoDup_map_inj rel_id table); auto;
        now apply Hfetched.
    + destruct (batches_cover 50 (source_node_id rel) ltac:(lia)
                  (List.length node_ids) node_ids (le_n _) Hs) as (batch & Hb & Hsb).
      apply in_concat. eexists. split.
      * apply in_map. exact Hb.
      * apply batch_relationships_In. auto.
Qed.

(** When the identifiers of the relationship table are distinct,
    [query_graph] returns exactly the relationships of a requested kind
    whose two ends are among the returned nodes: fetching them in batches
    of 50 nodes loses none, whatever [start_node_id], [end_node_id] and
    [max_depth] are; and the store is left as it was. *)
Theorem query_graph_relationships (query : GraphQuery) (w : world) :
  NoDup (List.map rel_id (kg_relationships w)) ->
  exists r : KnowledgeGraphService.query_result,
    KnowledgeGraphService.query_graph query w = (Ok r, w)
    /\ forall rel,
         In rel (KnowledgeGraphService.qr_relationships r)
         <-> In rel (kg_relationships w)
             /\ In (source_node_id rel)
                   (List.map nid (KnowledgeGraphService.qr_nodes r))
             /\ In (target_node_id rel)
                   (List.map nid (KnowledgeGraphService.qr_nodes r))
             /\ Spec.kind_requested query rel.
Proof.
  intros Hnd. unfold KnowledgeGraphService.query_graph, bind, get, ret.
  eexists. split; [reflexivity|].
  cbn [KnowledgeGraphService.qr_nodes KnowledgeGraphService.qr_relationships].
  assert (E : forall (ns : list KGNode) (rs : list KGRelationship),
             (if bool_decide (is_Some (start_node_id query))
                 || bool_decide (is_Some (end_node_id query))
              then KnowledgeGraphService._apply_path_filtering ns rs
                     (start_node_id query) (end_node_id query) (max_depth query)
              else (ns, rs)) = (ns, rs)).
  { intros. destruct (_ || _); reflexivity. }
  rewrite E. cbn [fst snd]. intros rel.
  now apply select_relationships_complete.
Qed.

Lemma query_graph_relationships_witness :
  NoDup (List.map rel_id (kg_relationships Examples.keyed_store))
  /\ exists r : KnowledgeGraphService.query_result,
       KnowledgeGraphService.query_graph (Examples.query_with None)
         Examples.keyed_store = (Ok r, Examples.keyed_store)
       /\ forall rel,
            In rel (KnowledgeGraphService.qr_relationships r)
            <-> In rel (kg_relationships Examples.keyed_store)
                /\ In (source_node_id rel)
                      (List.map nid (KnowledgeGraphService.qr_nodes r))
                /\ In (target_node_id rel)
                      (List.map nid (KnowledgeGraphService.qr_nodes r))
                /\ Spec.kind_requested (Examples.query_with None) rel.
Proof.
  assert (H : NoDup (List.map rel_id (kg_relationships Examples.keyed_store)))
    by compute_done.
  split; [exact H|].
  exact (query_graph_relationships (Examples.query_with None) Examples.keyed_store H).
Defined.

(** ** Hotspots and modularity of a repository *)

Lemma initial_metrics_get (nodes : list KGNode) (k : string)
    (m : KnowledgeGraphService.node_metric) :
  TreeSitterParser.dict_get k (KnowledgeGraphService.initial_metrics nodes) = Some m ->
  exists node,
    In node nodes /\ GraphBuilder.str_id (node_id node) = k
    /\ m = KnowledgeGraphService.mkMetric
             (node_name node) (file_path node) (node_type_value (node_type node))
             0 0 (KnowledgeGraphService.or1 (complexity_score node)).
Proof.
  unfold KnowledgeGraphService.initial_metrics.
  induction nodes as [|x nodes IH] using rev_ind; [discriminate|].
  rewrite fold_left_app. cbn [fold_left].
  destruct (decide (k = GraphBuilder.str_id (node_id x))) as [->|Hne].
  - rewrite dict_get_set_same. intros [= <-]. exists x.
    split; [apply in_or_app; right; now left|]. split; reflexivity.
  - rewrite dict_get_set_other by assumption. intros H.
    destruct (IH H) as (node & Hin & Hrest). exists node.
    split; [apply in_or_app; now left|exact Hrest].
Qed.

Lemma add_outgoing_get (k k' : string)
    (d : list (string * KnowledgeGraphService.node_metric)) :
  TreeSitterParser.dict_get k' (KnowledgeGraphService.add_outgoing k d)
  = (fun m =>
       KnowledgeGraphService.mkMetric
         (KnowledgeGraphService.nm_name m) (KnowledgeGraphService.nm_file_path m)
         (KnowledgeGraphService.nm_node_type m)
         (KnowledgeGraphService.incoming_refs m)
         (KnowledgeGraphService.outgoing_refs m + (if eqb k k' then 1 else 0))
         (KnowledgeGraphService.nm_complexity m))
    <$> TreeSitterParser.dict_get k' d.
Proof.
  unfold KnowledgeGraphService.add_outgoing, GraphBuilder.dict_get.
  destruct (decide (k' = k)) as [->|Hne].
  - rewrite eqb_same.
    destruct (TreeSitterParser.dict_get k d) as [m|] eqn:E.
    + now rewrite dict_get_set_same.
    + now rewrite E.
  - assert (Ek : eqb k k' = false) by (apply eqb_false; congruence).
    rewrite Ek.
    destruct (TreeSitterParser.dict_get k d) as [m|] eqn:E.
    + rewrite dict_get_set_other by assumption.
      destruct (TreeSitterParser.dict_get k' d) as [[]|]; cbn; [|reflexivity].
      now rewrite Z.add_0_r.
    + destruct (TreeSitterParser.dict_get k' d) as [[]|]; cbn; [|reflexivity].
      now rewrite Z.add_0_r.
Qed.

Lemma add_incoming_get (k k' : string)
    (d : list (string * KnowledgeGraphService.node_metric)) :
  TreeSitterParser.dict_get k' (KnowledgeGraphService.add_incoming k d)
  = (fun m =>
       KnowledgeGraphService.mkMetric
         (KnowledgeGraphService.nm_name m) (KnowledgeGraphService.nm_file_path m)
         (KnowledgeGraphService.nm_node_type m)
         (KnowledgeGraphService.incoming_refs m + (if eqb k k' then 1 else 0))
         (KnowledgeGraphService.outgoing_refs m)
         (KnowledgeGraphService.nm_complexity m))
    <$> TreeSitterParser.dict_get k' d.
Proof.
  unfold KnowledgeGraphService.add_incoming, GraphBuilder.dict_get.
  destruct (decide (k' = k)) as [->|Hne].
  - rewrite eqb_same.
    destruct (TreeSitterParser.dict_get k d) as [m|] eqn:E.
    + now rewrite dict_get_set_same.
    + now rewrite E.
  - assert (Ek : eqb k k' = false) by (apply eqb_false; congruence).
    rewrite Ek.
    destruct (TreeSitterParser.dict_get k d) as [m|] eqn:E.
    + rewrite dict_get_set_other by assumption.
      destruct (TreeSitterParser.dict_get k' d) as [[]|]; cbn; [|reflexivity].
      now rewrite Z.add_0_r.
    + destruct (TreeSitterParser.dict_get k' d) as [[]|]; cbn; [|reflexivity].
      now rewrite Z.add_0_r.
Qed.

(** The entry under a key after the loop over the relationships. *)
Lemma count_refs_get (relationships : list KGRelationship) (k : string) :
  forall d : list (string * KnowledgeGraphService.node_metric),
    TreeSitterParser.dict_get k
      (fold_left
         (fun d rel =>
            KnowledgeGraphService.add_incoming (pretty (target_node_id rel))
              (KnowledgeGraphService.add_outgoing (pretty (source_node_id rel)) d))
         relationships d)
    = (fun m =>
         KnowledgeGraphService.mkMetric
           (KnowledgeGraphService.nm_name m) (KnowledgeGraphService.nm_file_path m)
           (KnowledgeGraphService.nm_node_type m)
           (KnowledgeGraphService.incoming_refs m
            + Z.of_nat (Spec.refs_in relationships k))
           (KnowledgeGraphService.outgoing_refs m
            + Z.of_nat (Spec.refs_out relationships k))
           (KnowledgeGraphService.nm_complexity m))
      <$> TreeSitterParser.dict_get k d.
Proof.
  unfold Spec.refs_in, Spec.refs_out.
  induction relationships as [|rel rels IH]; intros d;
    cbn [fold_left List.filter List.length].
  - destruct (TreeSitterParser.dict_get k d) as [[]|]; cbn; [|reflexivity].
    now rewrite !Z.add_0_r.
  - rewrite IH, add_incoming_get, add_outgoing_get.
    destruct (TreeSitterParser.dict_get k d) as [[]|]; cbn; [|reflexivity].
    f_equal. f_equal.
    + destruct (eqb (pretty (target_node_id rel)) k); cbn [List.length]; lia.
    + destruct (eqb (pretty (source_node_id rel)) k); cbn [List.length]; lia.
Qed.

Lemma initial_metrics_NoDup (nodes : list KGNode) :
  NoDup (List.map fst (KnowledgeGraphService.initial_metrics nodes)).
Proof.
  unfold KnowledgeGraphService.initial_metrics.
  induction nodes as [|x nodes IH] using rev_ind; [constructor|].
  rewrite fold_left_app. cbn [fold_left]. now apply dict_set_NoDup.
Qed.

Lemma add_outgoing_NoDup (k : string)
    (d : list (string * KnowledgeGraphService.node_metric)) :
  NoDup (List.map fst d) ->
  NoDup (List.map fst (KnowledgeGraphService.add_outgoing k d)).
Proof.
  intros H. unfold KnowledgeGraphService.add_outgoing.
  destruct (GraphBuilder.dict_get k d); [now apply dict_set_NoDup|assumption].
Qed.

Lemma add_incoming_NoDup (k : string)
    (d : list (string * KnowledgeGraphService.node_metric)) :
  NoDup (List.map fst d) ->
  NoDup (List.map fst (KnowledgeGraphService.add_incoming k d)).
Proof.
  intros H. unfold KnowledgeGraphService.add_incoming.
  destruct (GraphBuilder.dict_get k d); [now apply dict_set_NoDup|assumption].
Qed.

Lemma node_metrics_NoDup (nodes : list KGNode) (relationships : list KGRelationship) :
  NoDup (List.map fst (KnowledgeGraphService.node_metrics nodes relationships)).
Proof.
  unfold KnowledgeGraphService.node_metrics.
  generalize (initial_metrics_NoDup nodes).
  generalize (KnowledgeGraphService.initial_metrics nodes).
  induction relationships as [|rel rels IH]; intros d Hd; cbn [fold_left];
    [assumption|].
  apply IH. now apply add_incoming_NoDup, add_outgoing_NoDup.
Qed.

(** An entry of [node_metrics] describes a node under its identifier, with
    the relationships that end and that start at that identifier. *)
Lemma node_metrics_entry (nodes : list KGNode) (relationships : list KGRelationship)
    (k : string) (m : KnowledgeGraphService.node_metric) :
  In (k, m) (KnowledgeGraphService.node_metrics nodes relationships) ->
  exists node,
    In node nodes /\ GraphBuilder.str_id (node_id node) = k
    /\ m = KnowledgeGraphService.mkMetric
             (node_name node) (file_path node) (node_type_value (node_type node))
             (Z.of_nat (Spec.refs_in relationships k))
             (Z.of_nat (Spec.refs_out relationships k))
             (KnowledgeGraphService.or1 (complexity_score node)).
Proof.
  intros Hin.
  apply (dict_get_Some k _ m (node_metrics_NoDup nodes relationships)) in Hin.
  unfold KnowledgeGraphService.node_metrics in Hin.
  rewrite count_refs_get in Hin.
  destruct (TreeSitterParser.dict_get k (KnowledgeGraphService.initial_metrics nodes))
    as [m0|] eqn:E; [|discriminate].
  apply initial_metrics_get in E as (node & Hnode & Hk & ->).
  cbn in Hin. injection Hin as <-. exists node. repeat split; auto.
Qed.

(** [_analyze_hotspots] reports at most twenty entries, in descending order
    of their score.  An entry describes one of the nodes: its incoming and
    outgoing references are the relationships that end and that start at
    the node's identifier, its complexity is the node's score, or 1 when
    that is missing or 0, and its score, twice the incoming references plus
    the outgoing ones plus three times the complexity, is above 10.  An
    entry of a score above 10 that is left out has a score no higher than
    any that is reported. *)
Theorem analyze_hotspots_spec (nodes : list KGNode)
    (relationships : list KGRelationship) :
  List.length (KnowledgeGraphService._analyze_hotspots nodes relationships) <= 20
  /\ ForallOrdPairs (fun a b : KnowledgeGraphService.node_metric * Z => (b.2 <= a.2)%Z)
       (KnowledgeGraphService._analyze_hotspots nodes relationships)
  /\ (forall m score,
        In (m, score) (KnowledgeGraphService._analyze_hotspots nodes relationships) ->
        (10 < score)%Z
        /\ exists node,
             In node nodes
             /\ KnowledgeGraphService.nm_name m = node_name node
             /\ KnowledgeGraphService.nm_file_path m = file_path node
             /\ KnowledgeGraphService.nm_complexity m
                = (if truthy (complexity_score node)
                   then or0 (complexity_score node) else 1%Z)
             /\ KnowledgeGraphService.incoming_refs m
                = Z.of_nat (Spec.refs_in relationships
                              (GraphBuilder.str_id (node_id node)))
             /\ KnowledgeGraphService.outgoing_refs m
                = Z.of_nat (Spec.refs_out relationships
                              (GraphBuilder.str_id (node_id node)))
             /\ score
                = (2 * Z.of_nat (Spec.refs_in relationships
                                   (GraphBuilder.str_id (node_id node)))
                   + Z.of_nat (Spec.refs_out relationships
                                 (GraphBuilder.str_id (node_id node)))
                   + 3 * KnowledgeGraphService.nm_complexity m)%Z)
  /\ (forall item,
        In item (KnowledgeGraphService.node_metrics nodes relationships) ->
        (10 < KnowledgeGraphService.hotspot_score item.2)%Z ->
        In (item.2, KnowledgeGraphService.hotspot_score item.2)
           (KnowledgeGraphService._analyze_hotspots nodes relationships)
        \/ forall h,
             In h (KnowledgeGraphService._analyze_hotspots nodes relationships) ->
             (KnowledgeGraphService.hotspot_score item.2 <= h.2)%Z).
Proof.
  unfold KnowledgeGraphService._analyze_hotspots. cbv zeta.
  set (key := fun h : KnowledgeGraphService.node_metric * Z => (- h.2)%Z).
  set (hotspots :=
         List.map (fun item : string * KnowledgeGraphService.node_metric =>
                     (item.2, KnowledgeGraphService.hotspot_score item.2))
           (List.filter (fun item : string * KnowledgeGraphService.node_metric =>
                           (10 <? KnowledgeGraphService.hotspot_score item.2)%Z)
                        (KnowledgeGraphService.node_metrics nodes relationships))).
  set (sorted := GraphBuilder.sort_by key hotspots).
  pose proof (sort_by_ordered key hotspots) as Hord. fold sorted in Hord.
  rewrite <- (firstn_skipn 20 sorted) in Hord.
  apply ordered_app_inv in Hord as [Hfirst Hrest].
  assert (Hsub : forall h, In h (List.firstn 20 sorted) -> In h hotspots).
  { intros h Hh. apply (Permutation_in _ (sort_by_perm key hotspots)).
    fold sorted. rewrite <- (firstn_skipn 20 sorted). apply in_or_app. now left. }
  split; [apply firstn_le_length|]. split.
  { eapply ordered_impl; [|exact Hfirst]. intros a b Hab. unfold key in Hab. lia. }
  split.
  - intros m score Hin. apply Hsub in Hin.
    apply in_map_iff in Hin as ([k m'] & [= -> <-] & Hin).
    apply filter_In in Hin as [Hin Hscore]. cbn [snd] in Hscore.
    apply Z.ltb_lt in Hscore. split; [exact Hscore|].
    apply node_metrics_entry in Hin as (node & Hnode & <- & ->).
    exists node. unfold KnowledgeGraphService.hotspot_score.
    cbn [KnowledgeGraphService.nm_name KnowledgeGraphService.nm_file_path
         KnowledgeGraphService.nm_complexity KnowledgeGraphService.incoming_refs
         KnowledgeGraphService.outgoing_refs].
    repeat split; auto. lia.
  - intros item Hitem Hscore.
    assert (Hin : In (item.2, KnowledgeGraphService.hotspot_score item.2) hotspots).
    { apply in_map_iff. exists item. split; [reflexivity|].
      apply filter_In. split; [assumption|now apply Z.ltb_lt]. }
    apply (Permutation_in _ (Permutation_sym (sort_by_perm key hotspots))) in Hin.
    fold sorted in Hin. rewrite <- (firstn_skipn 20 sorted) in Hin.
    apply in_app_or in Hin as [Hin|Hin]; [now left|].
    right. intros h Hh. specialize (Hrest h _ Hh Hin). unfold key in Hrest.
    cbn [snd] in Hrest. lia.
Qed.

Lemma within_file_joins_known (nodes : list KGNode) (l : list KGRelationship) :
  List.length (List.filter (Spec.within_file nodes) l)
  <= List.length (List.filter (Spec.joins_known nodes) l).
Proof.
  induction l as [|rel l IH]; cbn [List.filter List.length]; [lia|].
  unfold Spec.within_file, Spec.joins_known in *.
  destruct (KnowledgeGraphService.node_with_id nodes (source_node_id rel)) as [s|];
    destruct (KnowledgeGraphService.node_with_id nodes (target_node_id rel)) as [t|];
    try (rewrite bool_decide_eq_false_2 by (intros [[? [=]] [? [=]]]; congruence);
         exact IH).
  rewrite bool_decide_eq_true_2 by (split; eexists; reflexivity).
  destruct (eqb (file_path s) (file_path t)); cbn [List.length]; lia.
Qed.

Lemma count_internal_fold (nodes : list KGNode) (relationships : list KGRelationship) :
  forall counts : nat * nat,
    fold_left (KnowledgeGraphService.count_internal nodes) relationships counts
    = (counts.1 + List.length (List.filter (Spec.within_file nodes) relationships),
       counts.2
       + (List.length (List.filter (Spec.joins_known nodes) relationships)
          - List.length (List.filter (Spec.within_file nodes) relationships))).
Proof.
  induction relationships as [|rel rels IH]; intros [i e];
    cbn [fold_left List.filter List.length fst snd].
  - f_equal; lia.
  - rewrite IH. pose proof (within_file_joins_known nodes rels) as Hle.
    unfold KnowledgeGraphService.count_internal, Spec.within_file, Spec.joins_known in *.
    cbn [fst snd].
    destruct (KnowledgeGraphService.node_with_id nodes (source_node_id rel)) as [s|];
      destruct (KnowledgeGraphService.node_with_id nodes (target_node_id rel)) as [t|];
      try (rewrite bool_decide_eq_false_2 by (intros [[? [=]] [? [=]]]; congruence);
           reflexivity).
    rewrite bool_decide_eq_true_2 by (split; eexists; reflexivity).
    destruct (eqb (file_path s) (file_path t)); cbn [fst snd List.length];
      f_equal; lia.
Qed.

(** The modularity score lies between 0 and 1.  It is 1 when no
    relationship has both of its ends among the nodes, in particular when
    there is no relationship at all; otherwise it is the share, among the
    relationships with both ends among the nodes, of those whose ends are
    in the same file. *)
Theorem modularity_score_spec (nodes : list KGNode)
    (relationships : list KGRelationship) :
  let joined := List.length (List.filter (Spec.joins_known nodes) relationships) in
  let internal := List.length (List.filter (Spec.within_file nodes) relationships) in
  (0 <= KnowledgeGraphService._calculate_modularity_score nodes relationships <= 1)%Q
  /\ (joined = 0 ->
      KnowledgeGraphService._calculate_modularity_score nodes relationships = 1%Q)
  /\ (0 < joined ->
      KnowledgeGraphService._calculate_modularity_score nodes relationships
      = (Z.of_nat internal # Pos.of_nat joined)%Q)
  /\ internal <= joined.
Proof.
  intros joined internal.
  pose proof (count_internal_fold nodes relationships (0, 0)) as Hfold.
  cbn [fst snd] in Hfold. fold joined internal in Hfold.
  assert (Hle : internal <= joined) by apply within_file_joins_known.
  assert (Hscore : KnowledgeGraphService._calculate_modularity_score nodes relationships
                   = if joined =? 0 then 1%Q
                     else (Z.of_nat internal # Pos.of_nat joined)%Q).
  { unfold KnowledgeGraphService._calculate_modularity_score.
    destruct relationships as [|rel rels] eqn:E; [reflexivity|].
    rewrite <- E in *. cbv zeta. rewrite Hfold. cbn [fst snd].
    replace (0 + internal + (0 + (joined - internal))) with joined by lia.
    replace (0 + internal) with internal by lia. reflexivity. }
  split; [|split; [|split]].
  - rewrite Hscore. destruct (joined =? 0) eqn:E.
    + split; unfold Qle; simpl; lia.
    + apply Nat.eqb_neq in E. unfold Qle. cbn [Qnum Qden].
      assert (Hpos : Z.pos (Pos.of_nat joined) = Z.of_nat joined).
      { rewrite <- positive_nat_Z, Nat2Pos.id by assumption. reflexivity. }
      rewrite Hpos. split; lia.
  - intros E. rewrite Hscore, E. reflexivity.
  - intros Hpos. rewrite Hscore.
    destruct (joined =? 0) eqn:E; [apply Nat.eqb_eq in E; lia|reflexivity].
  - exact Hle.
Qed.

(** ** The result of a parse job *)

Section Outcome.
Import KnowledgeGraphService Invariants.
Context (self : t) (request : ParseRequest) (progress_callback : progress_cb).
Local Open Scope py_scope.

Lemma always_ret {A} (Q : A -> Prop) (a : A) : Q a -> always_returns Q (ret a).
Proof. intros H w. now exists a, w. Qed.

(** The two handlers of [parse_repository] turn whatever is raised into a
    result. *)
Lemma guarded_always {A} (P : A -> Prop) (Q : ParseResult -> Prop)
    (kg_source_id kg_repository_id : option UUID) (m : M A)
    (k : A -> M ParseResult) :
  returns P m ->
  (forall a, P a -> always_returns Q (k a)) ->
  (forall res, pr_success res = false -> is_Some (pr_error res) ->
               pr_statistics res = None -> Q res) ->
  always_returns Q (guarded kg_source_id kg_repository_id m k).
Proof.
  intros Hm Hk HQ w. unfold guarded. specialize (Hm w).
  destruct (m w) as [[a|[cls msg|msg]] w1].
  - now apply Hk.
  - cbv zeta. unfold bind, _update_kg_source_status, modify, ret.
    destruct kg_source_id; eexists _, _; (split; [reflexivity|]);
      apply HQ; cbn; eauto.
  - unfold bind, _update_kg_source_status, modify, ret.
    destruct kg_source_id; eexists _, _; (split; [reflexivity|]);
      apply HQ; cbn; eauto.
Qed.

(** An iteration of the streaming loop counts its file once, and adds at
    most one entry to the failed files. *)
Lemma stream_file_counts (kg_source_id kg_repository_id : UUID) (total_files : nat)
    (tt : totals) (fc : string * string) :
  returns (fun tt' => processed_files tt' = S (processed_files tt)
                      /\ List.length (failed_files tt) <= List.length (failed_files tt')
                      /\ List.length (failed_files tt')
                         <= S (List.length (failed_files tt)))
          (stream_file self progress_callback kg_source_id kg_repository_id
                       total_files tt fc).
Proof.
  unfold stream_file. apply returns_try_except.
  - apply returns_bind_any. intros out. cbv zeta.
    apply (returns_bind
             (fun tt1 => processed_files tt1 = processed_files tt
                         /\ List.length (failed_files tt) <= List.length (failed_files tt1)
                         /\ List.length (failed_files tt1)
                            <= S (List.length (failed_files tt)))).
    + destruct (fpr_success out.2).
      * apply returns_bind_any. intros [|]; apply returns_ret;
          cbn [processed_files failed_files]; unfold fail_file;
          rewrite ?length_app; cbn [List.length]; lia.
      * apply returns_ret. cbn [processed_files failed_files]. unfold fail_file.
        rewrite length_app. cbn [List.length]. lia.
    + intros tt1 (H1 & H2 & H3). apply returns_bind_any. intros _.
      apply returns_ret. cbn [processed_files failed_files]. lia.
  - intros cls msg. apply returns_ret. cbn [processed_files failed_files].
    unfold fail_file. rewrite length_app. cbn [List.length]. lia.
Qed.

Lemma stream_files_counts (kg_source_id kg_repository_id : UUID) (total_files : nat)
    (file_contents : list (string * string)) :
  forall tt,
    returns (fun tt' => processed_files tt'
                        = processed_files tt + List.length file_contents
                        /\ List.length (failed_files tt')
                           <= List.length (failed_files tt)
                              + List.length file_contents)
            (fold_m (stream_file self progress_callback kg_source_id kg_repository_id
                                 total_files)
                    file_contents tt).
Proof.
  induction file_contents as [|fc l IH]; intros tt; cbn [fold_m List.length].
  - apply returns_ret. lia.
  - eapply returns_bind; [apply stream_file_counts|].
    intros tt1 (H1 & H2 & H3). eapply returns_weaken; [|apply IH].
    cbv beta. intros tt2 [H4 H5]. lia.
Qed.

Lemma cross_file_phase_counts (file_contents : list (string * string)) (tt : totals) :
  returns (fun tt' => processed_files tt' = processed_files tt
                      /\ failed_files tt' = failed_files tt)
          (cross_file_phase self file_contents tt).
Proof.
  unfold cross_file_phase. apply returns_try_except.
  - apply returns_bind_any. intros [|rel rels].
    + now apply returns_ret.
    + apply returns_bind_any. intros _. now apply returns_ret.
  - intros cls msg. now apply returns_ret.
Qed.

(** What the job for the source row [kg_source] returns. *)
Lemma located_job_result (kg_source : KGSource) :
  always_returns (Spec.job_result (src_id kg_source))
    (let kg_source_id := src_id kg_source in
     guarded (Some kg_source_id) None
    (create_progress_callback progress_callback kg_source_id PROCESSING 0 None
                              (mkTotals 0 0 0 []) ;;
     located <-
       (if truthy_str (local_path request)
        then ret (local_path request)
        else if truthy_str (repository_url request) then
          d <- _clone_repository self (default "" (repository_url request))
                                 (branch_name request) progress_callback ;;
          ret (Some d)
        else ret None) ;;
     match located with
     | None =>
         ret (inl (failure None "No repository path or URL provided"
                     "Either local_path or repository_url must be specified"))
     | Some repository_path =>
         if negb (path_exists (environment self) repository_path) then
           _update_kg_source_status kg_source_id FAILED
             (Some "Repository path not found") None None ;;
           ret (inl (failure (Some kg_source_id) "Repository path not found"
                       ("Path does not exist: " +:+ repository_path)))
         else
           file_contents <- _read_repository_files self repository_path
                              (languages request) (max_file_size_kb request) ;;
           match file_contents with
           | [] =>
               _update_kg_source_status kg_source_id FAILED
                 (Some "No parseable files found") None None ;;
               ret (inl (failure (Some kg_source_id)
                           "No parseable files found in repository"
                           "Repository contains no supported file types"))
           | _ =>
               kg_repository <- _create_kg_repository self kg_source_id request
                                                      file_contents ;;
               ret (inr (file_contents, kg_repository))
           end
     end)
    (fun located =>
       match located with
       | inl early => ret early
       | inr (file_contents, kg_repository) =>
           let kg_repository_id := repo_id kg_repository in
           let total_files := List.length file_contents in
           guarded (Some kg_source_id) (Some kg_repository_id)
             (tt <- fold_m (stream_file self progress_callback kg_source_id
                                        kg_repository_id total_files)
                           file_contents (mkTotals 0 0 0 []) ;;
              tt <- cross_file_phase self file_contents tt ;;
              let parsed :=
                (Z.of_nat (processed_files tt)
                 - Z.of_nat (List.length (failed_files tt)))%Z in
              _update_repository_statistics kg_repository_id
                (Z.of_nat total_files) parsed ;;
              _update_kg_source_status kg_source_id COMPLETED None
                (Some (Z.of_nat (total_nodes_created tt)))
                (Some (Z.of_nat (total_relationships_created tt))) ;;
              create_progress_callback progress_callback kg_source_id COMPLETED
                                       total_files None tt ;;
              ret {| pr_success := true; pr_kg_source_id := Some kg_source_id;
                     pr_kg_repository_id := Some kg_repository_id;
                     pr_message := "Successfully parsed repository with streaming storage";
                     pr_statistics :=
                       Some {| st_total_files := total_files;
                               st_parsed_files := parsed;
                               st_failed_files := List.length (failed_files tt);
                               st_total_nodes := total_nodes_created tt;
                               st_total_relationships := total_relationships_created tt;
                               st_languages_detected :=
                                 detected_languages self file_contents;
                               st_streaming_storage := true |};
                     pr_error := None |})
             ret
       end)).
Proof.
  cbv zeta.
  assert (Hfail : forall res, pr_success res = false -> is_Some (pr_error res) ->
                              pr_statistics res = None ->
                              Spec.job_result (src_id kg_source) res).
  { intros res Hs He Hst. unfold Spec.job_result. rewrite Hs. now split. }
  apply (guarded_always
           (fun located : ParseResult + list (string * string) * KGRepository =>
              match located with
              | inl early => Spec.job_result (src_id kg_source) early
              | inr (file_contents, _) => file_contents <> []
              end)); [| |exact Hfail].
  - apply returns_bind_any. intros _. apply returns_bind_any. intros [repository_path|].
    + destruct (negb (path_exists (environment self) repository_path)).
      * apply returns_bind_any. intros _. apply returns_ret.
        apply Hfail; cbn; eauto.
      * apply returns_bind_any. intros [|fc file_contents].
        -- apply returns_bind_any. intros _. apply returns_ret.
           apply Hfail; cbn; eauto.
        -- apply returns_bind_any. intros kg_repository. now apply returns_ret.
    + apply returns_ret. apply Hfail; cbn; eauto.
  - intros [early|[file_contents kg_repository]] Hlocated.
    + now apply always_ret.
    + apply (guarded_always (Spec.job_result (src_id kg_source)));
        [|intros res Hres; now apply always_ret|exact Hfail].
      eapply returns_bind; [apply stream_files_counts|].
      cbn [processed_files failed_files List.length]. intros tt [Hp Hf].
      eapply returns_bind; [apply cross_file_phase_counts|].
      intros tt' [Hp' Hf']. cbv zeta.
      apply returns_bind_any. intros _. apply returns_bind_any. intros _.
      apply returns_bind_any. intros _. apply returns_ret.
      unfold Spec.job_result, Spec.counts_add_up.
      cbn [pr_success pr_kg_source_id pr_kg_repository_id pr_error pr_statistics].
      split; [reflexivity|]. split; [eexists; reflexivity|].
      split; [reflexivity|]. eexists. split; [reflexivity|].
      cbn [st_total_files st_parsed_files st_failed_files].
      rewrite Hp', Hf'.
      destruct file_contents as [|fc l]; [contradiction|].
      cbn [List.length] in *. lia.
Qed.

Lemma parse_repository_result (w : world) :
  exists res w',
    parse_repository self request progress_callback w = (Ok res, w')
    /\ Spec.job_result (next_uuid w) res.
Proof.
  destruct (create_source_outcome request w) as (row & w1 & E & Hid & _).
  unfold parse_repository. unfold guarded at 1. rewrite E. rewrite <- Hid.
  apply (located_job_result row w1).
Qed.

End Outcome.

(** [parse_repository] never raises: whatever is raised while it runs, an
    exception or a cancellation, and whatever the progress callback does,
    it returns a result.  A result that reports success names the source
    row the job has created and a repository, and has statistics and no
    error; one that reports a failure has an error and no statistics. *)
Theorem parse_repository_returns (self : KnowledgeGraphService.t)
    (request : ParseRequest) (progress_callback : KnowledgeGraphService.progress_cb)
    (w : world) :
  exists res w',
    KnowledgeGraphService.parse_repository self request progress_callback w
    = (Ok res, w')
    /\ (pr_success res = true ->
        pr_kg_source_id res = Some (next_uuid w)
        /\ is_Some (pr_kg_repository_id res)
        /\ is_Some (pr_statistics res)
        /\ pr_error res = None)
    /\ (pr_success res = false ->
        is_Some (pr_error res) /\ pr_statistics res = None).
Proof.
  destruct (parse_repository_result self request progress_callback w)
    as (res & w' & E & Hres).
  exists res, w'. split; [exact E|]. unfold Spec.job_result in Hres.
  destruct (pr_success res).
  - destruct Hres as (H1 & H2 & H3 & st & H4 & _). split; [|discriminate].
    intros _. rewrite H4. eauto.
  - split; [discriminate|]. intros _. exact Hres.
Qed.



(** A request that names neither a local path nor a repository URL, run
    with no progress callback, ends in a failure result that carries no
    source identifier; the source row created for it stays in the store,
    with the status pending, and nothing else changes. *)
Theorem job_without_location (self : KnowledgeGraphService.t)
    (request : ParseRequest) (w : world) :
  KnowledgeGraphService.truthy_str (local_path request) = false ->
  KnowledgeGraphService.truthy_str (repository_url request) = false ->
  exists row,
    KnowledgeGraphService.parse_repository self request None w
    = (Ok (KnowledgeGraphService.failure None "No repository path or URL provided"
             "Either local_path or repository_url must be specified"),
       set_kg_sources (kg_sources w ++ [row])%list
                      (set_next_uuid (S (next_uuid w)) w))
    /\ src_id row = next_uuid w
    /\ parsing_status row = PENDING
    /\ parsing_error row = None.
Proof.
  intros Hpath Hurl.
  unfold KnowledgeGraphService.parse_repository, KnowledgeGraphService.guarded,
    KnowledgeGraphService._create_kg_source,
    KnowledgeGraphService.create_progress_callback, bind, uuid4, modify, ret.
  cbv beta iota zeta. rewrite Hpath, Hurl. cbv beta iota zeta.
  eexists. split; [reflexivity|]. repeat split.
Qed.

Lemma job_without_location_witness :
  KnowledgeGraphService.truthy_str (local_path Examples.unlocated_request) = false
  /\ KnowledgeGraphService.truthy_str (repository_url Examples.unlocated_request) = false
  /\ exists row,
       KnowledgeGraphService.parse_repository (Examples.service_cancelled_at 0)
         Examples.unlocated_request None world0
       = (Ok (KnowledgeGraphService.failure None "No repository path or URL provided"
                "Either local_path or repository_url must be specified"),
          set_kg_sources (kg_sources world0 ++ [row])%list
                         (set_next_uuid (S (next_uuid world0)) world0))
       /\ src_id row = next_uuid world0
       /\ parsing_status row = PENDING
       /\ parsing_error row = None.
Proof.
  split; [reflexivity|]. split; [reflexivity|].
  exact (job_without_location (Examples.service_cancelled_at 0)
           Examples.unlocated_request world0 eq_refl eq_refl).
Defined.

(** ** Reading the files of a repository *)

Section Reading.
Import KnowledgeGraphService Invariants.
Context (self : t) (language_filter : option (list string)) (max_file_size_kb : Z).

(** One iteration of the loop over the files: a file whose size is unknown,
    or that passes the filters and cannot be read, ends the loop with a
    [NameError]; a file that passes the filters is added; any other file is
    skipped. *)
Lemma read_one_cases (file_contents : list (string * string))
    (f : TreeSitterParser.repo_file) (w : world) :
  read_one self language_filter (max_file_size_kb * 1024) file_contents f w
  = match TreeSitterParser.rf_size f with
    | None => (Raise (Exception "NameError" "name 'safe_logfire_warning' is not defined"), w)
    | Some _ =>
        if Spec.accepted self language_filter max_file_size_kb f
        then match TreeSitterParser.rf_read f with
             | inl content =>
                 (Ok (GraphBuilder.dict_set (TreeSitterParser.rf_path f) content
                        file_contents), w)
             | inr _ =>
                 (Raise (Exception "NameError"
                           "name 'safe_logfire_warning' is not defined"), w)
             end
        else (Ok file_contents, w)
    end.
Proof.
  unfold read_one, Spec.accepted, log_warning_unbound, raise, ret.
  destruct (TreeSitterParser.rf_size f) as [size|]; [|reflexivity].
  destruct (TreeSitterParser.should_parse_file (parser self)
              (TreeSitterParser.rf_path f) (Some size)); cbn [negb andb];
    [|reflexivity].
  rewrite Z.leb_antisym.
  destruct (max_file_size_kb * 1024 <? size)%Z; cbn [negb andb]; [reflexivity|].
  destruct (TreeSitterParser.detect_language (parser self)
              (TreeSitterParser.rf_path f)) as [language|]; [|reflexivity].
  destruct (PyStr.nonempty language); cbn [negb andb]; [|reflexivity].
  destruct language_filter as [[|l ls]|];
    try (destruct (TreeSitterParser.rf_read f); reflexivity).
  destruct (PyStr.mem language (l :: ls)); cbn [negb]; [|reflexivity].
  destruct (TreeSitterParser.rf_read f); reflexivity.
Qed.

Lemma read_files_spec (files : list TreeSitterParser.repo_file) :
  forall (acc : list (string * string)) (w : world),
    NoDup (List.map fst acc) ->
    match fold_m (read_one self language_filter (max_file_size_kb * 1024)) files acc w with
    | (Ok file_contents, w') =>
        w' = w
        /\ NoDup (List.map fst file_contents)
        /\ (forall f, In f files ->
              TreeSitterParser.rf_size f <> None
              /\ (Spec.accepted self language_filter max_file_size_kb f = true ->
                  exists content, TreeSitterParser.rf_read f = inl content))
        /\ (forall p, In p (List.map fst file_contents)
                      <-> In p (List.map fst acc)
                          \/ exists f, In f files
                               /\ Spec.accepted self language_filter max_file_size_kb f
                                  = true
                               /\ TreeSitterParser.rf_path f = p)
        /\ (forall p content, In (p, content) file_contents ->
              In (p, content) acc
              \/ exists f, In f files
                   /\ Spec.accepted self language_filter max_file_size_kb f = true
                   /\ TreeSitterParser.rf_path f = p
                   /\ TreeSitterParser.rf_read f = inl content)
    | (Raise e, w') =>
        w' = w
        /\ e = Exception "NameError" "name 'safe_logfire_warning' is not defined"
        /\ exists f, In f files
             /\ (TreeSitterParser.rf_size f = None
                 \/ (Spec.accepted self language_filter max_file_size_kb f = true
                     /\ exists msg, TreeSitterParser.rf_read f = inr msg))
    end.
Proof.
  induction files as [|x files IH]; intros acc w Hacc.
  - cbn [fold_m]. unfold ret. split; [reflexivity|]. split; [assumption|].
    split; [intros f []|]. split.
    + intros p. split; [auto|]. intros [H|(f & [] & _)]. exact H.
    + intros p content H. now left.
  - cbn [fold_m]. unfold bind. rewrite read_one_cases.
    destruct (TreeSitterParser.rf_size x) as [size|] eqn:Esize.
    2:{ split; [reflexivity|]. split; [reflexivity|]. exists x.
        split; [now left|now left]. }
    destruct (Spec.accepted self language_filter max_file_size_kb x) eqn:Eacc.
    + destruct (TreeSitterParser.rf_read x) as [content|msg] eqn:Eread.
      2:{ split; [reflexivity|]. split; [reflexivity|]. exists x.
          split; [now left|]. right. split; [exact Eacc|]. now exists msg. }
      specialize (IH (GraphBuilder.dict_set (TreeSitterParser.rf_path x) content acc) w
                     (dict_set_NoDup _ _ _ Hacc)).
      destruct (fold_m _ files _ w) as [[file_contents|e] w'].
      * destruct IH as (Hw & Hnd & Hfiles & Hkeys & Hitems).
        split; [exact Hw|]. split; [exact Hnd|]. split; [|split].
        -- intros f [<-|Hf]; [|now apply Hfiles].
           split; [congruence|]. intros _. now exists content.
        -- intros p. rewrite Hkeys, dict_set_keys. split.
           ++ intros [[->|H]|(f & Hf & Ha & Hp)].
              ** right. exists x. split; [now left|]. now split.
              ** now left.
              ** right. exists f. split; [now right|]. now split.
           ++ intros [H|(f & [<-|Hf] & Ha & Hp)].
              ** left. now right.
              ** left. now left.
              ** right. exists f. now repeat split.
        -- intros p c Hin. destruct (Hitems p c Hin) as [H|(f & Hf & Ha & Hp & Hr)].
           ++ apply dict_set_In_weak in H as [[-> ->]|H]; [|now left].
              right. exists x. split; [now left|]. now repeat split.
           ++ right. exists f. split; [now right|]. now repeat split.
      * destruct IH as (Hw & He & f & Hf & Hcase).
        split; [exact Hw|]. split; [exact He|]. exists f. split; [now right|exact Hcase].
    + specialize (IH acc w Hacc).
      destruct (fold_m _ files acc w) as [[file_contents|e] w'].
      * destruct IH as (Hw & Hnd & Hfiles & Hkeys & Hitems).
        split; [exact Hw|]. split; [exact Hnd|]. split; [|split].
        -- intros f [<-|Hf]; [|now apply Hfiles].
           split; [congruence|]. rewrite Eacc. discriminate.
        -- intros p. rewrite Hkeys. split.
           ++ intros [H|(f & Hf & Ha & Hp)]; [now left|].
              right. exists f. split; [now right|]. now split.
           ++ intros [H|(f & [<-|Hf] & Ha & Hp)]; [now left|congruence|].
              right. exists f. now repeat split.
        -- intros p c Hin. destruct (Hitems p c Hin) as [H|(f & Hf & Ha & Hp & Hr)];
             [now left|].
           right. exists f. split; [now right|]. now repeat split.
      * destruct IH as (Hw & He & f & Hf & Hcase).
        split; [exact Hw|]. split; [exact He|]. exists f. split; [now right|exact Hcase].
Qed.

End Reading.

(** [_read_repository_files] either returns or raises a [NameError], and
    leaves the store as it was.  When it returns, the size of every file
    under the root is known; the paths of the dictionary are, without
    repetition, the paths of the files that pass the filters; and each text
    is what reading such a file gives.  It raises when the size of a file
    is unknown, or when a file that passes the filters cannot be read: the
    handlers of these two failures call a function that the module does
    not import. *)
Theorem read_repository_files_spec (self : KnowledgeGraphService.t)
    (repository_path : string) (language_filter : option (list string))
    (max_file_size_kb : Z) (w : world) :
  let files := KnowledgeGraphService.walk (KnowledgeGraphService.environment self)
                 repository_path in
  match KnowledgeGraphService._read_repository_files self repository_path
          language_filter max_file_size_kb w with
  | (Ok file_contents, w') =>
      w' = w
      /\ NoDup (List.map fst file_contents)
      /\ (forall f, In f files ->
            TreeSitterParser.rf_size f <> None
            /\ (Spec.accepted self language_filter max_file_size_kb f = true ->
                exists content, TreeSitterParser.rf_read f = inl content))
      /\ (forall p, In p (List.map fst file_contents)
                    <-> exists f, In f files
                          /\ Spec.accepted self language_filter max_file_size_kb f = true
                          /\ TreeSitterParser.rf_path f = p)
      /\ (forall p content, In (p, content) file_contents ->
            exists f, In f files
              /\ Spec.accepted self language_filter max_file_size_kb f = true
              /\ TreeSitterParser.rf_path f = p
              /\ TreeSitterParser.rf_read f = inl content)
  | (Raise e, w') =>
      w' = w
      /\ e = Exception "NameError" "name 'safe_logfire_warning' is not defined"
      /\ exists f, In f files
           /\ (TreeSitterParser.rf_size f = None
               \/ (Spec.accepted self language_filter max_file_size_kb f = true
                   /\ exists msg, TreeSitterParser.rf_read f = inr msg))
  end.
Proof.
  intros files. unfold KnowledgeGraphService._read_repository_files. fold files.
  pose proof (read_files_spec self language_filter max_file_size_kb files [] w
                (NoDup_nil_2 : NoDup (List.map fst (@nil (string * string))))) as H.
  destruct (fold_m _ files [] w) as [[file_contents|e] w']; [|exact H].
  destruct H as (Hw & Hnd & Hfiles & Hkeys & Hitems).
  split; [exact Hw|]. split; [exact Hnd|]. split; [exact Hfiles|]. split.
  - intros p. rewrite Hkeys. split; [intros [[]|H]; exact H|now right].
  - intros p c Hin. destruct (Hitems p c Hin) as [[]|H]. exact H.
Qed.

(** ** The source row after a parse job *)

Section Stored.
Import KnowledgeGraphService Invariants.
Local Open Scope py_scope.

Lemma same_refl (w : world) : same_sources w w.
Proof. reflexivity. Qed.

Lemma same_trans (a b c : world) :
  same_sources a b -> same_sources b c -> same_sources a c.
Proof. unfold same_sources. congruence. Qed.

Lemma same_uuid (w : world) : same_sources w (set_next_uuid (S (next_uuid w)) w).
Proof. reflexivity. Qed.

Lemma same_cancellation_point (seen : nat -> bool) (msg : string) :
  respects same_sources same_sources (cancellation_point seen msg).
Proof. intros w. unfold cancellation_point. now destruct (seen (points w)). Qed.

Lemma same_modify (f : world -> world) :
  (forall w, kg_sources (f w) = kg_sources w) ->
  respects same_sources same_sources (modify f).
Proof. intros H w. apply H. Qed.

Lemma same_for_each {A} (l : list A) (body : A -> M unit) :
  (forall x, respects same_sources same_sources (body x)) ->
  respects same_sources same_sources (for_each l body).
Proof.
  intros Hb. induction l as [|x l IH]; cbn [for_each].
  - apply (respects_ret _ _ same_refl).
  - apply (respects_bind _ _ same_trans same_trans); auto.
Qed.

Ltac same_step :=
  lazymatch goal with
  | |- respects _ _ (bind _ _) =>
      apply (respects_bind _ _ same_trans same_trans); [|intros]
  | |- respects _ _ (ret _) => apply (respects_ret _ _ same_refl)
  | |- respects _ _ (raise (Exception _ _)) => apply (respects_raise _ _ same_refl)
  | |- respects _ _ uuid4 => apply (respects_uuid4 _ _ same_uuid)
  | |- respects _ _ (try_except _ _) =>
      apply (respects_try_except _ _ same_trans same_trans); [|intros]
  | |- respects _ _ (fold_m _ _ _) =>
      apply (respects_fold_m _ _ same_refl same_trans same_trans); intros
  | |- respects _ _ (for_each _ _) => apply same_for_each; intros
  | |- respects _ _ (cancellation_point _ _) => apply same_cancellation_point
  | |- respects _ _ (modify _) => apply same_modify; intros; reflexivity
  | |- respects _ _ (if ?b then _ else _) => destruct b
  | |- respects _ _ (match ?x with _ => _ end) => destruct x
  | |- respects _ _ (let _ := _ in _) => cbv zeta
  end.

Ltac same_with tac := cbv zeta; repeat (first [assumption | same_step | tac]).

Context (self : t) (request : ParseRequest) (progress_callback : progress_cb).
Hypothesis callback_keeps :
  forall cb p w0, progress_callback = Some cb -> kg_sources (cb p w0).2 = kg_sources w0.

Lemma same_callback (cb : ParsingProgress -> M unit) (p : ParsingProgress) :
  progress_callback = Some cb -> respects same_sources same_sources (cb p).
Proof.
  intros E w. pose proof (callback_keeps cb p w E) as H.
  destruct (cb p w) as [[a|[cls msg|msg]] w']; exact H.
Qed.

Lemma same_progress (id : UUID) (status : ParsingStatus) (total : nat)
    (current : option string) (tt : totals) :
  respects same_sources same_sources
    (create_progress_callback progress_callback id status total current tt).
Proof.
  unfold create_progress_callback. pose proof same_callback as Hcb.
  destruct progress_callback as [cb|].
  - now apply Hcb.
  - apply (respects_ret _ _ same_refl).
Qed.

Lemma same_clone (url branch : string) :
  respects same_sources same_sources
    (_clone_repository self url branch progress_callback).
Proof.
  unfold _clone_repository.
  apply (respects_bind _ _ same_trans same_trans).
  - pose proof same_callback as Hcb.
    destruct progress_callback as [cb|];
      [now apply Hcb|apply (respects_ret _ _ same_refl)].
  - intros _. same_with fail.
Qed.

Lemma same_read (repository_path : string) (filter : option (list string)) (size : Z) :
  respects same_sources same_sources
    (_read_repository_files self repository_path filter size).
Proof.
  unfold _read_repository_files, read_one, log_warning_unbound. same_with fail.
Qed.

Lemma same_create_repository (id : UUID) (file_contents : list (string * string)) :
  respects same_sources same_sources
    (_create_kg_repository self id request file_contents).
Proof. unfold _create_kg_repository. same_with fail. Qed.

Lemma same_stream_file (id repo : UUID) (total : nat) (tt : totals)
    (fc : string * string) :
  respects same_sources same_sources
    (stream_file self progress_callback id repo total tt fc).
Proof.
  unfold stream_file, _stream_store_file_data, _store_nodes_and_relationships.
  same_with ltac:(first
    [ apply (respects_parse_file _ _ same_refl same_trans same_trans same_uuid
               (Some (check_cancellation self))
               (same_cancellation_point _ _))
    | apply same_progress ]).
Qed.

Lemma same_cross_file_phase (file_contents : list (string * string)) (tt : totals) :
  respects same_sources same_sources (cross_file_phase self file_contents tt).
Proof.
  unfold cross_file_phase.
  apply (respects_try_except _ _ same_trans same_trans);
    [|intros; apply (respects_ret _ _ same_refl)].
  apply (respects_bind _ _ same_trans same_trans).
  - intros w. rewrite build_relationships_empty_nodes. revert w.
    change (respects same_sources same_sources
              (bind (for_each file_contents
                       (fun _ => call_opt (Some (check_cancellation self))))
                    (fun _ => ret ([] : list KGRelationship)))).
    same_with ltac:(apply same_cancellation_point).
  - intros rels. unfold _store_nodes_and_relationships. same_with fail.
Qed.

(** The rows [id] after an update of their status. *)
Lemma updated_rows (id : UUID) (status : ParsingStatus) (msg : option string)
    (n r : option Z) (w : world) :
  let w' := (_update_kg_source_status id status msg n r w).2 in
  List.map src_id (kg_sources w') = List.map src_id (kg_sources w)
  /\ forall row, In row (kg_sources w') -> src_id row = id ->
       parsing_status row = status
       /\ (truthy_str msg = true -> parsing_error row = msg)
       /\ (forall z, n = Some z -> Models.total_nodes_created row = z)
       /\ (forall z, r = Some z -> Models.total_relationships_created row = z).
Proof.
  unfold _update_kg_source_status, modify. cbn [snd kg_sources set_kg_sources].
  split; [now apply update_source_ids|].
  intros row Hrow Hid. apply in_map_iff in Hrow as (row0 & <- & Hin0).
  destruct (src_id row0 =? id) eqn:E.
  - unfold update_source. cbn. repeat split.
    + intros ->. reflexivity.
    + intros z ->. reflexivity.
    + intros z ->. reflexivity.
  - apply Nat.eqb_neq in E. contradiction.
Qed.

(** The handlers of the job leave the rows failed. *)
Lemma guarded_stored {A} (id : UUID) (repo : option UUID) (m : M A)
    (k : A -> M ParseResult) (w : world) :
  In id (List.map src_id (kg_sources w)) ->
  match m w with
  | (Ok a, w1) =>
      match k a w1 with
      | (Ok res, w2) => stored_outcome id res w2
      | (Raise _, _) => True
      end
  | (Raise _, w1) => List.map src_id (kg_sources w1) = List.map src_id (kg_sources w)
  end ->
  match guarded (Some id) repo m k w with
  | (Ok res, w') => stored_outcome id res w'
  | (Raise _, _) => True
  end.
Proof.
  intros Hin Hm. unfold guarded.
  destruct (m w) as [[a|[cls msg|msg]] w1]; [exact Hm| |].
  - cbv zeta. unfold bind.
    pose proof (updated_rows id FAILED (Some ("Repository parsing failed: " +:+ msg))
                  None None w1) as [Hids Hrows].
    destruct (_update_kg_source_status id FAILED
                (Some ("Repository parsing failed: " +:+ msg)) None None w1)
      as [[[]|e] w2] eqn:E; [|discriminate E].
    cbn [snd] in Hids, Hrows. unfold ret, stored_outcome.
    cbn [pr_success pr_kg_source_id pr_statistics].
    split; [now rewrite Hids, Hm|]. split; [discriminate|].
    split; [|discriminate].
    intros _ _ row Hrow Hid. destruct (Hrows row Hrow Hid) as (Hs & He & _).
    split; [exact Hs|]. rewrite He by reflexivity. eauto.
  - unfold bind.
    pose proof (updated_rows id FAILED (Some "Parsing was cancelled by user")
                  None None w1) as [Hids Hrows].
    destruct (_update_kg_source_status id FAILED
                (Some "Parsing was cancelled by user") None None w1)
      as [[[]|e] w2] eqn:E; [|discriminate E].
    cbn [snd] in Hids, Hrows. unfold ret, stored_outcome, cancelled_result.
    cbn [pr_success pr_kg_source_id pr_statistics].
    split; [now rewrite Hids, Hm|]. split; [discriminate|].
    split; [|discriminate].
    intros _ _ row Hrow Hid. destruct (Hrows row Hrow Hid) as (Hs & He & _).
    split; [exact Hs|]. rewrite He by reflexivity. eauto.
Qed.

Lemma post_bind {A B} (m : M A) (k : A -> M B) (w : world)
    (Q : B -> world -> Prop) (E : world -> Prop) :
  match m w with
  | (Ok a, w1) =>
      match k a w1 with
      | (Ok b, w2) => Q b w2
      | (Raise _, w2) => E w2
      end
  | (Raise _, w1) => E w1
  end ->
  match bind m k w with
  | (Ok b, w2) => Q b w2
  | (Raise _, w2) => E w2
  end.
Proof. unfold bind. now destruct (m w) as [[a|e] w1]. Qed.

(** A step of a run whose first part leaves the source rows as they are. *)
Tactic Notation "run_same" tactic3(tac) "as" ident(a) ident(w') ident(H) :=
  apply post_bind;
  lazymatch goal with
  | |- match ?m ?w with _ => _ end =>
      assert (H : respects same_sources same_sources m) by (same_with tac);
      specialize (H w);
      destruct (m w) as [[a|[? ?|?]] w']; unfold same_sources in H
  end.

(** A step of a run that begins with an update of the status. *)
Tactic Notation "run_update" "as" ident(w') ident(Hids) ident(Hrows) :=
  apply post_bind;
  lazymatch goal with
  | |- match _update_kg_source_status ?id ?st ?msg ?n ?r ?w with _ => _ end =>
      let E := fresh "E" in
      pose proof (updated_rows id st msg n r w) as [Hids Hrows];
      destruct (_update_kg_source_status id st msg n r w) as [[[]|?] w'] eqn:E;
      [cbn [snd] in Hids, Hrows|discriminate E]
  end.

Lemma failed_stored (id : UUID) (message error : string) (w w1 : world) :
  In id (List.map src_id (kg_sources w)) ->
  List.map src_id (kg_sources w1) = List.map src_id (kg_sources w) ->
  (forall row, In row (kg_sources w1) -> src_id row = id ->
     parsing_status row = FAILED /\ is_Some (parsing_error row)) ->
  stored_outcome id (failure (Some id) message error) w1.
Proof.
  intros Hin Hids Hrows. unfold stored_outcome, failure.
  cbn [pr_success pr_kg_source_id pr_statistics].
  split; [now rewrite Hids|]. split; [discriminate|]. split; [|discriminate].
  intros _ _. exact Hrows.
Qed.

(** The job once the source row exists. *)
Lemma located_stored (kg_source : KGSource) (w : world) :
  (exists row, In row (kg_sources w) /\ src_id row = src_id kg_source
               /\ parsing_status row = PENDING) ->
  match
    (let kg_source_id := src_id kg_source in
     guarded (Some kg_source_id) None
    (create_progress_callback progress_callback kg_source_id PROCESSING 0 None
                              (mkTotals 0 0 0 []) ;;
     located <-
       (if truthy_str (local_path request)
        then ret (local_path request)
        else if truthy_str (repository_url request) then
          d <- _clone_repository self (default "" (repository_url request))
                                 (branch_name request) progress_callback ;;
          ret (Some d)
        else ret None) ;;
     match located with
     | None =>
         ret (inl (failure None "No repository path or URL provided"
                     "Either local_path or repository_url must be specified"))
     | Some repository_path =>
         if negb (path_exists (environment self) repository_path) then
           _update_kg_source_status kg_source_id FAILED
             (Some "Repository path not found") None None ;;
           ret (inl (failure (Some kg_source_id) "Repository path not found"
                       ("Path does not exist: " +:+ repository_path)))
         else
           file_contents <- _read_repository_files self repository_path
                              (languages request) (max_file_size_kb request) ;;
           match file_contents with
           | [] =>
               _update_kg_source_status kg_source_id FAILED
                 (Some "No parseable files found") None None ;;
               ret (inl (failure (Some kg_source_id)
                           "No parseable files found in repository"
                           "Repository contains no supported file types"))
           | _ =>
               kg_repository <- _create_kg_repository self kg_source_id request
                                                      file_contents ;;
               ret (inr (file_contents, kg_repository))
           end
     end)
    (fun located =>
       match located with
       | inl early => ret early
       | inr (file_contents, kg_repository) =>
           let kg_repository_id := repo_id kg_repository in
           let total_files := List.length file_contents in
           guarded (Some kg_source_id) (Some kg_repository_id)
             (tt <- fold_m (stream_file self progress_callback kg_source_id
                                        kg_repository_id total_files)
                           file_contents (mkTotals 0 0 0 []) ;;
              tt <- cross_file_phase self file_contents tt ;;
              let parsed :=
                (Z.of_nat (processed_files tt)
                 - Z.of_nat (List.length (failed_files tt)))%Z in
              _update_repository_statistics kg_repository_id
                (Z.of_nat total_files) parsed ;;
              _update_kg_source_status kg_source_id COMPLETED None
                (Some (Z.of_nat (total_nodes_created tt)))
                (Some (Z.of_nat (total_relationships_created tt))) ;;
              create_progress_callback progress_callback kg_source_id COMPLETED
                                       total_files None tt ;;
              ret {| pr_success := true; pr_kg_source_id := Some kg_source_id;
                     pr_kg_repository_id := Some kg_repository_id;
                     pr_message := "Successfully parsed repository with streaming storage";
                     pr_statistics :=
                       Some {| st_total_files := total_files;
                               st_parsed_files := parsed;
                               st_failed_files := List.length (failed_files tt);
                               st_total_nodes := total_nodes_created tt;
                               st_total_relationships := total_relationships_created tt;
                               st_languages_detected :=
                                 detected_languages self file_contents;
                               st_streaming_storage := true |};
                     pr_error := None |})
             ret
       end)) w
  with
  | (Ok res, w') => stored_outcome (src_id kg_source) res w'
  | (Raise _, _) => True
  end.
Proof.
  intros Hpending. cbv zeta.
  assert (Hin : In (src_id kg_source) (List.map src_id (kg_sources w))).
  { destruct Hpending as (row & Hrow & Hid & _). apply in_map_iff. eauto. }
  apply guarded_stored; [exact Hin|].
  run_same (apply same_progress) as u w1 H1; [|now rewrite H1..].
  run_same (apply same_clone) as located w2 H2; [|now rewrite H2, H1..].
  assert (Hw2 : kg_sources w2 = kg_sources w) by congruence.
  clear H1 H2.
  destruct located as [repository_path|].
  2:{ unfold ret. unfold stored_outcome, failure.
      cbn [pr_success pr_kg_source_id pr_statistics].
      split; [now rewrite Hw2|]. split; [discriminate|]. split; [discriminate|].
      intros _. split; [reflexivity|]. now rewrite Hw2. }
  destruct (negb (path_exists (environment self) repository_path)).
  { run_update as w3 Hids Hrows.
    unfold ret. apply (failed_stored _ _ _ w); [exact Hin|now rewrite Hids, Hw2|].
    intros row Hrow Hid. destruct (Hrows row Hrow Hid) as (Hs & He & _).
    split; [exact Hs|]. rewrite He by reflexivity. eauto. }
  run_same (apply same_read) as file_contents w3 H3; [|now rewrite H3, Hw2..].
  assert (Hw3 : kg_sources w3 = kg_sources w) by congruence. clear H3.
  destruct file_contents as [|fc file_contents].
  { run_update as w4 Hids Hrows.
    unfold ret. apply (failed_stored _ _ _ w); [exact Hin|now rewrite Hids, Hw3|].
    intros row Hrow Hid. destruct (Hrows row Hrow Hid) as (Hs & He & _).
    split; [exact Hs|]. rewrite He by reflexivity. eauto. }
  run_same (apply same_create_repository) as kg_repository w4 H4;
    [|now rewrite H4, Hw3..].
  assert (Hw4 : kg_sources w4 = kg_sources w) by congruence. clear H4.
  unfold ret at 1. cbv zeta.
  apply guarded_stored; [now rewrite Hw4|].
  run_same (apply same_stream_file) as tt1 w5 H5; [|now rewrite H5..].
  run_same (apply same_cross_file_phase) as tt2 w6 H6; [|now rewrite H6, H5..].
  cbv zeta. unfold _update_repository_statistics.
  run_same fail as u7 w7 H7; [|now rewrite H7, H6, H5..].
  assert (Hw7 : kg_sources w7 = kg_sources w4) by congruence.
  clear H5 H6 H7.
  run_update as w8 Hids Hrows.
  run_same (apply same_progress) as u9 w9 H9; [|now rewrite H9, Hids, Hw7..].
  unfold ret. unfold stored_outcome.
  cbn [pr_success pr_kg_source_id pr_statistics].
  split; [now rewrite H9, Hids, Hw7, Hw4|]. split; [|split; discriminate].
  intros _ row Hrow Hid. rewrite H9 in Hrow.
  destruct (Hrows row Hrow Hid) as (Hs & _ & Hn & Hr).
  split; [exact Hs|]. eexists. split; [reflexivity|].
  cbn [st_total_nodes st_total_relationships]. split; [now apply Hn|now apply Hr].
Qed.

Lemma parse_repository_stored (w : world) :
  match parse_repository self request progress_callback w with
  | (Ok res, w') => stored_outcome (next_uuid w) res w'
  | (Raise _, _) => True
  end.
Proof.
  unfold parse_repository. unfold guarded at 1.
  unfold _create_kg_source at 1. unfold bind at 1 2 3, uuid4, modify, ret at 1.
  cbv beta iota zeta.
  match goal with
  | |- match guarded _ _ _ _ ?w1 with _ => _ end =>
      match w1 with
      | set_kg_sources (_ ++ [?row])%list _ =>
          change (next_uuid w) with (src_id row);
          apply (located_stored row w1)
      end
  end.
  eexists. split; [|split; reflexivity].
  cbn [kg_sources set_kg_sources]. apply in_or_app. right. now left.
Qed.

End Stored.

(** What [parse_repository] leaves in the store matches what it returns,
    for a progress callback that leaves the source rows alone.  The job
    adds a source row under a new identifier.  When the result reports
    success, the rows of that identifier are completed, and their totals of
    nodes and relationships are those of the statistics; when it reports a
    failure and names the source, they are failed, with an error; and when
    it names no source, a row of that identifier is still pending. *)
Theorem source_row_after_job (self : KnowledgeGraphService.t)
    (request : ParseRequest) (progress_callback : KnowledgeGraphService.progress_cb)
    (w : world) (res : ParseResult) :
  (forall cb p w0, progress_callback = Some cb ->
                   kg_sources (cb p w0).2 = kg_sources w0) ->
  (KnowledgeGraphService.parse_repository self request progress_callback w).1
  = Ok res ->
  let w' := (KnowledgeGraphService.parse_repository self request
               progress_callback w).2 in
  In (next_uuid w) (List.map src_id (kg_sources w'))
  /\ (pr_success res = true ->
      forall row, In row (kg_sources w') -> src_id row = next_uuid w ->
        parsing_status row = COMPLETED
        /\ exists st,
             pr_statistics res = Some st
             /\ total_nodes_created row = Z.of_nat (st_total_nodes st)
             /\ total_relationships_created row
                = Z.of_nat (st_total_relationships st))
  /\ (pr_success res = false -> pr_kg_source_id res = Some (next_uuid w) ->
      forall row, In row (kg_sources w') -> src_id row = next_uuid w ->
        parsing_status row = FAILED /\ is_Some (parsing_error row))
  /\ (pr_kg_source_id res = None ->
      pr_success res = false
      /\ exists row, In row (kg_sources w') /\ src_id row = next_uuid w
                     /\ parsing_status row = PENDING).
Proof.
  intros Hcb Hrun w'.
  pose proof (parse_repository_stored self request progress_callback Hcb w) as H.
  subst w'.
  destruct (KnowledgeGraphService.parse_repository self request progress_callback w)
    as [[res'|e] w1]; [|discriminate Hrun].
  cbn [fst] in Hrun. injection Hrun as ->. exact H.
Qed.

Lemma source_row_witness :
  exists res,
    (forall cb p w0,
        @None (ParsingProgress -> M unit) = Some cb ->
        kg_sources (cb p w0).2 = kg_sources w0)
    /\ Examples.completed_run.1 = Ok res
    /\ In (next_uuid world0) (List.map src_id (kg_sources Examples.completed_run.2))
    /\ (pr_success res = true ->
        forall row, In row (kg_sources Examples.completed_run.2) ->
          src_id row = next_uuid world0 ->
          parsing_status row = COMPLETED
          /\ exists st,
               pr_statistics res = Some st
               /\ total_nodes_created row = Z.of_nat (st_total_nodes st)
               /\ total_relationships_created row
                  = Z.of_nat (st_total_relationships st))
    /\ (pr_success res = false -> pr_kg_source_id res = Some (next_uuid world0) ->
        forall row, In row (kg_sources Examples.completed_run.2) ->
          src_id row = next_uuid world0 ->
          parsing_status row = FAILED /\ is_Some (parsing_error row))
    /\ (pr_kg_source_id res = None ->
        pr_success res = false
        /\ exists row, In row (kg_sources Examples.completed_run.2)
                       /\ src_id row = next_uuid world0
                       /\ parsing_status row = PENDING).
Proof.
  assert (H1 : forall cb p w0,
             @None (ParsingProgress -> M unit) = Some cb ->
             kg_sources (cb p w0).2 = kg_sources w0) by discriminate.
  assert (H2 : exists res, Examples.completed_run.1 = Ok res).
  { vm_compute. eexists. reflexivity. }
  destruct H2 as (res & H2). exists res.
  split; [exact H1|]. split; [exact H2|].
  exact (source_row_after_job (Examples.service_cancelled_at 1000)
           Examples.mini_request None world0 res H1 H2).
Defined.
